(** * uranus: the kernel-event policy agent, embedded and verified

    A shallow embedding of the Go sources of the agent (packages [judge],
    [background], [telegram] and [user]) together with the properties of
    its specification.

    Layout: the first part holds the embedding, one module per Go package;
    the second part holds the lemmas and theorems. *)

From Stdlib Require Import ZArith List String Ascii Bool Lia.
Import ListNotations.

Local Open Scope string_scope.
Local Open Scope list_scope.
Local Open Scope Z_scope.

(* ================================================================= *)
(** * Part I: the embedding *)
(* ================================================================= *)

(** ** Strings: what the sources use of package [strings] *)

Module Strings.

(** [strings.Split(s, sep)] for a separator of one byte: the pieces of
    [s] between the occurrences of [sep]; there is always at least one
    piece. *)
Fixpoint Split (sep : ascii) (s : string) : list string :=
  match s with
  | EmptyString => [EmptyString]
  | String c rest =>
      if Ascii.eqb c sep then EmptyString :: Split sep rest
      else match Split sep rest with
           | [] => [String c EmptyString]
           | piece :: pieces => String c piece :: pieces
           end
  end.

(** [strings.Join(elems, sep)] for a separator of one byte. *)
Definition Join (elems : list string) (sep : ascii) : string :=
  String.concat (String sep EmptyString) elems.

(** Whether the byte [sep] occurs in [s]. *)
Fixpoint occurs (sep : ascii) (s : string) : bool :=
  match s with
  | EmptyString => false
  | String c rest => Ascii.eqb c sep || occurs sep rest
  end.

End Strings.

(** ** Package [telegram]: the raw command encoding *)

Module Telegram.

(** The ASCII Unit Separator, written ["\u001f"] in the sources. *)
Definition US : ascii := Ascii.ascii_of_nat 31.

(** [ParseHackernelCmd]: [None] stands for the run-time panic of an index
    out of range on [raw]. *)
Definition ParseHackernelCmd (cmd : string)
  : option (string * string * string) :=
  let raw := Strings.Split US cmd in
  match nth_error raw 0, nth_error raw 1, nth_error raw 2 with
  | Some workdir, Some exec, Some argv =>
      Some (workdir, exec,
            fold_left (fun argv r => (argv ++ (" " ++ r))%string)
                      (skipn 3 raw) argv)
  | _, _, _ => None
  end.

(** The encoding the kernel module uses for a command: working directory,
    binary and argument tokens joined by the separator. *)
Definition encode (workdir binary : string) (args : list string) : string :=
  Strings.Join (workdir :: binary :: args) US.

(** The argument tokens joined by single spaces. *)
Definition spaced (args : list string) : string := String.concat " " args.

End Telegram.

(** ** JSON documents, as package [encoding/json] decodes them *)

Module Json.

(** A JSON value.  [Int] is a number written as an integer literal, [Frac]
    any other number within the range of a [float64], [Huge] any other
    number beyond that range (such as [1e999]). *)
#[warnings="-register-all"]
Inductive value : Type :=
| Null
| Bool (b : bool)
| Int (z : Z)
| Frac
| Huge
| Str (s : string)
| Arr (elems : list value)
| Obj (fields : list (string * value)).

(** The text of a received message, by what it parses to: [None] when
    the package refuses it as not valid JSON. *)
Definition text : Type := option value.

(** The range of Go's [int] (64 bits). *)
Definition int_min : Z := - 2 ^ 63.
Definition int_max : Z := 2 ^ 63 - 1.
Definition in_int (z : Z) : bool := (int_min <=? z) && (z <=? int_max).

(** Addition on [int] wraps around. *)
Definition wrap (z : Z) : Z := (z - int_min) mod 2 ^ 64 + int_min.

(** The integers that [strconv.ParseFloat] reads as a finite [float64]:
    those that do not round to infinity. *)
Definition in_float64 (z : Z) : bool := Z.abs z <? 2 ^ 1024 - 2 ^ 970.

(** Whether every number of a value, at any depth, is within the range of
    a [float64]: decoding into an [interface{}] reads each number as a
    [float64] and reports the first that is not. *)
Fixpoint fits (v : value) : bool :=
  match v with
  | Int z => in_float64 z
  | Huge => false
  | Arr elems => forallb fits elems
  | Obj fields => forallb (fun member => fits (snd member)) fields
  | _ => true
  end.

(** Keys of an object are matched with the fields of a struct without
    regard to the case of ASCII letters. *)
Definition lower (c : ascii) : ascii :=
  let n := nat_of_ascii c in
  if (65 <=? n)%nat && (n <=? 90)%nat then ascii_of_nat (n + 32) else c.

Fixpoint fold (s : string) : string :=
  match s with
  | EmptyString => EmptyString
  | String c rest => String (lower c) (fold rest)
  end.

Definition names (key field : string) : bool := String.eqb (fold key) field.

(** A Go map built from an object keeps the last value of a repeated
    key; [get] is the map index expression [doc[key]]. *)
Fixpoint get (key : string) (fields : list (string * value)) : option value :=
  match fields with
  | [] => None
  | (k, v) :: rest =>
      match get key rest with
      | Some v' => Some v'
      | None => if String.eqb k key then Some v else None
      end
  end.

End Json.

(** ** What both workers share: errors, messages, effects *)

Module Agent.

(** The library calls that can fail, by the place of the call in the
    sources. *)
Inductive step : Type :=
| Open                          (* sql.Open *)
| ExecCreateTable | ExecCreateIndex | ConfigNew
| PrepareQuery | Query | Next (row : nat) | ScanRow (row : nat)
| PrepareUpdate | ExecUpdate | RowsAffected
| PrepareInsert | ExecInsert.

(** Which calls fail, chosen by the environment for one invocation. *)
Definition fault : Type := step -> bool.
Definition healthy : fault := fun _ => false.

Inductive error : Type :=
| ErrRecv | ErrJson | ErrSend | ErrShutdown | ErrConfig
| ErrStore (s : step)           (* a call on the store failed *)
| ErrNoTable                    (* prepare: no such table *)
| ErrConstraint.                (* insert: unique constraint violated *)

(** A message handed to [conn.Send] is a JSON object with string members;
    it is written by its members, in the order of the sources. *)
Definition message : Type := list (string * string).

(** The payload of [setTrustedCmd]. *)
Definition trusted (cmd : string) : message :=
  [("type", "user::proc::trusted::insert"); ("cmd", cmd)].

(** What a worker does to the outside, in order. *)
#[warnings="-register-all"]
Inductive effect : Type :=
| Send (m : message)            (* conn.Send *)
| LogError (e : error)          (* logrus.Error(err) *)
| LogText (s : string)          (* logrus.Error of a string *)
| Kill                          (* syscall.Kill(syscall.Getpid(), SIGINT) *)
| Sleep (ns : Z)                (* time.Sleep *)
| ConnShutdown                  (* conn.Shutdown *)
| Wait                          (* wg.Wait *)
| Done                          (* wg.Done *)
| Close                         (* conn.Close *)
| DogNew (ns : Z) (callback : list effect)   (* watchdog.New *)
| Kick.                         (* dog.Kick *)

(** [time.Second], in nanoseconds. *)
Definition Second : Z := 1000000000.

(** What [conn.Recv] returns. *)
Inductive received : Type :=
| RecvError
| Received (t : Json.text).

(** How a call ends: it returns its [err], or it panics. *)
Inductive outcome : Type :=
| Returns (err : option error)
| Panics.

(** How one turn of a receive loop ends. *)
Inductive control : Type :=
| Continue                      (* next iteration *)
| Break                         (* the loop is left *)
| Panic.                        (* a run-time panic *)

(** How a receive loop stands after the messages given to it. *)
Inductive phase : Type :=
| Receiving                     (* blocked in conn.Recv *)
| Exited                        (* the loop was left *)
| Panicked.

Definition is_trusted (cmd : string) (e : effect) : bool :=
  match e with
  | Send [(k1, v1); (k2, v2)] =>
      String.eqb k1 "type" && String.eqb v1 "user::proc::trusted::insert"
      && String.eqb k2 "cmd" && String.eqb v2 cmd
  | _ => false
  end.

Definition is_send (e : effect) : bool :=
  match e with Send _ => true | _ => false end.

Definition is_kill (e : effect) : bool :=
  match e with Kill => true | _ => false end.

(** How many trust insertions for [cmd] a trace holds. *)
Definition announced (cmd : string) (trace : list effect) : nat :=
  List.length (filter (is_trusted cmd) trace).

End Agent.

(** ** Package [judge]: the simpler worker *)

Module Judge.
Import Agent.

(** A row of table [judge]. *)
Record Row : Type := { id : Z; cmd : string; times : Z }.

Definition table : Type := list Row.

(** The database file [dbName]; [None] while table [judge] does not
    exist. *)
Definition database : Type := option table.

(** The key an [autoincrement] column gives to a new row. *)
Definition next_id (t : table) : Z :=
  1 + fold_right (fun r m => Z.max (id r) m) 0 t.

(** [create table if not exists judge(...)] *)
Definition sqlCreateProcessJudgeTable (d : database) : database :=
  match d with
  | None => Some []
  | Some t => Some t
  end.

(** [select id, times from judge where cmd=? limit 1] *)
Definition sqlQueryTimesByCmd (c : string) (t : table) : option (Z * Z) :=
  match find (fun r => String.eqb (cmd r) c) t with
  | Some r => Some (id r, times r)
  | None => None
  end.

(** [select cmd from judge where times >= ?] *)
Definition sqlQueryCmdByTimes (n : Z) (t : table) : list string :=
  map cmd (filter (fun r => n <=? times r) t).

(** [insert into judge(cmd) values(?)]; [times] takes its default 1. *)
Definition sqlInsertCmd (c : string) (t : table) : table :=
  t ++ [{| id := next_id t; cmd := c; times := 1 |}].

(** [update judge set times=? where id=?] *)
Definition sqlUpdateCmdTimes (n i : Z) (t : table) : table :=
  map (fun r => if id r =? i
                then {| id := id r; cmd := cmd r; times := n |}
                else r) t.

Record ProcessWorker : Type :=
  { running : bool;             (* shared with the control thread *)
    db : database;              (* the contents of [dbName] *)
    trace : list effect }.      (* what the worker has done so far *)

Definition emit (e : effect) (w : ProcessWorker) : ProcessWorker :=
  {| running := running w; db := db w; trace := trace w ++ [e] |}.

Definition store (d : database) (w : ProcessWorker) : ProcessWorker :=
  {| running := running w; db := d; trace := trace w |}.

Definition flag (b : bool) (w : ProcessWorker) : ProcessWorker :=
  {| running := b; db := db w; trace := trace w |}.

Definition initDB (f : fault) (w : ProcessWorker)
  : ProcessWorker * option error :=
  if f Open then (w, Some (ErrStore Open)) else
  if f ExecCreateTable then (w, Some (ErrStore ExecCreateTable)) else
  (store (sqlCreateProcessJudgeTable (db w)) w, None).

Definition updateCmdTimes (f : fault) (c : string) (w : ProcessWorker)
  : ProcessWorker * (Z * option error) :=
  if f Open then (w, (0, Some (ErrStore Open))) else
  match db w with
  | None => (w, (0, Some ErrNoTable))
  | Some t =>
      if f PrepareQuery then (w, (0, Some (ErrStore PrepareQuery))) else
      if f (ScanRow 0) then (w, (0, Some (ErrStore (ScanRow 0)))) else
      match sqlQueryTimesByCmd c t with
      | None =>                                   (* sql.ErrNoRows *)
          let n := 1 in
          if f PrepareInsert then (w, (n, Some (ErrStore PrepareInsert))) else
          if f ExecInsert then (w, (n, Some (ErrStore ExecInsert))) else
          (store (Some (sqlInsertCmd c t)) w, (n, None))
      | Some (i, n) =>
          let n := Json.wrap (n + 1) in
          if f PrepareUpdate then (w, (n, Some (ErrStore PrepareUpdate))) else
          if f ExecUpdate then (w, (n, Some (ErrStore ExecUpdate))) else
          (store (Some (sqlUpdateCmdTimes n i t)) w, (n, None))
      end
  end.

(** [json.Marshal] of a map of strings does not fail; the environment
    says whether [conn.Send] does. *)
Definition setTrustedCmd (send_fails : bool) (c : string) (w : ProcessWorker)
  : ProcessWorker * option error :=
  (emit (Send (trusted c)) w, if send_fails then Some ErrSend else None).

(** The [for rows.Next()] loop of [initTrustedCmd], at row [n]: a failure
    of [rows.Next] ends the loop and comes back from [rows.Err]. *)
Fixpoint replay (f : fault) (send_fails : nat -> bool) (n : nat)
    (rows : list string) (w : ProcessWorker) : ProcessWorker * option error :=
  if f (Next n) then (w, Some (ErrStore (Next n))) else
  match rows with
  | [] => (w, None)
  | c :: rest =>
      if f (ScanRow n) then (w, Some (ErrStore (ScanRow n))) else
      replay f send_fails (S n) rest (fst (setTrustedCmd (send_fails n) c w))
  end.

Definition initTrustedCmd (f : fault) (send_fails : nat -> bool)
    (w : ProcessWorker) : ProcessWorker * option error :=
  if f Open then (w, Some (ErrStore Open)) else
  match db w with
  | None => (w, Some ErrNoTable)
  | Some t =>
      if f PrepareQuery then (w, Some (ErrStore PrepareQuery)) else
      if f Query then (w, Some (ErrStore Query)) else
      replay f send_fails 0 (sqlQueryCmdByTimes 3 t) w
  end.

(** What the environment supplies for one turn of the loop of [run]. *)
Record turn : Type :=
  { stop_at_head : bool;        (* [Stop] cleared the flag before the
                                   loop condition is read *)
    recv : received;
    stop_in_recv : bool;        (* [Stop] cleared the flag while the loop
                                   was blocked in [conn.Recv] *)
    store_fault : fault;
    send_fails : bool }.

Definition clear (stop : bool) (w : ProcessWorker) : ProcessWorker :=
  if stop then flag false w else w.

(** [json.Unmarshal] into a [map[string]interface{}]: [null] leaves the
    map nil, anything but an object is an error, and so is an object that
    holds, at any depth, a number beyond the range of a [float64]. *)
Definition unmarshal (t : Json.text) : option (list (string * Json.value)) :=
  match t with
  | None => None
  | Some Json.Null => Some []
  | Some (Json.Obj fields) =>
      if Json.fits (Json.Obj fields) then Some fields else None
  | Some _ => None
  end.

(** The body of the loop, from [conn.Recv] on.  The type assertions
    [doc["type"].(string)] and [doc["cmd"].(string)] panic unless the
    member is there and is a string. *)
Definition body (x : turn) (w0 : ProcessWorker) : ProcessWorker * control :=
  let w := clear (stop_in_recv x) w0 in
  match recv x with
  | RecvError =>
      (if running w then emit (LogError ErrRecv) w else w, Continue)
  | Received t =>
      match unmarshal t with
      | None => (emit (LogError ErrJson) w, Continue)
      | Some doc =>
          match Json.get "type" doc with
          | Some (Json.Str ty) =>
              if negb (String.eqb ty "audit::proc::report")
              then (w, Continue)
              else
                match Json.get "cmd" doc with
                | Some (Json.Str c) =>
                    let '(w1, (n, err)) := updateCmdTimes (store_fault x) c w in
                    match err with
                    | Some e => (emit (LogError e) w1, Continue)
                    | None =>
                        if n <? 3 then (w1, Continue)
                        else
                          let '(w2, err) := setTrustedCmd (send_fails x) c w1 in
                          match err with
                          | Some e => (emit (LogError e) w2, Continue)
                          | None => (w2, Continue)
                          end
                    end
                | _ => (w, Panic)
                end
          | _ => (w, Panic)
          end
      end
  end.

(** The loop [for w.running { ... }] over the turns the environment
    supplies; when they are used up the loop is blocked in [conn.Recv]. *)
Fixpoint loop (xs : list turn) (w0 : ProcessWorker) : ProcessWorker * phase :=
  match xs with
  | [] => (w0, if running w0 then Receiving else Exited)
  | x :: rest =>
      let w := clear (stop_at_head x) w0 in
      if negb (running w) then (w, Exited)
      else
        match body x w with
        | (w', Continue) => loop rest w'
        | (w', Break) => (w', Exited)
        | (w', Panic) => (w', Panicked)
        end
  end.

Definition run (xs : list turn) (w : ProcessWorker) : ProcessWorker * phase :=
  match loop xs w with
  | (w', Exited) => (emit Done w', Exited)
  | other => other
  end.

(** What the calls of [Stop] on the connector return. *)
Record stopping : Type :=
  { unsub : option error;
    disable : option error;
    shutdown : option error }.

Definition Stop (env : stopping) (w0 : ProcessWorker)
  : ProcessWorker * option error :=
  let w1 := emit (Send [("type", "user::msg::unsub");
                        ("section", "audit::proc::report")]) w0 in
  match unsub env with
  | Some e => (w1, Some e)
  | None =>
      let w2 := emit (Send [("type", "user::proc::disable")]) w1 in
      match disable env with
      | Some e => (w2, Some e)
      | None =>
          let w3 := emit (Sleep Second) w2 in
          let w4 := flag false w3 in
          let w5 := emit ConnShutdown w4 in
          match shutdown env with
          | Some e => (w5, Some e)
          | None => (emit Close (emit Wait w5), None)
          end
      end
  end.

End Judge.

(** ** Package [background]: the richer worker *)

Module Background.
Import Agent.

(** A row of table [process]. *)
Record Row : Type :=
  { id : Z; cmd : string; workdir : string; binary : string; argv : string;
    count : Z; judge : Z; status : Z }.

Definition table : Type := list Row.

(** The database file [dbName]; [None] while table [process] does not
    exist. *)
Definition database : Type := option table.

Definition next_id (t : table) : Z :=
  1 + fold_right (fun r m => Z.max (id r) m) 0 t.

(** [create table if not exists process(...)] *)
Definition sqlCreateTable (d : database) : database :=
  match d with
  | None => Some []
  | Some t => Some t
  end.

(** [create unique index if not exists process_cmd_idx on process (cmd)]:
    the rows stay as they are. *)
Definition sqlCreateIndex (d : database) : database := d.

(** [update process set count=count+1,judge=? where cmd=?], with the
    number of rows it changed. *)
Definition sqlUpdateCount (j : Z) (c : string) (t : table) : table * Z :=
  (map (fun r => if String.eqb (cmd r) c
                 then {| id := id r; cmd := cmd r; workdir := workdir r;
                         binary := binary r; argv := argv r;
                         count := count r + 1; judge := j;
                         status := status r |}
                 else r) t,
   Z.of_nat (List.length (filter (fun r => String.eqb (cmd r) c) t))).

(** [insert into process(cmd,workdir,binary,argv,count,judge,status)
    values(?,?,?,?,1,?,0)]; column [cmd] is unique. *)
Definition sqlInsert (c wd bin av : string) (j : Z) (t : table)
  : table + error :=
  if existsb (fun r => String.eqb (cmd r) c) t then inr ErrConstraint
  else inl (t ++ [{| id := next_id t; cmd := c; workdir := wd;
                     binary := bin; argv := av;
                     count := 1; judge := j; status := 0 |}]).

(** [select cmd from process where status=2] *)
Definition sqlQueryStatusAllow (t : table) : list string :=
  map cmd (filter (fun r => status r =? 2) t).

Record ProcessWorker : Type :=
  { running : bool;             (* shared with the control thread *)
    db : database;              (* the contents of [dbName] *)
    trace : list effect }.      (* what the worker has done so far *)

Definition emit (e : effect) (w : ProcessWorker) : ProcessWorker :=
  {| running := running w; db := db w; trace := trace w ++ [e] |}.

Definition store (d : database) (w : ProcessWorker) : ProcessWorker :=
  {| running := running w; db := d; trace := trace w |}.

Definition flag (b : bool) (w : ProcessWorker) : ProcessWorker :=
  {| running := b; db := db w; trace := trace w |}.

Definition initDB (f : fault) (w : ProcessWorker)
  : ProcessWorker * option error :=
  if f Open then (w, Some (ErrStore Open)) else
  if f ExecCreateTable then (w, Some (ErrStore ExecCreateTable)) else
  let w1 := store (sqlCreateTable (db w)) w in
  if f ExecCreateIndex then (w1, Some (ErrStore ExecCreateIndex)) else
  let w2 := store (sqlCreateIndex (db w1)) w1 in
  if f ConfigNew then (w2, Some ErrConfig) else
  (w2, None).

Definition setTrustedCmd (send_fails : bool) (c : string) (w : ProcessWorker)
  : ProcessWorker * option error :=
  (emit (Send (trusted c)) w, if send_fails then Some ErrSend else None).

(** The [for rows.Next()] loop of [initTrustedCmd], at row [n]. *)
Fixpoint replay (f : fault) (send_fails : nat -> bool) (n : nat)
    (rows : list string) (w : ProcessWorker) : ProcessWorker * option error :=
  if f (Next n) then (w, Some (ErrStore (Next n))) else
  match rows with
  | [] => (w, None)
  | c :: rest =>
      if f (ScanRow n) then (w, Some (ErrStore (ScanRow n))) else
      replay f send_fails (S n) rest (fst (setTrustedCmd (send_fails n) c w))
  end.

Definition initTrustedCmd (f : fault) (send_fails : nat -> bool)
    (w : ProcessWorker) : ProcessWorker * option error :=
  if f Open then (w, Some (ErrStore Open)) else
  match db w with
  | None => (w, Some ErrNoTable)
  | Some t =>
      if f PrepareQuery then (w, Some (ErrStore PrepareQuery)) else
      if f Query then (w, Some (ErrStore Query)) else
      replay f send_fails 0 (sqlQueryStatusAllow t) w
  end.

(** The struct [event] of [run]. *)
Record Event : Type := { Type' : string; Cmd : string; Judge : Z }.

Definition zero : Event :=
  {| Type' := EmptyString; Cmd := EmptyString; Judge := 0 |}.

(** One member of the object, decoded into the field it names; the flag
    turns false at a value of the wrong type. *)
Definition assign (acc : Event * bool) (member : string * Json.value)
  : Event * bool :=
  let '(ev, ok) := acc in
  let '(k, v) := member in
  if Json.names k "type" then
    match v with
    | Json.Str s => ({| Type' := s; Cmd := Cmd ev; Judge := Judge ev |}, ok)
    | Json.Null => (ev, ok)
    | _ => (ev, false)
    end
  else if Json.names k "cmd" then
    match v with
    | Json.Str s => ({| Type' := Type' ev; Cmd := s; Judge := Judge ev |}, ok)
    | Json.Null => (ev, ok)
    | _ => (ev, false)
    end
  else if Json.names k "judge" then
    match v with
    | Json.Int z =>
        if Json.in_int z
        then ({| Type' := Type' ev; Cmd := Cmd ev; Judge := z |}, ok)
        else (ev, false)
    | Json.Null => (ev, ok)
    | _ => (ev, false)
    end
  else (ev, ok).

(** [json.Unmarshal] into the struct: [None] when it returns an error. *)
Definition unmarshal (t : Json.text) : option Event :=
  match t with
  | None => None
  | Some Json.Null => Some zero
  | Some (Json.Obj fields) =>
      let '(ev, ok) := fold_left assign fields (zero, true) in
      if ok then Some ev else None
  | Some _ => None
  end.

(** What the environment supplies for one turn of the loop of [run]. *)
Record turn : Type :=
  { stop_at_head : bool;        (* [Stop] cleared the flag before the
                                   loop condition is read *)
    recv : received;
    stop_in_recv : bool;        (* [Stop] cleared the flag while the loop
                                   was blocked in [conn.Recv] *)
    store_fault : fault }.

Definition clear (stop : bool) (w : ProcessWorker) : ProcessWorker :=
  if stop then flag false w else w.

(** The callback given to [watchdog.New]. *)
Definition callback : list effect :=
  [LogText "osinfo::report timeout"; Kill].

(** What the calls of [Stop] return. *)
Record stopping : Type :=
  { unsub_audit : option error;
    unsub_osinfo : option error;
    core_status : Z * option error;     (* config.GetInteger *)
    disable : option error;
    shutdown : option error }.

Section Worker.

(** [process.SplitCmd], of package [uranus/pkg/process]; [None] stands
    for a panic. *)
Variable SplitCmd : string -> option (string * string * string).

(** [status.ProcessCoreEnable], of package [uranus/pkg/status]. *)
Variable ProcessCoreEnable : Z.

Definition updateCmd (f : fault) (c : string) (j : Z) (w : ProcessWorker)
  : ProcessWorker * outcome :=
  if f Open then (w, Returns (Some (ErrStore Open))) else
  match db w with
  | None => (w, Returns (Some ErrNoTable))
  | Some t =>
      if f PrepareUpdate then (w, Returns (Some (ErrStore PrepareUpdate))) else
      if f ExecUpdate then (w, Returns (Some (ErrStore ExecUpdate))) else
      let '(t1, affected) := sqlUpdateCount j c t in
      let w1 := store (Some t1) w in
      if f RowsAffected then (w1, Returns (Some (ErrStore RowsAffected))) else
      if negb (affected =? 0) then (w1, Returns None) else
      if f PrepareInsert then (w1, Returns (Some (ErrStore PrepareInsert))) else
      match SplitCmd c with
      | None => (w1, Panics)
      | Some (wd, bin, av) =>
          if f ExecInsert then (w1, Returns (Some (ErrStore ExecInsert))) else
          match sqlInsert c wd bin av j t1 with
          | inr e => (w1, Returns (Some e))
          | inl t2 => (store (Some t2) w1, Returns None)
          end
      end
  end.

(** The body of the loop, from [conn.Recv] on. *)
Definition body (x : turn) (w0 : ProcessWorker) : ProcessWorker * control :=
  let w := clear (stop_in_recv x) w0 in
  if negb (running w) then (w, Break)
  else
    match recv x with
    | RecvError => (emit Kill (emit (LogError ErrRecv) w), Continue)
    | Received t =>
        match unmarshal t with
        | None => (emit Kill (emit (LogError ErrJson) w), Continue)
        | Some event =>
            if String.eqb (Type' event) "audit::proc::report" then
              match updateCmd (store_fault x) (Cmd event) (Judge event) w with
              | (w1, Returns (Some e)) =>
                  (emit Kill (emit (LogError e) w1), Continue)
              | (w1, Returns None) => (w1, Continue)
              | (w1, Panics) => (w1, Panic)
              end
            else if String.eqb (Type' event) "osinfo::report" then
              (emit Kick w, Continue)
            else (w, Continue)
        end
    end.

Fixpoint loop (xs : list turn) (w0 : ProcessWorker) : ProcessWorker * phase :=
  match xs with
  | [] => (w0, if running w0 then Receiving else Exited)
  | x :: rest =>
      let w := clear (stop_at_head x) w0 in
      if negb (running w) then (w, Exited)
      else
        match body x w with
        | (w', Continue) => loop rest w'
        | (w', Break) => (w', Exited)
        | (w', Panic) => (w', Panicked)
        end
  end.

(** [run]: the deferred [wg.Done] runs however the loop is left. *)
Definition run (xs : list turn) (w : ProcessWorker) : ProcessWorker * phase :=
  match loop xs (emit (DogNew (10 * Second) callback) w) with
  | (w', Receiving) => (w', Receiving)
  | (w', s) => (emit Done w', s)
  end.

Definition Stop (env : stopping) (w0 : ProcessWorker)
  : ProcessWorker * option error :=
  let w1 := emit (Send [("type", "user::msg::unsub");
                        ("section", "audit::proc::report")]) w0 in
  match unsub_audit env with
  | Some e => (w1, Some e)
  | None =>
      let w2 := emit (Send [("type", "user::msg::unsub");
                            ("section", "osinfo::report")]) w1 in
      match unsub_osinfo env with
      | Some e => (w2, Some e)
      | None =>
          let '(coreStatus, err) := core_status env in
          let enabled :=
            match err with
            | None => coreStatus =? ProcessCoreEnable
            | Some _ => false
            end in
          let w3 := if enabled
                    then emit (Send [("type", "user::proc::disable")]) w2
                    else w2 in
          match (if enabled then disable env else None) with
          | Some e => (w3, Some e)
          | None =>
              let w4 := emit (Sleep Second) w3 in
              let w5 := flag false w4 in
              let w6 := emit ConnShutdown w5 in
              match shutdown env with
              | Some e => (w6, Some e)
              | None => (emit Close (emit Wait w6), None)
              end
          end
      end
  end.

End Worker.

End Background.

(** ** Package [watchdog] *)

Module Watchdog.
Import Agent.

(** Modelled from the spec: package [uranus/pkg/watchdog] is not among the
    sources.  A watchdog has a fixed interval and is armed with a deadline
    or not armed; times are in nanoseconds. *)
Record Watchdog : Type := { interval : Z; deadline : option Z }.

(** Modelled from the spec: [watchdog.New] arms the watchdog, the deadline
    one interval after the time of the call. *)
Definition New (ns now : Z) : Watchdog :=
  {| interval := ns; deadline := Some (now + ns) |}.

(** Modelled from the spec: [Kick] resets the deadline to one interval
    after the time of the kick. *)
Definition Kick (now : Z) (d : Watchdog) : Watchdog :=
  {| interval := interval d; deadline := Some (now + interval d) |}.

(** Modelled from the spec: when the time reaches the deadline of an armed
    watchdog the callback fires and the watchdog is left unarmed. *)
Definition expire (now : Z) (d : Watchdog) : Watchdog * bool :=
  match deadline d with
  | Some t =>
      if t <=? now then ({| interval := interval d; deadline := None |}, true)
      else (d, false)
  | None => (d, false)
  end.

(** Modelled from the spec: the watchdog of a process, over what the
    process does and when.  The time passes from step to step, and an armed
    watchdog whose deadline is reached runs its callback; then
    [watchdog.New] arms a watchdog with its callback, and [Kick] kicks the
    one there is.  The result is what the callback has done by the time
    [until]. *)
Fixpoint supervise (dog : option (Watchdog * list effect))
    (steps : list (Z * effect)) (until : Z) : list effect :=
  match steps with
  | [] =>
      match dog with
      | Some (d, callback) => if snd (expire until d) then callback else []
      | None => []
      end
  | (now, e) :: rest =>
      let '(dog1, out) :=
        match dog with
        | Some (d, callback) =>
            (Some (fst (expire now d), callback),
             if snd (expire now d) then callback else [])
        | None => (None, [])
        end in
      let dog2 :=
        match e with
        | DogNew ns callback => Some (New ns now, callback)
        | Agent.Kick =>
            match dog1 with
            | Some (d, callback) => Some (Kick now d, callback)
            | None => None
            end
        | _ => dog1
        end in
      out ++ supervise dog2 rest until
  end.

Definition kills (out : list effect) : nat :=
  List.length (filter is_kill out).

End Watchdog.

(** ** The receive loop and its watchdog, over time *)

Module Liveness.
Import Agent.

Section Process.

Variable SplitCmd : string -> option (string * string * string).

(** The trace of [run] over the turns taken so far. *)
Definition so_far (taken : list Background.turn)
    (w : Background.ProcessWorker) : list effect :=
  Background.trace (fst (Background.run SplitCmd taken w)).

(** What the turns still to come add to the trace, each step with the time
    of its turn, the time at which its [conn.Recv] returns. *)
Fixpoint stamps (taken : list Background.turn)
    (coming : list (Z * Background.turn)) (w : Background.ProcessWorker)
  : list (Z * effect) :=
  match coming with
  | [] => []
  | (now, x) :: rest =>
      map (pair now)
          (skipn (List.length (so_far taken w)) (so_far (taken ++ [x]) w))
      ++ stamps (taken ++ [x]) rest w
  end.

(** What [run], started at the time [start], does and when: what it does
    before the first message at [start], and what a turn adds to the trace
    at the time of the turn. *)
Definition timeline (start : Z) (xs : list (Z * Background.turn))
    (w : Background.ProcessWorker) : list (Z * effect) :=
  map (pair start) (skipn (List.length (Background.trace w)) (so_far [] w))
  ++ stamps [] xs w.

(** What the callback of the watchdog of [run] has done by the time
    [until]. *)
Definition alarms (start until : Z) (xs : list (Z * Background.turn))
    (w : Background.ProcessWorker) : list effect :=
  Watchdog.supervise None (timeline start xs w) until.

End Process.

End Liveness.

(** ** Package [user]: the session middleware *)

Module User.

Record User : Type :=
  { UserID : Z; Username : string; AliasName : string;
    Permissions : list string }.

(** What the middleware reads of a request. *)
Record Request : Type :=
  { Method : string; Path : string; Cookies : list (string * string) }.

(** [http.MethodGet], [http.StatusUnauthorized], [http.StatusForbidden] *)
Definition MethodGet : string := "GET".
Definition StatusUnauthorized : Z := 401.
Definition StatusForbidden : Z := 403.

(** [loggedUser], the cache of sessions, most recently used first. *)
Definition Cache : Type := list (string * User).

(** [loggedUser.Get]: a hit moves the entry to the front. *)
Definition Get (key : string) (c : Cache) : Cache * option User :=
  match find (fun e => String.eqb (fst e) key) c with
  | Some e =>
      (e :: filter (fun e' => negb (String.eqb (fst e') key)) c, Some (snd e))
  | None => (c, None)
  end.

(** [context.Cookie]: the value of the first cookie of that name. *)
Definition Cookie (name : string) (r : Request) : option string :=
  match find (fun e => String.eqb (fst e) name) (Cookies r) with
  | Some e => Some (snd e)
  | None => None
  end.

(** What the middleware consults, in order. *)
Inductive access : Type :=
| CookieLookup (name : string)
| CacheGet (key : string)
| GlobCompile (pattern : string)
| GlobMatch (pattern path : string).

(** How the middleware ends: [context.Next] or
    [context.AbortWithStatus]. *)
Inductive verdict : Type :=
| Next
| Abort (code : Z).

Section Glob.

(** [glob.Compile], of [github.com/gobwas/glob]; [None] when the
    pattern does not compile, else the matcher. *)
Variable Compile : string -> option (string -> bool).

(** The loop over [user.(User).Permissions]. *)
Fixpoint permitted (perms : list string) (path : string)
  : list access * verdict :=
  match perms with
  | [] => ([], Abort StatusForbidden)
  | p :: rest =>
      match Compile p with
      | None =>
          let '(log, v) := permitted rest path in (GlobCompile p :: log, v)
      | Some g =>
          if g path then ([GlobCompile p; GlobMatch p path], Next)
          else
            let '(log, v) := permitted rest path in
            (GlobCompile p :: GlobMatch p path :: log, v)
      end
  end.

Definition Middleware (r : Request) (c : Cache)
  : Cache * list access * verdict :=
  if String.eqb (Method r) MethodGet then (c, [], Next)
  else if String.eqb (Path r) "/user/login" then (c, [], Next)
  else
    match Cookie "session" r with
    | None => (c, [CookieLookup "session"], Abort StatusUnauthorized)
    | Some session =>
        match Get session c with
        | (c', None) =>
            (c', [CookieLookup "session"; CacheGet session],
             Abort StatusUnauthorized)
        | (c', Some user) =>
            let '(log, v) := permitted (Permissions user) (Path r) in
            (c', CookieLookup "session" :: CacheGet session :: log, v)
        end
    end.

End Glob.

End User.

(** ** Inputs used by the statements *)

Module Scenario.
Import Agent.

(** The document of an [audit::proc::report]. *)
Definition report (r : string * Z) : Json.text :=
  Some (Json.Obj [("type", Json.Str "audit::proc::report");
                  ("cmd", Json.Str (fst r));
                  ("judge", Json.Int (snd r))]).

(** The document of an [osinfo::report]. *)
Definition heartbeat : Json.text :=
  Some (Json.Obj [("type", Json.Str "osinfo::report")]).

(** A turn of the simpler worker in which a message arrives, [Stop] has
    not been called and no call fails. *)
Definition judged (t : Json.text) : Judge.turn :=
  {| Judge.stop_at_head := false; Judge.recv := Received t;
     Judge.stop_in_recv := false; Judge.store_fault := healthy;
     Judge.send_fails := false |}.

(** The same for the richer worker. *)
Definition heard (t : Json.text) : Background.turn :=
  {| Background.stop_at_head := false; Background.recv := Received t;
     Background.stop_in_recv := false; Background.store_fault := healthy |}.

(** A worker of each kind that has just started on an empty table. *)
Definition judge0 : Judge.ProcessWorker :=
  {| Judge.running := true; Judge.db := Some []; Judge.trace := [] |}.

Definition background0 : Background.ProcessWorker :=
  {| Background.running := true; Background.db := Some [];
     Background.trace := [] |}.

(** The command of the end-to-end scenario of the specification. *)
Definition ls : string :=
  Telegram.encode "/home" "/bin/ls" ["-la"].

(** Another command. *)
Definition sh : string :=
  Telegram.encode "/" "/bin/sh" ["sh"].

(** How often command [c] is reported in [rs]. *)
Definition reports_of (c : string) (rs : list (string * Z)) : nat :=
  List.length (filter (fun r => String.eqb (fst r) c) rs).

(** The judgment of the last report of [c] in [rs]. *)
Definition last_judgment (c : string) (rs : list (string * Z)) : option Z :=
  match rev (filter (fun r => String.eqb (fst r) c) rs) with
  | r :: _ => Some (snd r)
  | [] => None
  end.

End Scenario.

(** ** Predicates used by the statements *)

Module Spec.
Import Agent.

(** A string that does not hold the separator byte. *)
Definition clean (s : string) : Prop := Strings.occurs Telegram.US s = false.

(** What a shutdown has done when it returns an error: the effects [did]
    hold neither the join nor the close; and either the error is the one of
    the connector shutdown, met after the flag was cleared, or the flag is
    as it was and the connector shutdown was not reached. *)
Definition cut_short (did : list effect) (from_shutdown : Prop)
    (before after : bool) : Prop :=
  ~ In Wait did /\ ~ In Close did
  /\ ((In ConnShutdown did /\ from_shutdown /\ after = false)
      \/ (~ In ConnShutdown did /\ after = before)).

(** What a shutdown without error has done: messages sent, the grace
    period, the connector shutdown, the join and the close. *)
Definition completed (did : list effect) (after : bool) : Prop :=
  after = false
  /\ exists sends, forallb is_send sends = true
     /\ did = sends ++ [Sleep Second; ConnShutdown; Wait; Close].

(** The trust insertions for a list of commands, one each, in order. *)
Definition insertions (cmds : list string) : list effect :=
  map (fun c => Send (trusted c)) cmds.

(** A record whose status is [trusted], code 2. *)
Definition is_trusted_row (r : Background.Row) : bool :=
  Background.status r =? 2.

(** Each command keys at most one record. *)
Definition unique (d : Background.database) : Prop :=
  match d with
  | Some t => NoDup (map Background.cmd t)
  | None => True
  end.

(** Record [r'] is record [r] after some reports: every column but the
    count and the judgment is the same, and the count is not less. *)
Definition grown (r r' : Background.Row) : Prop :=
  Background.id r' = Background.id r
  /\ Background.cmd r' = Background.cmd r
  /\ Background.workdir r' = Background.workdir r
  /\ Background.binary r' = Background.binary r
  /\ Background.argv r' = Background.argv r
  /\ Background.status r' = Background.status r
  /\ Background.count r <= Background.count r'.

(** The same for an update for command [c]: in addition a record of
    another command is not changed at all. *)
Definition updated (c : string) (r r' : Background.Row) : Prop :=
  grown r r' /\ (Background.cmd r <> c -> r' = r).

(** No record is deleted: store [d'] holds the records of [d] in their
    places, each grown, and then maybe new ones. *)
Definition kept (d d' : Background.database) : Prop :=
  match d with
  | None => True
  | Some t =>
      exists t' added, d' = Some (t' ++ added) /\ Forall2 grown t t'
  end.

(** The operations of the agent on its store. *)
Inductive operation : Type :=
| Init (f : fault)                                 (* initDB *)
| Update (f : fault) (c : string) (j : Z)          (* updateCmd *)
| Replay (f : fault) (send_fails : nat -> bool).   (* initTrustedCmd *)

Definition perform (split : string -> option (string * string * string))
    (o : operation) (w : Background.ProcessWorker) : Background.ProcessWorker :=
  match o with
  | Init f => fst (Background.initDB f w)
  | Update f c j => fst (Background.updateCmd split f c j w)
  | Replay f sf => fst (Background.initTrustedCmd f sf w)
  end.

Definition known (c : string) (t : Background.table) : bool :=
  existsb (fun r => String.eqb (Background.cmd r) c) t.

(** The records of table [t] for command [c]. *)
Definition records (c : string) (t : Background.table) : list Background.Row :=
  filter (fun r => String.eqb (Background.cmd r) c) t.

(** The turns of the richer worker for a sequence of reports, each arriving
    while the agent runs and the store works. *)
Definition hearing (rs : list (string * Z)) : list Background.turn :=
  map (fun r => Scenario.heard (Scenario.report r)) rs.

(** The same for the simpler worker. *)
Definition judging (rs : list (string * Z)) : list Judge.turn :=
  map (fun r => Scenario.judged (Scenario.report r)) rs.

(** A report the richer worker can take in: its judgment fits an [int] and
    [split], the function given for [process.SplitCmd], does not panic on
    its command. *)
Definition sound (split : string -> option (string * string * string))
    (r : string * Z) : Prop :=
  split (fst r) <> None /\ Json.in_int (snd r) = true.

(** The table after a report the store takes in without failure: the count
    of the record of the command goes up and its judgment is set, or, when
    the command has no record, one is added at the end. *)
Definition recorded (split : string -> option (string * string * string))
    (t : Background.table) (r : string * Z) : Background.table :=
  let t1 := fst (Background.sqlUpdateCount (snd r) (fst r) t) in
  if known (fst r) t then t1
  else
    match split (fst r) with
    | Some (wd, bin, av) =>
        t1 ++ [{| Background.id := Background.next_id t1;
                  Background.cmd := fst r; Background.workdir := wd;
                  Background.binary := bin; Background.argv := av;
                  Background.count := 1; Background.judge := snd r;
                  Background.status := 0 |}]
    | None => t1
    end.

(** The count the simpler worker holds for command [c]: the one of the
    first row of the command, 0 when there is none. *)
Definition times_of (c : string) (t : Judge.table) : Z :=
  match find (fun r => String.eqb (Judge.cmd r) c) t with
  | Some r => Judge.times r
  | None => 0
  end.

(** The table of the simpler worker after a report the store takes in
    without failure, with the count it returns. *)
Definition counted (t : Judge.table) (c : string) : Judge.table * Z :=
  match Judge.sqlQueryTimesByCmd c t with
  | None => (Judge.sqlInsertCmd c t, 1)
  | Some (i, n) =>
      (Judge.sqlUpdateCmdTimes (Json.wrap (n + 1)) i t, Json.wrap (n + 1))
  end.

(** The rows of the table of the simpler worker for command [c]. *)
Definition rows (c : string) (t : Judge.table) : list Judge.Row :=
  filter (fun r => String.eqb (Judge.cmd r) c) t.

(** The table of the simpler worker after a sequence of reports. *)
Definition counted_all (t : Judge.table) (rs : list (string * Z))
  : Judge.table :=
  fold_left (fun t' r => fst (counted t' (fst r))) rs t.

(** Command [c] has no row in the table of the simpler worker. *)
Definition unseen (c : string) (t : Judge.table) : Prop :=
  find (fun r => String.eqb (Judge.cmd r) c) t = None.

(** The messages sent in a trace. *)
Definition sent (trace : list effect) : list effect := filter is_send trace.

(** A message of the kernel module: a heartbeat, or the report of a
    command with its judgment. *)
Inductive inbound : Type :=
| Beat
| Report (r : string * Z).

Definition document (m : inbound) : Json.text :=
  match m with
  | Beat => Scenario.heartbeat
  | Report r => Scenario.report r
  end.

(** The turns of the richer worker for messages that arrive at the times
    given, while the agent runs and the store works. *)
Definition arriving (ms : list (Z * inbound)) : list (Z * Background.turn) :=
  map (fun m => (fst m, Scenario.heard (document (snd m)))) ms.

(** The times of the heartbeats among the messages. *)
Fixpoint beats (ms : list (Z * inbound)) : list Z :=
  match ms with
  | [] => []
  | (t, Beat) :: rest => t :: beats rest
  | (_, Report _) :: rest => beats rest
  end.

(** A message the richer worker takes in: a heartbeat, or a report that is
    [sound]. *)
Definition taken_in (split : string -> option (string * string * string))
    (m : Z * inbound) : Prop :=
  match snd m with
  | Beat => True
  | Report r => sound split r
  end.

(** How often a watchdog of interval [ns] has fired by the time [until],
    when it was armed or kicked last at the time [last] and is then kicked
    at the times [kicks]: once for each wait of a full interval, before a
    kick or before [until]. *)
Fixpoint silences (ns last : Z) (kicks : list Z) (until : Z) : nat :=
  match kicks with
  | [] => if last + ns <=? until then 1%nat else 0%nat
  | t :: rest =>
      let fired := if last + ns <=? t then 1%nat else 0%nat in
      (fired + silences ns t rest until)%nat
  end.

(** Every kick comes before the deadline that the arming or the kick
    before it has set. *)
Fixpoint punctual (ns last : Z) (kicks : list Z) : Prop :=
  match kicks with
  | [] => True
  | t :: rest => t < last + ns /\ punctual ns t rest
  end.

Definition is_kick (e : effect) : bool :=
  match e with Kick => true | _ => false end.

Definition is_arming (e : effect) : bool :=
  match e with DogNew _ _ => true | _ => false end.

(** A turn in which a heartbeat is received: the message decodes and its
    type is [osinfo::report]. *)
Definition is_beat (x : Background.turn) : bool :=
  match Background.recv x with
  | Received t =>
      match Background.unmarshal t with
      | Some event => String.eqb (Background.Type' event) "osinfo::report"
      | None => false
      end
  | RecvError => false
  end.

(** The first error among the results of a sequence of calls. *)
Fixpoint first_error (results : list (option error)) : option error :=
  match results with
  | [] => None
  | Some e :: _ => Some e
  | None :: rest => first_error rest
  end.

(** Of a sequence of calls, each with its result, those that are made when
    the sequence is left at the first error: the calls up to the first that
    fails, this one included. *)
Fixpoint attempted (calls : list (effect * option error)) : list effect :=
  match calls with
  | [] => []
  | (call, Some _) :: _ => [call]
  | (call, None) :: rest => call :: attempted rest
  end.

(** The calls on the connector that return an error: the sends and the
    shutdown. *)
Definition fallible (e : effect) : bool :=
  match e with
  | Send _ | ConnShutdown => true
  | _ => false
  end.

(** Whether the configuration read at shutdown says that the protection is
    enabled: the key was read without error and holds [enable]. *)
Definition protecting (enable : Z) (env : Background.stopping) : bool :=
  match Background.core_status env with
  | (coreStatus, None) => coreStatus =? enable
  | (_, Some _) => false
  end.

(** The calls on the connector that a shutdown of the richer worker is to
    make, in order, each with what the environment returns for it. *)
Definition background_shutdown (enable : Z) (env : Background.stopping)
  : list (effect * option error) :=
  [(Send [("type", "user::msg::unsub"); ("section", "audit::proc::report")],
    Background.unsub_audit env);
   (Send [("type", "user::msg::unsub"); ("section", "osinfo::report")],
    Background.unsub_osinfo env)]
  ++ (if protecting enable env
      then [(Send [("type", "user::proc::disable")], Background.disable env)]
      else [])
  ++ [(ConnShutdown, Background.shutdown env)].

(** The same for the simpler worker. *)
Definition judge_shutdown (env : Judge.stopping)
  : list (effect * option error) :=
  [(Send [("type", "user::msg::unsub"); ("section", "audit::proc::report")],
    Judge.unsub env);
   (Send [("type", "user::proc::disable")], Judge.disable env);
   (ConnShutdown, Judge.shutdown env)].

End Spec.

(** ** Starting the workers *)

Module JudgeStart.
Import Agent.

(** [NewProcessWorker], given the contents of the file [dbName]. *)
Definition NewProcessWorker (d : Judge.database) : Judge.ProcessWorker :=
  {| Judge.running := false; Judge.db := d; Judge.trace := [] |}.

(** What the calls of [Start] return. *)
Record starting : Type :=
  { connect : option error;             (* conn.Connect *)
    init_fault : fault;                 (* inside initDB *)
    enable : option error;              (* conn.Send, user::proc::enable *)
    sub : option error;                 (* conn.Send, user::msg::sub *)
    replay_fault : fault;               (* inside initTrustedCmd *)
    replay_sends : nat -> bool }.

(** [Start]: the worker, the error returned, and whether [go w.run()] was
    reached. *)
Definition Start (env : starting) (w0 : Judge.ProcessWorker)
  : Judge.ProcessWorker * option error * bool :=
  let w1 := Judge.flag true w0 in
  match connect env with
  | Some e => (w1, Some e, false)
  | None =>
      match Judge.initDB (init_fault env) w1 with
      | (w2, Some e) => (w2, Some e, false)
      | (w2, None) =>
          let w3 := Judge.emit (Send [("type", "user::proc::enable")]) w2 in
          match enable env with
          | Some e => (w3, Some e, false)
          | None =>
              let w4 := Judge.emit (Send [("type", "user::msg::sub");
                                          ("section", "audit::proc::report")])
                          w3 in
              match sub env with
              | Some e => (w4, Some e, false)
              | None =>
                  match Judge.initTrustedCmd (replay_fault env)
                          (replay_sends env) w4 with
                  | (w5, Some e) => (w5, Some e, false)
                  | (w5, None) => (w5, None, true)
                  end
              end
          end
      end
  end.

End JudgeStart.

Module BackgroundStart.
Import Agent.

(** [NewProcessWorker], given the contents of the file [dbName]. *)
Definition NewProcessWorker (d : Background.database)
  : Background.ProcessWorker :=
  {| Background.running := false; Background.db := d;
     Background.trace := [] |}.

(** What the calls of [Start] return. *)
Record starting : Type :=
  { connect : option error;             (* conn.Connect *)
    init_fault : fault;                 (* inside initDB *)
    core_status : Z * option error;     (* config.GetInteger *)
    enable : option error;              (* conn.Send, user::proc::enable *)
    sub_audit : option error;           (* conn.Send, user::msg::sub *)
    sub_osinfo : option error;
    replay_fault : fault;               (* inside initTrustedCmd *)
    replay_sends : nat -> bool }.

(** The test [err == nil && coreStatus == status.ProcessCoreEnable]. *)
Definition enabled (ProcessCoreEnable : Z) (reading : Z * option error)
  : bool :=
  match snd reading with
  | None => fst reading =? ProcessCoreEnable
  | Some _ => false
  end.

(** [Start]: the worker, the error returned, and whether [go w.run()] was
    reached. *)
Definition Start (ProcessCoreEnable : Z) (env : starting)
    (w0 : Background.ProcessWorker)
  : Background.ProcessWorker * option error * bool :=
  let w1 := Background.flag true w0 in
  match connect env with
  | Some e => (w1, Some e, false)
  | None =>
      match Background.initDB (init_fault env) w1 with
      | (w2, Some e) => (w2, Some e, false)
      | (w2, None) =>
          let on := enabled ProcessCoreEnable (core_status env) in
          let w3 := if on
                    then Background.emit
                           (Send [("type", "user::proc::enable")]) w2
                    else w2 in
          match (if on then enable env else None) with
          | Some e => (w3, Some e, false)
          | None =>
              let w4 := Background.emit
                          (Send [("type", "user::msg::sub");
                                 ("section", "audit::proc::report")]) w3 in
              match sub_audit env with
              | Some e => (w4, Some e, false)
              | None =>
                  let w5 := Background.emit
                              (Send [("type", "user::msg::sub");
                                     ("section", "osinfo::report")]) w4 in
                  match sub_osinfo env with
                  | Some e => (w5, Some e, false)
                  | None =>
                      match Background.initTrustedCmd (replay_fault env)
                              (replay_sends env) w5 with
                      | (w6, Some e) => (w6, Some e, false)
                      | (w6, None) => (w6, None, true)
                      end
                  end
              end
          end
      end
  end.

End BackgroundStart.

(** ** Package [telegram]: the renderers *)

Module Render.

(** A line feed. *)
Definition nl : string := String (Ascii.ascii_of_nat 10) EmptyString.

(** What [json.Unmarshal] leaves in the map [doc] when its error is not
    looked at: the members of an object, and nothing for any other text. *)
Definition document (t : Json.text) : list (string * Json.value) :=
  match t with
  | Some (Json.Obj fields) => fields
  | _ => []
  end.

(** [doc[key].(string)]; [None] stands for the panic of the assertion. *)
Definition text_of (doc : list (string * Json.value)) (key : string)
  : option string :=
  match Json.get key doc with
  | Some (Json.Str s) => Some s
  | _ => None
  end.

(** The integers that, read as a [float64], are finite. *)
Definition fits_float (z : Z) : bool := Z.abs z <? 2 ^ 1024 - 2 ^ 970.

Section Numbers.

(** For the number of the document that is not written as an integer:
    whether, as a [float64], it equals the small integer given; [None] when
    it fits no [float64], so that the member is nil. *)
Variable frac_equals : Z -> option bool.

(** [doc[key].(float64) == k], for [k] 0 or 1; [None] stands for the panic
    of the assertion. *)
Definition number_equals (doc : list (string * Json.value)) (key : string)
    (k : Z) : option bool :=
  match Json.get key doc with
  | Some (Json.Int z) => if fits_float z then Some (z =? k) else None
  | Some Json.Frac => frac_equals k
  | _ => None
  end.

(** The line of the state, shared by the renderers. *)
Definition state (ok : bool) : string :=
  "状态: " ++ (if ok then "<u>成功</u>" ++ nl else "<u>失败</u>" ++ nl).

(** [fmt.Sprintf] of the format [<u>%s</u>] and two line feeds. *)
Definition underlined (s : string) : string :=
  "<u>" ++ s ++ "</u>" ++ nl ++ nl.

Definition RenderAuditProcReport (text : Json.text) : option string :=
  let doc := document text in
  match text_of doc "type" with
  | None => None
  | Some ty =>
      if negb (String.eqb ty "audit::proc::report") then Some EmptyString
      else
        match number_equals doc "judge" 1 with
        | None => None
        | Some ok =>
            match text_of doc "cmd" with
            | None => None
            | Some cmd =>
                match Telegram.ParseHackernelCmd cmd with
                | None => None
                | Some (workdir, exec, argv) =>
                    Some ("<b>进程审计</b>" ++ nl ++ nl
                          ++ "工作目录: " ++ underlined workdir
                          ++ "可执行程序: " ++ underlined exec
                          ++ "参数列表: " ++ underlined argv
                          ++ state ok)%string
                end
            end
        end
  end.

(** The body shared by [RenderUserMsgSub] and [RenderUserMsgUnsub]. *)
Definition subscription (kind title : string) (text : Json.text)
  : option string :=
  let doc := document text in
  match text_of doc "type" with
  | None => None
  | Some ty =>
      if negb (String.eqb ty kind) then Some EmptyString
      else
        match number_equals doc "code" 0 with
        | None => None
        | Some ok =>
            match text_of doc "section" with
            | None => None
            | Some section =>
                Some (title ++ nl ++ nl
                      ++ "字段: " ++ underlined section
                      ++ state ok)%string
            end
        end
  end.

Definition RenderUserMsgSub : Json.text -> option string :=
  subscription "user::msg::sub" "<b>消息订阅</b>".

Definition RenderUserMsgUnsub : Json.text -> option string :=
  subscription "user::msg::unsub" "<b>消息退订</b>".

(** The body shared by [RenderKernelProcEnable] and
    [RenderKernelProcDisable]. *)
Definition protection (kind title : string) (text : Json.text)
  : option string :=
  let doc := document text in
  match text_of doc "type" with
  | None => None
  | Some ty =>
      if negb (String.eqb ty kind) then Some EmptyString
      else
        match number_equals doc "code" 0 with
        | None => None
        | Some ok => Some (title ++ nl ++ nl ++ state ok)%string
        end
  end.

Definition RenderKernelProcEnable : Json.text -> option string :=
  protection "kernel::proc::enable" "<b>开启进程保护</b>".

Definition RenderKernelProcDisable : Json.text -> option string :=
  protection "kernel::proc::disable" "<b>关闭进程保护</b>".

(** The five renderers. *)
Definition renderers : list (Json.text -> option string) :=
  [RenderAuditProcReport; RenderUserMsgSub; RenderUserMsgUnsub;
   RenderKernelProcEnable; RenderKernelProcDisable].

End Numbers.

End Render.

(** ** Package [user]: sessions and their handlers *)

Module Session.

(** The size given to [lru.New] in [Init]. *)
Definition size : nat := 10.

(** [Init], for the cache: [lru.New(10)]. *)
Definition Init : User.Cache := [].

(** [loggedUser.Add]: a key already there takes the new value and moves to
    the front; a new key goes to the front, and when the cache then holds
    more than its size the oldest entry is removed. *)
Definition Add (key : string) (u : User.User) (c : User.Cache) : User.Cache :=
  if existsb (fun e => String.eqb (fst e) key) c
  then (key, u) :: filter (fun e => negb (String.eqb (fst e) key)) c
  else
    let c' := (key, u) :: c in
    if (size <? List.length c')%nat then removelast c' else c'.

(** [loggedUser.Remove] *)
Definition Remove (key : string) (c : User.Cache) : User.Cache :=
  filter (fun e => negb (String.eqb (fst e) key)) c.

(** What a handler answers: the status, the user written as JSON if any,
    and the value and the maximal age of the cookie [session] if one is
    set. *)
Record Response : Type :=
  { code : Z; body : option User.User; cookie : option (string * Z) }.

(** [http.StatusOK], [http.StatusBadRequest] *)
Definition StatusOK : Z := 200.
Definition StatusBadRequest : Z := 400.

(** The user [userLogin] answers with. *)
Definition root : User.User :=
  {| User.UserID := 0; User.Username := "root"; User.AliasName := "root";
     User.Permissions := ["*"] |}.

(** [userLogin]: [bind] is what [context.BindJSON] finds in the request,
    the user name and the password, or [None] when it returns an error;
    [session] is what [uuid.NewString] returns. *)
Definition userLogin (bind : option (string * string)) (session : string)
    (c : User.Cache) : User.Cache * Response :=
  match bind with
  | None =>
      (c, {| code := StatusBadRequest; body := None; cookie := None |})
  | Some _ =>
      (Add session root c,
       {| code := StatusOK; body := Some root; cookie := Some (session, 0) |})
  end.

(** [userAlive] *)
Definition userAlive (c : User.Cache) : User.Cache * Response :=
  (c, {| code := StatusOK; body := None; cookie := None |}).

(** [userInfo] *)
Definition userInfo (r : User.Request) (c : User.Cache)
  : User.Cache * Response :=
  match User.Cookie "session" r with
  | None =>
      (c, {| code := User.StatusUnauthorized; body := None; cookie := None |})
  | Some session =>
      match User.Get session c with
      | (c', None) =>
          (c', {| code := User.StatusUnauthorized; body := None;
                  cookie := None |})
      | (c', Some current) =>
          (c', {| code := StatusOK; body := Some current;
                  cookie := Some (session, 0) |})
      end
  end.

(** [userLogout]: without a cookie the session is the empty string. *)
Definition userLogout (r : User.Request) (c : User.Cache)
  : User.Cache * Response :=
  let session := match User.Cookie "session" r with
                 | Some s => s
                 | None => EmptyString
                 end in
  (Remove session c,
   {| code := StatusOK; body := None; cookie := Some (session, -1) |}).

End Session.

(** ** Package [user]: the table of users *)

Module Accounts.

(** The library calls of a function that can fail; each function makes
    each of them once at most. *)
Inductive call : Type :=
| Open | Prepare | Exec | Scan | RowsAffected.

Definition fault : Type := call -> bool.
Definition healthy : fault := fun _ => false.

Inductive failure : Type :=
| Failed (c : call)             (* a call failed *)
| NoTable                       (* prepare: no such table *)
| NoRows                        (* sql.ErrNoRows *)
| Constraint.                   (* a unique constraint violated *)

(** A row of table [user]. *)
Record Row : Type :=
  { id : Z; username : string; salt : string; password : string;
    alias : string; permissions : string }.

Definition table : Type := list Row.

(** The database file [dbName]; [None] while table [user] does not exist. *)
Definition database : Type := option table.

Definition next_id (t : table) : Z :=
  1 + fold_right (fun r m => Z.max (id r) m) 0 t.

(** [create table if not exists user(...)] *)
Definition sqlCreateUserTable (d : database) : database :=
  match d with
  | None => Some []
  | Some t => Some t
  end.

(** [insert into user(username, salt, password, alias, permissions)
    values(?,?,?,?,?)]; column [username] is unique. *)
Definition sqlInsertUser (u s p a perms : string) (t : table)
  : table + failure :=
  if existsb (fun r => String.eqb (username r) u) t then inr Constraint
  else inl (t ++ [{| id := next_id t; username := u; salt := s;
                     password := p; alias := a; permissions := perms |}]).

(** The statement [sqlQueryUserCount], which counts the rows of [user]. *)
Definition sqlQueryUserCount (t : table) : Z := Z.of_nat (List.length t).

(** [select salt, password from user where username=?], its first row. *)
Definition sqlQueryPasswordByUsername (u : string) (t : table)
  : option (string * string) :=
  match find (fun r => String.eqb (username r) u) t with
  | Some r => Some (salt r, password r)
  | None => None
  end.

(** [update user set username=?, salt=?, password=?, alias=?,
    permissions=? where id=?], with the number of rows changed; the
    statement fails, and changes nothing, when it would give one user name
    to two rows. *)
Definition sqlUpdateUser (u s p a perms : string) (i : Z) (t : table)
  : table * Z + failure :=
  match filter (fun r => id r =? i) t with
  | [] => inl (t, 0)
  | hit =>
      if existsb (fun r => negb (id r =? i) && String.eqb (username r) u) t
         || (1 <? List.length hit)%nat
      then inr Constraint
      else inl (map (fun r => if id r =? i
                              then {| id := id r; username := u; salt := s;
                                      password := p; alias := a;
                                      permissions := perms |}
                              else r) t, 1)
  end.

(** [delete from user where id=?], with the number of rows deleted. *)
Definition sqlDeleteUser (i : Z) (t : table) : table * Z :=
  (filter (fun r => negb (id r =? i)) t,
   Z.of_nat (List.length (filter (fun r => id r =? i) t))).

Definition initUserTable (f : fault) (d : database)
  : database * option failure :=
  if f Open then (d, Some (Failed Open)) else
  if f Exec then (d, Some (Failed Exec)) else
  (sqlCreateUserTable d, None).

Definition noUser (f : fault) (d : database) : bool :=
  if f Open then false else
  match d with
  | None => false
  | Some t =>
      if f Prepare then false else
      if f Scan then false else
      sqlQueryUserCount t =? 0
  end.

Section Hash.

(** [hex.EncodeToString] of [sha256.Sum256]. *)
Variable Sum256 : string -> string.

(** [createUser]; [s] is what [uuid.NewString] returns for the salt. *)
Definition createUser (f : fault) (s u p a perms : string) (d : database)
  : database * option failure :=
  let hash := Sum256 (s ++ p) in
  if f Open then (d, Some (Failed Open)) else
  match d with
  | None => (d, Some NoTable)
  | Some t =>
      if f Prepare then (d, Some (Failed Prepare)) else
      if f Exec then (d, Some (Failed Exec)) else
      match sqlInsertUser u s hash a perms t with
      | inr e => (d, Some e)
      | inl t' => (Some t', None)
      end
  end.

Definition checkUserPassword (f : fault) (u p : string) (d : database)
  : bool * option failure :=
  if f Open then (false, Some (Failed Open)) else
  match d with
  | None => (false, Some NoTable)
  | Some t =>
      if f Prepare then (false, Some (Failed Prepare)) else
      if f Scan then (false, Some (Failed Scan)) else
      match sqlQueryPasswordByUsername u t with
      | None => (false, Some NoRows)
      | Some (s, hash) => (String.eqb hash (Sum256 (s ++ p)), None)
      end
  end.

(** [updateUserInfo]; [s] is what [uuid.NewString] returns for the salt. *)
Definition updateUserInfo (f : fault) (s : string) (i : Z)
    (u p a perms : string) (d : database) : database * bool :=
  if f Open then (d, false) else
  match d with
  | None => (d, false)
  | Some t =>
      if f Prepare then (d, false) else
      let hash := Sum256 (s ++ p) in
      if f Exec then (d, false) else
      match sqlUpdateUser u s hash a perms i t with
      | inr _ => (d, false)
      | inl (t', affected) =>
          if f RowsAffected then (Some t', false)
          else (Some t', affected =? 1)
      end
  end.

End Hash.

Definition deleteUser (f : fault) (i : Z) (d : database) : database * bool :=
  if f Open then (d, false) else
  match d with
  | None => (d, false)
  | Some t =>
      if f Prepare then (d, false) else
      if f Exec then (d, false) else
      let '(t', affected) := sqlDeleteUser i t in
      if f RowsAffected then (Some t', false)
      else (Some t', affected =? 1)
  end.

(** The user names of a store, in order. *)
Definition names (d : database) : list string :=
  match d with
  | Some t => map username t
  | None => []
  end.

(** The ids of a store, in order. *)
Definition ids (d : database) : list Z :=
  match d with
  | Some t => map id t
  | None => []
  end.

End Accounts.

(** ** Package [net]: the table of network policies *)

Module Policies.

(** The library calls that can fail, by the place of the call in the
    sources; [Next] and [Scan] are those of the row given. *)
Inductive call : Type :=
| Prepare | Exec | LastInsertId | Query | Next (row : nat) | Scan (row : nat).

Definition fault : Type := call -> bool.
Definition healthy : fault := fun _ => false.

Inductive failure : Type :=
| Failed (c : call).

Section Columns.

(** The thirteen columns of a policy other than its id: the priority, the
    ranges of addresses, protocols and ports, the flags and the response.
    Type [net.Policy] is declared in package [uranus/pkg/net]. *)
Variable columns : Type.

(** [net.Policy], as far as these functions use it. *)
Record Policy : Type := { ID : Z; rest : columns }.

(** The rows of table [net_policy], in the order a query yields them. *)
Definition table : Type := list Policy.

(** What a function returns besides its results: the errors it has handed
    to [logrus.Error]. *)
Definition logged : Type := list failure.

(** The rows [limit ? offset ?] selects: a negative offset counts as zero,
    a negative limit as no limit. *)
Definition page (limit offset : Z) (t : table) : table :=
  let after := skipn (Z.to_nat offset) t in
  if limit <? 0 then after else firstn (Z.to_nat limit) after.

(** [insertNetPolicy]; [fresh] is the id SQLite gives the new row, which
    is greater than the ids of the table. *)
Definition insertNetPolicy (f : fault) (fresh : Z) (policy : Policy)
    (t : table) : table * (Z * option failure) * logged :=
  if f Prepare then (t, (0, Some (Failed Prepare)), [Failed Prepare]) else
  if f Exec then (t, (0, Some (Failed Exec)), [Failed Exec]) else
  let t' := t ++ [{| ID := fresh; rest := rest policy |}] in
  if f LastInsertId
  then (t', (0, Some (Failed LastInsertId)), [Failed LastInsertId])
  else (t', (fresh, None), []).

(** [deleteNetPolicyById] *)
Definition deleteNetPolicyById (f : fault) (id : Z) (t : table)
  : table * option failure * logged :=
  if f Prepare then (t, Some (Failed Prepare), [Failed Prepare]) else
  if f Exec then (t, Some (Failed Exec), [Failed Exec]) else
  (filter (fun r => negb (ID r =? id)) t, None, []).

(** The [for rows.Next()] loop of [queryNetPolicyLimitOffset], at row [n]
    with the policies gathered so far: a failure of [rows.Next] ends the
    loop and comes back from [rows.Err]. *)
Fixpoint gather (f : fault) (n : nat) (rows : table) (policies : list Policy)
  : list Policy * option failure * logged :=
  if f (Next n) then (policies, Some (Failed (Next n)), [Failed (Next n)])
  else
    match rows with
    | [] => (policies, None, [])
    | r :: rows' =>
        if f (Scan n)
        then (policies, Some (Failed (Scan n)), [Failed (Scan n)])
        else gather f (S n) rows' (policies ++ [r])
    end.

(** [queryNetPolicyLimitOffset] *)
Definition queryNetPolicyLimitOffset (f : fault) (limit offset : Z)
    (t : table) : list Policy * option failure * logged :=
  if f Prepare then ([], Some (Failed Prepare), [Failed Prepare]) else
  if f Query then ([], Some (Failed Query), [Failed Query]) else
  gather f 0 (page limit offset t) [].

(** The policies a query has returned. *)
Definition found (r : list Policy * option failure * logged) : list Policy :=
  fst (fst r).

(** The pages of [n] rows a caller reads one after the other, [m] of
    them. *)
Definition pages (f : fault) (n : Z) (m : nat) (t : table)
  : list (list Policy) :=
  map (fun k => found (queryNetPolicyLimitOffset f n (Z.of_nat k * n) t))
    (seq 0 m).

End Columns.

End Policies.

(** ** Further predicates *)

Module More.
Import Agent.

(** The effects a step has added to a trace. *)
Definition is_log_error (e : effect) : bool :=
  match e with LogError _ => true | _ => false end.

(** The commands of the rows of the simpler worker, in order. *)
Definition commands (d : Judge.database) : list string :=
  match d with
  | Some t => map Judge.cmd t
  | None => []
  end.

(** The ids of the rows of the simpler worker, in order. *)
Definition keys (d : Judge.database) : list Z :=
  match d with
  | Some t => map Judge.id t
  | None => []
  end.

(** The commands the richer worker replays at its next start. *)
Definition replayed (d : Background.database) : list string :=
  match d with
  | Some t => Background.sqlQueryStatusAllow t
  | None => []
  end.

(** The table a start leaves: the one found, or an empty one. *)
Definition created (d : Background.database) : Background.table :=
  match d with
  | Some t => t
  | None => []
  end.

(** An environment in which no call of [Start] fails. *)
Definition smooth (env : BackgroundStart.starting) : Prop :=
  BackgroundStart.connect env = None
  /\ (forall s, BackgroundStart.init_fault env s = false)
  /\ BackgroundStart.enable env = None
  /\ BackgroundStart.sub_audit env = None
  /\ BackgroundStart.sub_osinfo env = None
  /\ (forall s, BackgroundStart.replay_fault env s = false).

(** What a step of the simpler worker may do to its table and trace:
    commands are only added at the end, distinct commands and distinct ids
    stay distinct, and every message sent is the trust insertion of a
    command the table then holds. *)
Definition steady (w w' : Judge.ProcessWorker) : Prop :=
  (exists added, commands (Judge.db w') = commands (Judge.db w) ++ added)
  /\ (NoDup (commands (Judge.db w)) -> NoDup (commands (Judge.db w')))
  /\ (NoDup (keys (Judge.db w)) -> NoDup (keys (Judge.db w')))
  /\ exists more,
      Judge.trace w' = Judge.trace w ++ more
      /\ forall m, In (Send m) more ->
                   exists c, m = trusted c /\ In c (commands (Judge.db w')).

(** How often the separator byte occurs in a string. *)
Fixpoint separators (s : string) : nat :=
  match s with
  | EmptyString => 0%nat
  | String c rest =>
      ((if Ascii.eqb c Telegram.US then 1 else 0) + separators rest)%nat
  end.

(** A renderer has written something. *)
Definition wrote (r : option string) : bool :=
  match r with
  | Some EmptyString => false
  | _ => true
  end.

(** Whether permission [p] compiles to a pattern that matches [path]. *)
Definition matches (Compile : string -> option (string -> bool))
    (path p : string) : bool :=
  match Compile p with
  | Some g => g path
  | None => false
  end.

(** The user a session stands for in the cache, if any. *)
Definition logged (session : string) (c : User.Cache) : option User.User :=
  snd (User.Get session c).

(** A cache within its size and with one entry for a key at most. *)
Definition tidy (c : User.Cache) : Prop :=
  (List.length c <= Session.size)%nat /\ NoDup (map fst c).

(** A request that the middleware checks. *)
Definition checked (r : User.Request) : Prop :=
  User.Method r <> User.MethodGet /\ User.Path r <> "/user/login".

(** The cache after the logins with the sessions given, in order. *)
Definition logins (sessions : list string) (c : User.Cache) : User.Cache :=
  fold_left (fun c' s => fst (Session.userLogin (Some (s, s)) s c'))
    sessions c.

End More.

(* ================================================================= *)
(** * Part II: lemmas and theorems *)
(* ================================================================= *)

Import Agent Spec.

(** ** Splitting and joining *)

Section SplitJoin.

Variable sep : ascii.

Lemma Split_nonempty (s : string) : Strings.Split sep s <> [].
Proof.
  destruct s as [|c s]; simpl; [discriminate|].
  destruct (Ascii.eqb c sep); [discriminate|].
  destruct (Strings.Split sep s); discriminate.
Qed.

Lemma Split_clean (s : string) :
  Strings.occurs sep s = false -> Strings.Split sep s = [s].
Proof.
  induction s as [|c s IH]; simpl; intros H; [reflexivity|].
  apply orb_false_iff in H as [Hc Hs].
  rewrite Hc, (IH Hs). reflexivity.
Qed.

Lemma Split_app (s t : string) :
  Strings.occurs sep s = false ->
  Strings.Split sep (s ++ String sep t)%string = s :: Strings.Split sep t.
Proof.
  induction s as [|c s IH]; simpl; intros H.
  - rewrite Ascii.eqb_refl. reflexivity.
  - apply orb_false_iff in H as [Hc Hs].
    rewrite Hc, (IH Hs). reflexivity.
Qed.

Lemma Split_Join (x : string) (l : list string) :
  Forall (fun s => Strings.occurs sep s = false) (x :: l) ->
  Strings.Split sep (Strings.Join (x :: l) sep) = x :: l.
Proof.
  unfold Strings.Join. revert x.
  induction l as [|y l IH]; intros x H.
  - simpl. apply Split_clean. now inversion H.
  - inversion H as [|? ? Hx Hl]; subst.
    change (String.concat (String sep EmptyString) (x :: y :: l))
      with (x ++ String sep (String.concat (String sep EmptyString) (y :: l)))%string.
    rewrite Split_app by assumption.
    now rewrite IH.
Qed.

End SplitJoin.

Lemma append_assoc (a b c : string) :
  ((a ++ b) ++ c = a ++ (b ++ c))%string.
Proof. induction a as [|x a IH]; simpl; [reflexivity | now rewrite IH]. Qed.

Lemma spaced_fold (a : string) (l : list string) :
  fold_left (fun argv r => (argv ++ (" " ++ r))%string) l a
  = Telegram.spaced (a :: l).
Proof.
  unfold Telegram.spaced. revert a.
  induction l as [|b l IH]; intros a; simpl.
  - reflexivity.
  - rewrite IH. simpl.
    destruct l as [|c l]; simpl.
    + reflexivity.
    + now rewrite append_assoc.
Qed.


(** C8, as the specification states it, fails on the code in two ways: with
    no argument token the split has two pieces only and reading the third
    panics; and a component that itself holds the separator byte is cut at
    it. *)
Lemma C8_roundtrip_counterexample :
  Telegram.ParseHackernelCmd (Telegram.encode "/home" "/bin/ls" []) = None
  /\ Telegram.ParseHackernelCmd
       (Telegram.encode (String Telegram.US "home") "/bin/ls" ["-la"])
     <> Some (String Telegram.US "home", "/bin/ls", Telegram.spaced ["-la"]).
Proof. split; [reflexivity | discriminate]. Qed.

(** C8 (amended): for a working directory, a binary and one or more argument
    tokens, none of which holds the separator byte 0x1F, splitting the joined
    command gives back the working directory, the binary, and the argument
    tokens joined by single spaces. *)
Theorem C8_roundtrip (workdir binary arg : string) (args : list string) :
  Forall clean (workdir :: binary :: arg :: args) ->
  Telegram.ParseHackernelCmd (Telegram.encode workdir binary (arg :: args))
  = Some (workdir, binary, Telegram.spaced (arg :: args)).
Proof.
  intros H. unfold Telegram.ParseHackernelCmd, Telegram.encode.
  rewrite Split_Join by exact H.
  cbn [nth_error skipn]. now rewrite spaced_fold.
Qed.

Lemma C8_roundtrip_witness :
  Telegram.ParseHackernelCmd
    (Telegram.encode "/home" "/bin/ls" ["ls"; "-la"; "/tmp"])
  = Some ("/home", "/bin/ls", "ls -la /tmp").
Proof.
  apply (C8_roundtrip "/home" "/bin/ls" "ls" ["-la"; "/tmp"]).
  repeat constructor.
Defined.

(** ** The session middleware *)

Section Session.

Variable Compile : string -> option (string -> bool).

(** C10: a GET request passes the session middleware with no cookie
    lookup, no cache lookup and no glob check; whenever the middleware
    consults anything the request is neither a GET nor for the login
    path, and every such request has its session cookie looked up. *)
Theorem C10_get_passes_unchecked (r : User.Request) (c : User.Cache) :
  (User.Method r = User.MethodGet ->
   User.Middleware Compile r c = (c, [], User.Next))
  /\ (snd (fst (User.Middleware Compile r c)) <> [] ->
      User.Method r <> User.MethodGet /\ User.Path r <> "/user/login")
  /\ (User.Method r <> User.MethodGet -> User.Path r <> "/user/login" ->
      exists log, snd (fst (User.Middleware Compile r c))
                  = User.CookieLookup "session" :: log).
Proof.
  unfold User.Middleware. split; [|split].
  - intros ->. reflexivity.
  - intros H. split.
    + intros Hm. rewrite Hm in H. now apply H.
    + intros Hp. rewrite Hp in H.
      destruct (String.eqb (User.Method r) User.MethodGet); now apply H.
  - intros Hm Hp.
    apply String.eqb_neq in Hm, Hp. rewrite Hm, Hp.
    destruct (User.Cookie "session" r) as [session|]; [|now eexists].
    destruct (User.Get session c) as [c' [user|]]; [|now eexists].
    destruct (User.permitted Compile (User.Permissions user) (User.Path r)).
    now eexists.
Qed.

End Session.

Lemma C10_get_passes_unchecked_witness :
  User.Middleware (fun _ => None)
    {| User.Method := "GET"; User.Path := "/user/info"; User.Cookies := [] |} []
  = ([], [], User.Next).
Proof.
  apply (C10_get_passes_unchecked (fun _ => None)
           {| User.Method := "GET"; User.Path := "/user/info";
              User.Cookies := [] |} []).
  reflexivity.
Defined.

(** ** Shutdown *)


Ltac trace_app :=
  cbn [Background.emit Background.flag Background.trace Background.running
       Judge.emit Judge.flag Judge.trace Judge.running];
  rewrite <- ?app_assoc; cbn [app].

Ltac not_in := cbn [In]; intuition discriminate.

(** C5, as the specification states it, fails on the code: when the first
    unsubscribe send fails, the richer worker returns at once with the flag
    still set and neither join nor close done; the simpler worker does the
    same. *)
Lemma C5_shutdown_counterexample :
  let env := {| Background.unsub_audit := Some ErrSend;
                Background.unsub_osinfo := None;
                Background.core_status := (1, None);
                Background.disable := None;
                Background.shutdown := None |} in
  let env' := {| Judge.unsub := Some ErrSend; Judge.disable := None;
                 Judge.shutdown := None |} in
  Background.Stop 1 env Scenario.background0
  = ({| Background.running := true; Background.db := Some [];
        Background.trace := [Send [("type", "user::msg::unsub");
                                   ("section", "audit::proc::report")]] |},
     Some ErrSend)
  /\ Judge.Stop env' Scenario.judge0
     = ({| Judge.running := true; Judge.db := Some [];
           Judge.trace := [Send [("type", "user::msg::unsub");
                                 ("section", "audit::proc::report")]] |},
        Some ErrSend).
Proof. split; reflexivity. Qed.

(** C5 (amended): in both workers [Stop] returns the first error of an
    unsubscribe send, of the disable send or of the connector shutdown to
    its caller and skips every later step: of the calls on the connector it
    makes those up to the one that fails and no other, the loop is not
    joined and the connector is not closed, and unless the error is the one
    of the connector shutdown the running flag is not cleared either.  A
    [Stop] that meets no error returns none, and clears the flag, signals
    the connector, joins the loop and closes the connector, in this
    order. *)
Theorem C5_shutdown_stops_at_first_error :
  (forall enable env w,
      let calls := background_shutdown enable env in
      let w' := fst (Background.Stop enable env w) in
      let err := snd (Background.Stop enable env w) in
      err = first_error (map snd calls)
      /\ exists did,
          Background.trace w' = Background.trace w ++ did
          /\ filter fallible did = attempted calls
          /\ match err with
             | Some e =>
                 cut_short did (Background.shutdown env = Some e)
                   (Background.running w) (Background.running w')
             | None => completed did (Background.running w')
             end)
  /\ (forall env w,
      let calls := judge_shutdown env in
      let w' := fst (Judge.Stop env w) in
      let err := snd (Judge.Stop env w) in
      err = first_error (map snd calls)
      /\ exists did,
          Judge.trace w' = Judge.trace w ++ did
          /\ filter fallible did = attempted calls
          /\ match err with
             | Some e =>
                 cut_short did (Judge.shutdown env = Some e)
                   (Judge.running w) (Judge.running w')
             | None => completed did (Judge.running w')
             end).
Proof.
  unfold cut_short, completed. split.
  - intros enable [ua uo [cs ce] di sh] w.
    unfold Background.Stop, background_shutdown, protecting.
    cbn [Background.unsub_audit Background.unsub_osinfo Background.core_status
         Background.disable Background.shutdown].
    destruct ua as [e1|];
      [split; [reflexivity|]; eexists; cbn [fst snd]; trace_app;
       split; [reflexivity|]; split; [reflexivity | not_in]|].
    destruct uo as [e2|];
      [split; [reflexivity|]; eexists; cbn [fst snd]; trace_app;
       split; [reflexivity|]; split; [reflexivity | not_in]|].
    destruct ce as [e0|]; [|destruct (cs =? enable)].
    + destruct sh as [e4|]; (split; [reflexivity|]); eexists; cbn [fst snd]; trace_app;
        (split; [reflexivity|]); (split; [reflexivity|]); [not_in|].
      split; [reflexivity|].
      exists [Send [("type", "user::msg::unsub");
                    ("section", "audit::proc::report")];
              Send [("type", "user::msg::unsub");
                    ("section", "osinfo::report")]].
      split; reflexivity.
    + destruct di as [e3|];
        [split; [reflexivity|]; eexists; cbn [fst snd]; trace_app;
         split; [reflexivity|]; split; [reflexivity | not_in]|].
      destruct sh as [e4|]; (split; [reflexivity|]); eexists; cbn [fst snd]; trace_app;
        (split; [reflexivity|]); (split; [reflexivity|]); [not_in|].
      split; [reflexivity|].
      exists [Send [("type", "user::msg::unsub");
                    ("section", "audit::proc::report")];
              Send [("type", "user::msg::unsub");
                    ("section", "osinfo::report")];
              Send [("type", "user::proc::disable")]].
      split; reflexivity.
    + destruct sh as [e4|]; (split; [reflexivity|]); eexists; cbn [fst snd]; trace_app;
        (split; [reflexivity|]); (split; [reflexivity|]); [not_in|].
      split; [reflexivity|].
      exists [Send [("type", "user::msg::unsub");
                    ("section", "audit::proc::report")];
              Send [("type", "user::msg::unsub");
                    ("section", "osinfo::report")]].
      split; reflexivity.
  - intros [us di sh] w. unfold Judge.Stop, judge_shutdown.
    cbn [Judge.unsub Judge.disable Judge.shutdown].
    destruct us as [e1|];
      [split; [reflexivity|]; eexists; cbn [fst snd]; trace_app;
       split; [reflexivity|]; split; [reflexivity | not_in]|].
    destruct di as [e3|];
      [split; [reflexivity|]; eexists; cbn [fst snd]; trace_app;
       split; [reflexivity|]; split; [reflexivity | not_in]|].
    destruct sh as [e4|]; (split; [reflexivity|]); eexists; cbn [fst snd]; trace_app;
      (split; [reflexivity|]); (split; [reflexivity|]); [not_in|].
    split; [reflexivity|].
    exists [Send [("type", "user::msg::unsub");
                  ("section", "audit::proc::report")];
            Send [("type", "user::proc::disable")]].
    split; reflexivity.
Qed.

(** ** The receive loops, one turn at a time *)

Lemma Judge_updateCmdTimes_frame (f : fault) (c : string)
    (w : Judge.ProcessWorker) :
  Judge.trace (fst (Judge.updateCmdTimes f c w)) = Judge.trace w
  /\ Judge.running (fst (Judge.updateCmdTimes f c w)) = Judge.running w.
Proof.
  unfold Judge.updateCmdTimes.
  destruct (f Open); [now split|].
  destruct (Judge.db w) as [t|]; [|now split].
  destruct (f PrepareQuery); [now split|].
  destruct (f (ScanRow 0)); [now split|].
  destruct (Judge.sqlQueryTimesByCmd c t) as [[i n]|].
  - destruct (f PrepareUpdate); [now split|].
    destruct (f ExecUpdate); now split.
  - destruct (f PrepareInsert); [now split|].
    destruct (f ExecInsert); now split.
Qed.

Section Richer.

Variable SplitCmd : string -> option (string * string * string).

Lemma Background_updateCmd_frame (f : fault) (c : string) (j : Z)
    (w : Background.ProcessWorker) :
  Background.trace (fst (Background.updateCmd SplitCmd f c j w))
  = Background.trace w
  /\ Background.running (fst (Background.updateCmd SplitCmd f c j w))
     = Background.running w.
Proof.
  unfold Background.updateCmd.
  destruct (f Open); [now split|].
  destruct (Background.db w) as [t|]; [|now split].
  destruct (f PrepareUpdate); [now split|].
  destruct (f ExecUpdate); [now split|].
  destruct (Background.sqlUpdateCount j c t) as [t1 affected].
  destruct (f RowsAffected); [now split|].
  destruct (negb (affected =? 0)); [now split|].
  destruct (f PrepareInsert); [now split|].
  destruct (SplitCmd c) as [[[wd bin] av]|]; [|now split].
  destruct (f ExecInsert); [now split|].
  destruct (Background.sqlInsert c wd bin av j t1); now split.
Qed.

(** A member that names no field of the struct leaves the field [Type']
    as it is. *)
Lemma assign_untyped (fields : list (string * Json.value))
    (acc : Background.Event * bool) :
  Forall (fun m => Json.names (fst m) "type" = false) fields ->
  Background.Type' (fst (fold_left Background.assign fields acc))
  = Background.Type' (fst acc).
Proof.
  revert acc. induction fields as [|[k v] fields IH]; intros acc H.
  - reflexivity.
  - inversion H as [|? ? Hk Hrest]; subst. cbn [fold_left].
    rewrite IH by assumption.
    destruct acc as [ev ok]. unfold Background.assign.
    cbn [fst] in Hk |- *. rewrite Hk.
    destruct (Json.names k "cmd"); [destruct v; reflexivity|].
    destruct (Json.names k "judge"); [|reflexivity].
    destruct v; try reflexivity.
    destruct (Json.in_int z); reflexivity.
Qed.

Lemma unmarshal_untyped (fields : list (string * Json.value))
    (ev : Background.Event) :
  Forall (fun m => Json.names (fst m) "type" = false) fields ->
  Background.unmarshal (Some (Json.Obj fields)) = Some ev ->
  Background.Type' ev = EmptyString.
Proof.
  intros H. unfold Background.unmarshal.
  pose proof (assign_untyped fields (Background.zero, true) H) as Ht.
  destruct (fold_left Background.assign fields (Background.zero, true))
    as [ev' ok].
  destruct ok; [|discriminate]. intros [= <-]. exact Ht.
Qed.

End Richer.

(** C2, as the specification states it, fails on the code: on a payload
    that is not valid JSON the richer worker logs the error and then asks
    for the termination of the process; and in the simpler worker a
    document without a [type] member makes the loop panic. *)
Lemma C2_malformed_counterexample :
  Background.body Telegram.ParseHackernelCmd (Scenario.heard None)
    Scenario.background0
  = ({| Background.running := true; Background.db := Some [];
        Background.trace := [LogError ErrJson; Kill] |}, Continue)
  /\ Judge.body
       (Scenario.judged (Some (Json.Obj [("cmd", Json.Str Scenario.ls)])))
       Scenario.judge0
     = (Scenario.judge0, Panic).
Proof. split; reflexivity. Qed.

(** C2 (amended): on a payload that does not decode, the simpler worker logs
    the error, drops the message without asking for the termination of the
    process and goes on with the next message; the richer worker logs the
    error, asks for the termination of the process and goes on with the next
    message.  In the richer worker an object that decodes but has no [type]
    member is dropped with no log and no termination request. *)
Theorem C2_malformed_payload :
  (forall x w t rest,
      Judge.recv x = Received t -> Judge.unmarshal t = None ->
      Judge.stop_at_head x = false -> Judge.stop_in_recv x = false ->
      Judge.running w = true ->
      Judge.body x w = (Judge.emit (LogError ErrJson) w, Continue)
      /\ Judge.loop (x :: rest) w
         = Judge.loop rest (Judge.emit (LogError ErrJson) w))
  /\ (forall split x w t rest,
      Background.recv x = Received t -> Background.unmarshal t = None ->
      Background.stop_at_head x = false ->
      Background.stop_in_recv x = false ->
      Background.running w = true ->
      Background.body split x w
      = (Background.emit Kill (Background.emit (LogError ErrJson) w), Continue)
      /\ Background.loop split (x :: rest) w
         = Background.loop split rest
             (Background.emit Kill (Background.emit (LogError ErrJson) w)))
  /\ (forall split x w fields ev rest,
      Background.recv x = Received (Some (Json.Obj fields)) ->
      Forall (fun m => Json.names (fst m) "type" = false) fields ->
      Background.unmarshal (Some (Json.Obj fields)) = Some ev ->
      Background.stop_at_head x = false ->
      Background.stop_in_recv x = false ->
      Background.running w = true ->
      Background.body split x w = (w, Continue)
      /\ Background.loop split (x :: rest) w = Background.loop split rest w).
Proof.
  split; [|split].
  - intros x w t rest Hr Hu Hh Hi Hw.
    assert (Hb : Judge.body x w = (Judge.emit (LogError ErrJson) w, Continue)).
    { unfold Judge.body. rewrite Hi, Hr, Hu. reflexivity. }
    split; [exact Hb|].
    cbn [Judge.loop]. rewrite Hh. cbn [Judge.clear]. now rewrite Hw, Hb.
  - intros split x w t rest Hr Hu Hh Hi Hw.
    assert (Hb : Background.body split x w
                 = (Background.emit Kill
                      (Background.emit (LogError ErrJson) w), Continue)).
    { unfold Background.body. rewrite Hi. cbn [Background.clear].
      rewrite Hw, Hr, Hu. reflexivity. }
    split; [exact Hb|].
    cbn [Background.loop]. rewrite Hh. cbn [Background.clear].
    now rewrite Hw, Hb.
  - intros split x w fields ev rest Hr Hf Hu Hh Hi Hw.
    assert (Hb : Background.body split x w = (w, Continue)).
    { unfold Background.body. rewrite Hi. cbn [Background.clear].
      rewrite Hw, Hr, Hu, (unmarshal_untyped fields ev Hf Hu). reflexivity. }
    split; [exact Hb|].
    cbn [Background.loop]. rewrite Hh. cbn [Background.clear].
    now rewrite Hw, Hb.
Qed.

Lemma C2_malformed_payload_witness :
  Background.body Telegram.ParseHackernelCmd (Scenario.heard None)
    Scenario.background0
  = (Background.emit Kill
       (Background.emit (LogError ErrJson) Scenario.background0), Continue)
  /\ Background.loop Telegram.ParseHackernelCmd
       [Scenario.heard None; Scenario.heard Scenario.heartbeat]
       Scenario.background0
     = Background.loop Telegram.ParseHackernelCmd
         [Scenario.heard Scenario.heartbeat]
         (Background.emit Kill
            (Background.emit (LogError ErrJson) Scenario.background0)).
Proof.
  apply (proj1 (proj2 C2_malformed_payload) Telegram.ParseHackernelCmd
           (Scenario.heard None) Scenario.background0 None
           [Scenario.heard Scenario.heartbeat]); reflexivity.
Defined.

(** ** Leaving the loop, and receive errors *)

Lemma filter_emit (p : effect -> bool) (l : list effect) (e : effect) :
  filter p (l ++ [e]) = filter p l ++ (if p e then [e] else []).
Proof. now rewrite filter_app. Qed.

Lemma Judge_clear_trace (b : bool) (w : Judge.ProcessWorker) :
  Judge.trace (Judge.clear b w) = Judge.trace w.
Proof. now destruct b. Qed.

Lemma Judge_clear_db (b : bool) (w : Judge.ProcessWorker) :
  Judge.db (Judge.clear b w) = Judge.db w.
Proof. now destruct b. Qed.

Lemma Background_clear_trace (b : bool) (w : Background.ProcessWorker) :
  Background.trace (Background.clear b w) = Background.trace w.
Proof. now destruct b. Qed.

Lemma Background_clear_db (b : bool) (w : Background.ProcessWorker) :
  Background.db (Background.clear b w) = Background.db w.
Proof. now destruct b. Qed.

(** The simpler worker never asks for the termination of the process. *)
Lemma Judge_body_no_kill (x : Judge.turn) (w : Judge.ProcessWorker) :
  filter is_kill (Judge.trace (fst (Judge.body x w)))
  = filter is_kill (Judge.trace w).
Proof.
  unfold Judge.body.
  set (w1 := Judge.clear (Judge.stop_in_recv x) w).
  assert (H1 : Judge.trace w1 = Judge.trace w) by apply Judge_clear_trace.
  destruct (Judge.recv x) as [|t].
  - destruct (Judge.running w1); cbn; rewrite ?filter_emit, H1;
      cbn; now rewrite ?app_nil_r.
  - destruct (Judge.unmarshal t) as [doc|];
      [|cbn; rewrite filter_emit, H1; cbn; now rewrite app_nil_r].
    destruct (Json.get "type" doc) as [[| | | | |ty| |]|]; try (cbn; now rewrite H1).
    destruct (negb (String.eqb ty "audit::proc::report")); [cbn; now rewrite H1|].
    destruct (Json.get "cmd" doc) as [[| | | | |c| |]|]; try (cbn; now rewrite H1).
    pose proof (Judge_updateCmdTimes_frame (Judge.store_fault x) c w1) as [Ht _].
    destruct (Judge.updateCmdTimes (Judge.store_fault x) c w1) as [w2 [n err]].
    cbn [fst] in Ht.
    destruct err as [e|];
      [cbn; rewrite filter_emit, Ht, H1; cbn; now rewrite app_nil_r|].
    destruct (n <? 3); [cbn; now rewrite Ht, H1|].
    unfold Judge.setTrustedCmd.
    destruct (Judge.send_fails x); cbn; rewrite ?filter_emit; cbn;
      rewrite ?filter_emit; cbn; rewrite ?app_nil_r; now rewrite Ht, H1.
Qed.

Lemma Judge_loop_no_kill (xs : list Judge.turn) (w : Judge.ProcessWorker) :
  filter is_kill (Judge.trace (fst (Judge.loop xs w)))
  = filter is_kill (Judge.trace w).
Proof.
  revert w. induction xs as [|x xs IH]; intros w; cbn [Judge.loop].
  - reflexivity.
  - destruct (negb (Judge.running (Judge.clear (Judge.stop_at_head x) w))).
    + cbn. now rewrite Judge_clear_trace.
    + pose proof (Judge_body_no_kill x (Judge.clear (Judge.stop_at_head x) w))
        as Hb.
      destruct (Judge.body x (Judge.clear (Judge.stop_at_head x) w))
        as [w' [| |]]; cbn [fst] in Hb |- *;
        rewrite ?IH, Hb; now rewrite Judge_clear_trace.
Qed.

Lemma Judge_run_no_kill (xs : list Judge.turn) (w : Judge.ProcessWorker) :
  filter is_kill (Judge.trace (fst (Judge.run xs w)))
  = filter is_kill (Judge.trace w).
Proof.
  unfold Judge.run. pose proof (Judge_loop_no_kill xs w) as H.
  destruct (Judge.loop xs w) as [w' [| |]]; cbn [fst] in H |- *;
    try exact H.
  cbn. rewrite filter_emit, H. cbn. now rewrite app_nil_r.
Qed.

(** A loop whose flag is cleared is left at its head, whatever is still to
    come. *)
Lemma Judge_loop_stopped (xs : list Judge.turn) (w : Judge.ProcessWorker) :
  Judge.running w = false ->
  exists w', Judge.loop xs w = (w', Exited)
             /\ Judge.trace w' = Judge.trace w /\ Judge.db w' = Judge.db w.
Proof.
  intros Hw. destruct xs as [|x xs]; cbn [Judge.loop].
  - rewrite Hw. now exists w.
  - assert (Hc : Judge.running (Judge.clear (Judge.stop_at_head x) w) = false)
      by (destruct (Judge.stop_at_head x); [reflexivity | exact Hw]).
    rewrite Hc. cbn [negb].
    exists (Judge.clear (Judge.stop_at_head x) w).
    now rewrite Judge_clear_trace, Judge_clear_db.
Qed.

(** C6, as the specification states it, fails on the simpler worker: a
    receive error while running is logged but no termination of the process
    is asked for; and a message received while [Stop] cleared the flag is
    still processed, here by the insertion of a row. *)
Lemma C6_receive_counterexample :
  Judge.run
    [{| Judge.stop_at_head := false; Judge.recv := RecvError;
        Judge.stop_in_recv := false; Judge.store_fault := healthy;
        Judge.send_fails := false |}] Scenario.judge0
  = ({| Judge.running := true; Judge.db := Some [];
        Judge.trace := [LogError ErrRecv] |}, Receiving)
  /\ Judge.run
       [{| Judge.stop_at_head := false;
           Judge.recv := Received (Scenario.report (Scenario.ls, 1));
           Judge.stop_in_recv := true; Judge.store_fault := healthy;
           Judge.send_fails := false |}] Scenario.judge0
     = ({| Judge.running := false;
           Judge.db := Some [{| Judge.id := 1; Judge.cmd := Scenario.ls;
                                Judge.times := 1 |}];
           Judge.trace := [Done] |}, Exited).
Proof. split; reflexivity. Qed.

(** C6 (amended): in the richer worker, a turn in which the flag is found
    cleared, at the loop head or after the receive, leaves the loop with
    nothing processed, and a receive error while running is logged, the
    termination of the process is asked for and the loop goes on.  In the
    simpler worker a receive error while running is logged and the loop goes
    on, a receive error after the flag was cleared is not logged and the
    loop is left at its head, and no turn ever asks for the termination of
    the process. *)
Theorem C6_receive_errors_and_stop :
  (forall split x rest w,
      Background.running
        (Background.clear (Background.stop_in_recv x)
           (Background.clear (Background.stop_at_head x) w)) = false ->
      exists w', Background.loop split (x :: rest) w = (w', Exited)
                 /\ Background.trace w' = Background.trace w
                 /\ Background.db w' = Background.db w)
  /\ (forall split x rest w,
      Background.recv x = RecvError ->
      Background.stop_at_head x = false ->
      Background.stop_in_recv x = false ->
      Background.running w = true ->
      Background.loop split (x :: rest) w
      = Background.loop split rest
          (Background.emit Kill (Background.emit (LogError ErrRecv) w)))
  /\ (forall x rest w,
      Judge.recv x = RecvError ->
      Judge.stop_at_head x = false -> Judge.running w = true ->
      if Judge.stop_in_recv x
      then Judge.loop (x :: rest) w = (Judge.flag false w, Exited)
      else Judge.loop (x :: rest) w
           = Judge.loop rest (Judge.emit (LogError ErrRecv) w))
  /\ (forall xs w,
      filter is_kill (Judge.trace (fst (Judge.run xs w)))
      = filter is_kill (Judge.trace w)).
Proof.
  split; [|split; [|split]].
  - intros split x rest w H. cbn [Background.loop].
    destruct (Background.running
                (Background.clear (Background.stop_at_head x) w)) eqn:Hh;
      cbn [negb].
    + unfold Background.body. rewrite H. cbn [negb].
      eexists. split; [reflexivity|].
      now rewrite !Background_clear_trace, !Background_clear_db.
    + eexists. split; [reflexivity|].
      now rewrite !Background_clear_trace, !Background_clear_db.
  - intros split x rest w Hr Hh Hi Hw. cbn [Background.loop].
    rewrite Hh. cbn [Background.clear]. rewrite Hw. cbn [negb].
    unfold Background.body. rewrite Hi. cbn [Background.clear].
    now rewrite Hw, Hr.
  - intros x rest w Hr Hh Hw. cbn [Judge.loop].
    rewrite Hh. cbn [Judge.clear]. rewrite Hw. cbn [negb].
    unfold Judge.body. rewrite Hr.
    destruct (Judge.stop_in_recv x); cbn [Judge.clear].
    + cbn [Judge.flag Judge.running].
      destruct (Judge_loop_stopped rest (Judge.flag false w) eq_refl)
        as (w' & Hl & _).
      destruct rest as [|y rest]; cbn [Judge.loop] in *.
      * reflexivity.
      * cbn. now destruct (Judge.stop_at_head y).
    + now rewrite Hw.
  - apply Judge_run_no_kill.
Qed.

Lemma C6_receive_errors_and_stop_witness :
  let x := {| Background.stop_at_head := false; Background.recv := RecvError;
              Background.stop_in_recv := false;
              Background.store_fault := healthy |} in
  Background.loop Telegram.ParseHackernelCmd [x] Scenario.background0
  = Background.loop Telegram.ParseHackernelCmd []
      (Background.emit Kill
         (Background.emit (LogError ErrRecv) Scenario.background0)).
Proof.
  intros x.
  apply (proj1 (proj2 C6_receive_errors_and_stop) Telegram.ParseHackernelCmd
           x [] Scenario.background0); reflexivity.
Defined.

(** ** The replay of trusted commands at startup *)


Lemma is_trusted_trusted (c c' : string) :
  is_trusted c (Send (trusted c')) = String.eqb c' c.
Proof. reflexivity. Qed.

Lemma announced_app (c : string) (l l' : list effect) :
  announced c (l ++ l') = (announced c l + announced c l')%nat.
Proof. unfold announced. now rewrite filter_app, length_app. Qed.

Lemma announced_insertions (c : string) (cmds : list string) :
  announced c (insertions cmds)
  = List.length (filter (fun c' => String.eqb c' c) cmds).
Proof.
  unfold announced, insertions.
  induction cmds as [|c' cmds IH]; [reflexivity|].
  cbn [map filter]. rewrite is_trusted_trusted.
  destruct (String.eqb c' c); cbn [List.length]; now rewrite IH.
Qed.

Lemma Background_replay_healthy (f : fault) (sf : nat -> bool)
    (rows : list string) (n : nat) (w : Background.ProcessWorker) :
  (forall s, f s = false) ->
  Background.replay f sf n rows w
  = ({| Background.running := Background.running w;
        Background.db := Background.db w;
        Background.trace := Background.trace w ++ insertions rows |}, None).
Proof.
  intros Hf. revert n w.
  induction rows as [|c rows IH]; intros n w; cbn [Background.replay].
  - rewrite Hf. cbn. rewrite app_nil_r. now destruct w.
  - rewrite !Hf, IH. cbn. now rewrite <- app_assoc.
Qed.

Lemma Judge_replay_healthy (f : fault) (sf : nat -> bool)
    (rows : list string) (n : nat) (w : Judge.ProcessWorker) :
  (forall s, f s = false) ->
  Judge.replay f sf n rows w
  = ({| Judge.running := Judge.running w; Judge.db := Judge.db w;
        Judge.trace := Judge.trace w ++ insertions rows |}, None).
Proof.
  intros Hf. revert n w.
  induction rows as [|c rows IH]; intros n w; cbn [Judge.replay].
  - rewrite Hf. cbn. rewrite app_nil_r. now destruct w.
  - rewrite !Hf, IH. cbn. now rewrite <- app_assoc.
Qed.

(** The simpler worker has no status column: it replays the commands seen
    three times or more. *)
Lemma Judge_initTrustedCmd_replays (f : fault) (sf : nat -> bool)
    (w : Judge.ProcessWorker) (t : Judge.table) :
  Judge.db w = Some t -> (forall s, f s = false) ->
  Judge.initTrustedCmd f sf w
  = ({| Judge.running := Judge.running w; Judge.db := Judge.db w;
        Judge.trace :=
          Judge.trace w
          ++ insertions (map Judge.cmd
                           (filter (fun r => 3 <=? Judge.times r) t)) |},
     None).
Proof.
  intros Hd Hf. unfold Judge.initTrustedCmd.
  rewrite !Hf, Hd. rewrite Judge_replay_healthy by exact Hf.
  now rewrite Hd.
Qed.


(** C3, as the specification states it, fails on the simpler worker: its
    table has no status column, and its replay goes by the count.  Three
    reports leave a row with the count 3 and nothing that marks it trusted,
    and the next start sends a trust insertion for it; the richer worker,
    whose record of the same three reports has the status 0, sends none. *)
Lemma C3_replay_counterexample :
  let reports := [(Scenario.ls, 1); (Scenario.ls, 1); (Scenario.ls, 1)] in
  let d := Judge.db (fst (Judge.run (judging reports) Scenario.judge0)) in
  let d' := Background.db
              (fst (Background.run Telegram.ParseHackernelCmd
                      (hearing reports) Scenario.background0)) in
  d = Some [{| Judge.id := 1; Judge.cmd := Scenario.ls; Judge.times := 3 |}]
  /\ Judge.trace
       (fst (Judge.initTrustedCmd healthy (fun _ => false)
               (JudgeStart.NewProcessWorker d)))
     = [Send (trusted Scenario.ls)]
  /\ option_map (map Background.status) d' = Some [0]
  /\ Background.trace
       (fst (Background.initTrustedCmd healthy (fun _ => false)
               (BackgroundStart.NewProcessWorker d')))
     = [].
Proof. repeat split; reflexivity. Qed.

(** C3 (amended): when the store answers the query, the replay at startup
    of the richer worker sends one trust insertion for each stored record
    whose status is 2, in the order of the table, and nothing else; so for
    every command the number of insertions sent is the number of its
    records with status 2, and a record with another status brings none.
    The simpler worker keeps no status: its replay sends one trust insertion
    for each row whose count is 3 or more, in the order of the table, and
    none for a row with a smaller count.  In both workers it does not matter
    whether a send fails, and the store is left as it was. *)
Theorem C3_replay_of_trusted :
  (forall f sf w t,
      Background.db w = Some t -> (forall s, f s = false) ->
      exists w',
        Background.initTrustedCmd f sf w = (w', None)
        /\ Background.db w' = Some t
        /\ Background.trace w'
           = Background.trace w
             ++ insertions (map Background.cmd (filter is_trusted_row t))
        /\ forall c,
            announced c (Background.trace w')
            = (announced c (Background.trace w)
               + List.length
                   (filter (fun r => is_trusted_row r
                                     && String.eqb (Background.cmd r) c) t))%nat)
  /\ (forall f sf w t,
      Judge.db w = Some t -> (forall s, f s = false) ->
      exists w',
        Judge.initTrustedCmd f sf w = (w', None)
        /\ Judge.db w' = Some t
        /\ Judge.trace w'
           = Judge.trace w
             ++ insertions (map Judge.cmd
                              (filter (fun r => 3 <=? Judge.times r) t))
        /\ forall c,
            announced c (Judge.trace w')
            = (announced c (Judge.trace w)
               + List.length
                   (filter (fun r => Z.leb 3 (Judge.times r)
                                     && String.eqb (Judge.cmd r) c) t))%nat).
Proof.
  split.
  - intros f sf w t Hd Hf. unfold Background.initTrustedCmd.
    rewrite !Hf, Hd. unfold Background.sqlQueryStatusAllow.
    rewrite Background_replay_healthy by exact Hf.
    eexists. split; [reflexivity|]. cbn [Background.db Background.trace].
    split; [exact Hd|]. split; [reflexivity|].
    intros c. rewrite announced_app, announced_insertions. f_equal.
    clear. induction t as [|r t IH]; [reflexivity|].
    cbn [filter]. unfold is_trusted_row at 1 3.
    destruct (Background.status r =? 2); cbn [andb map filter].
    + destruct (String.eqb (Background.cmd r) c); cbn [List.length];
        now rewrite IH.
    + exact IH.
  - intros f sf w t Hd Hf.
    rewrite (Judge_initTrustedCmd_replays f sf w t Hd Hf).
    eexists. split; [reflexivity|]. cbn [Judge.db Judge.trace].
    split; [exact Hd|]. split; [reflexivity|].
    intros c. rewrite announced_app, announced_insertions. f_equal.
    clear. induction t as [|r t IH]; [reflexivity|].
    cbn [filter]. destruct (3 <=? Judge.times r); cbn [andb map filter].
    + destruct (String.eqb (Judge.cmd r) c); cbn [List.length];
        now rewrite IH.
    + exact IH.
Qed.

Lemma C3_replay_of_trusted_witness :
  let row i c n s :=
    {| Background.id := i; Background.cmd := c;
       Background.workdir := "/home"; Background.binary := "/bin/ls";
       Background.argv := c; Background.count := n; Background.judge := 1;
       Background.status := s |} in
  let t := [row 1 "a" 5 2; row 2 "b" 7 0; row 3 "c" 1 2; row 4 "d" 9 1] in
  let w := {| Background.running := true; Background.db := Some t;
              Background.trace := [] |} in
  let t' := [{| Judge.id := 1; Judge.cmd := "a"; Judge.times := 5 |};
             {| Judge.id := 2; Judge.cmd := "b"; Judge.times := 2 |};
             {| Judge.id := 3; Judge.cmd := "c"; Judge.times := 3 |}] in
  let v := {| Judge.running := true; Judge.db := Some t';
              Judge.trace := [] |} in
  (exists w',
      Background.initTrustedCmd healthy (fun _ => false) w = (w', None)
      /\ Background.db w' = Some t
      /\ Background.trace w' = [] ++ [Send (trusted "a"); Send (trusted "c")]
      /\ forall c,
          announced c (Background.trace w')
          = (0 + List.length
                   (filter (fun r => is_trusted_row r
                                     && String.eqb (Background.cmd r) c) t))%nat)
  /\ (exists v',
      Judge.initTrustedCmd healthy (fun _ => false) v = (v', None)
      /\ Judge.db v' = Some t'
      /\ Judge.trace v' = [] ++ [Send (trusted "a"); Send (trusted "c")]
      /\ forall c,
          announced c (Judge.trace v')
          = (0 + List.length
                   (filter (fun r => Z.leb 3 (Judge.times r)
                                     && String.eqb (Judge.cmd r) c) t'))%nat).
Proof.
  intros row t w t' v. split.
  - apply (proj1 C3_replay_of_trusted healthy (fun _ => false) w t);
      [reflexivity | intros s; reflexivity].
  - apply (proj2 C3_replay_of_trusted healthy (fun _ => false) v t');
      [reflexivity | intros s; reflexivity].
Defined.

(** ** The invariants of the store *)

Lemma grown_refl (r : Background.Row) : grown r r.
Proof. unfold grown. repeat split; lia. Qed.

Lemma Forall2_grown_refl (t : Background.table) : Forall2 grown t t.
Proof. induction t; constructor; [apply grown_refl | assumption]. Qed.

Lemma kept_refl (d : Background.database) : kept d d.
Proof.
  destruct d as [t|]; [|exact I]. exists t, []. rewrite app_nil_r.
  split; [reflexivity | apply Forall2_grown_refl].
Qed.

Lemma sqlUpdateCount_updated (j : Z) (c : string) (t : Background.table) :
  Forall2 (updated c) t (fst (Background.sqlUpdateCount j c t)).
Proof.
  cbn [Background.sqlUpdateCount fst].
  induction t as [|r t IH]; cbn [map]; constructor; [|exact IH].
  destruct (String.eqb (Background.cmd r) c) eqn:E.
  - split.
    + unfold grown. cbn. repeat split; lia.
    + intros Hne. apply String.eqb_eq in E. contradiction.
  - split; [apply grown_refl | reflexivity].
Qed.

Lemma sqlUpdateCount_cmds (j : Z) (c : string) (t : Background.table) :
  map Background.cmd (fst (Background.sqlUpdateCount j c t))
  = map Background.cmd t.
Proof.
  cbn [Background.sqlUpdateCount fst]. rewrite map_map.
  apply map_ext. intros r. now destruct (String.eqb (Background.cmd r) c).
Qed.

Lemma sqlUpdateCount_affected (j : Z) (c : string) (t : Background.table) :
  (snd (Background.sqlUpdateCount j c t) =? 0) = negb (known c t).
Proof.
  cbn [Background.sqlUpdateCount snd]. unfold known.
  induction t as [|r t IH]; [reflexivity|].
  cbn [filter existsb].
  destruct (String.eqb (Background.cmd r) c); [|exact IH].
  cbn [List.length orb negb]. apply Z.eqb_neq. lia.
Qed.

Lemma known_cmds (c : string) (t : Background.table) :
  known c t = false -> ~ In c (map Background.cmd t).
Proof.
  unfold known. induction t as [|r t IH]; cbn; [tauto|].
  intros H. apply orb_false_iff in H as [Hr Ht].
  apply String.eqb_neq in Hr. intros [E|E]; [contradiction | now apply IH].
Qed.

Lemma Forall2_updated_grown (c : string) (t t' : Background.table) :
  Forall2 (updated c) t t' -> Forall2 grown t t'.
Proof. induction 1; constructor; [apply H | assumption]. Qed.

Lemma known_sqlUpdateCount (c c' : string) (j : Z) (t : Background.table) :
  known c (fst (Background.sqlUpdateCount j c' t)) = known c t.
Proof.
  cbn [Background.sqlUpdateCount fst]. unfold known.
  induction t as [|r t IH]; [reflexivity|].
  cbn [map existsb]. rewrite IH. f_equal.
  now destruct (String.eqb (Background.cmd r) c').
Qed.

Section Store.

Variable SplitCmd : string -> option (string * string * string).

(** What [updateCmd] leaves in the store: the store as it was, or the table
    after the update statement, or that table with one new record for a
    command that was not known. *)
Lemma updateCmd_store (f : fault) (c : string) (j : Z)
    (w : Background.ProcessWorker) :
  let d' := Background.db (fst (Background.updateCmd SplitCmd f c j w)) in
  d' = Background.db w
  \/ exists t,
      Background.db w = Some t
      /\ (d' = Some (fst (Background.sqlUpdateCount j c t))
          \/ (known c t = false
              /\ exists r, d' = Some (fst (Background.sqlUpdateCount j c t) ++ [r])
                           /\ Background.cmd r = c)).
Proof.
  unfold Background.updateCmd.
  destruct (f Open); [now left|].
  destruct (Background.db w) as [t|] eqn:Hd; [|left; cbn; now rewrite Hd].
  destruct (f PrepareUpdate); [left; cbn; now rewrite Hd|].
  destruct (f ExecUpdate); [left; cbn; now rewrite Hd|].
  right. exists t. split; [reflexivity|].
  pose proof (sqlUpdateCount_affected j c t) as Ha.
  pose proof (known_sqlUpdateCount c c j t) as Hk.
  destruct (Background.sqlUpdateCount j c t) as [t1 affected].
  cbn [fst snd] in *.
  destruct (f RowsAffected); [now left|].
  rewrite Ha. rewrite negb_involutive.
  destruct (known c t) eqn:Hc; [now left|].
  destruct (f PrepareInsert); [now left|].
  destruct (SplitCmd c) as [[[wd bin] av]|]; [|now left].
  destruct (f ExecInsert); [now left|].
  unfold Background.sqlInsert. fold (known c t1). rewrite Hk.
  right. split; [reflexivity|]. eexists. split; reflexivity.
Qed.

(** C9: every operation of the agent on its store -- the initialisation of
    the schema, the update for a report, the replay query -- keeps the
    commands of the records distinct, deletes no record, keeps every record
    in place with its id, command, workdir, binary, argv and status and a
    count that is not less; and the update for a command that has a record
    adds no record and changes nothing in the records of other commands. *)
Theorem C9_store_invariants (o : operation) (w : Background.ProcessWorker) :
  (unique (Background.db w) ->
   unique (Background.db (perform SplitCmd o w)))
  /\ kept (Background.db w) (Background.db (perform SplitCmd o w))
  /\ (forall f c j t,
        o = Update f c j -> Background.db w = Some t -> known c t = true ->
        exists t',
          Background.db (perform SplitCmd o w) = Some t'
          /\ Forall2 (updated c) t t').
Proof.
  destruct o as [f|f c j|f sf]; cbn [perform].
  - assert (H : Background.db (fst (Background.initDB f w)) = Background.db w
                \/ (Background.db w = None
                    /\ Background.db (fst (Background.initDB f w)) = Some [])).
    { unfold Background.initDB, Background.sqlCreateIndex.
      destruct (f Open); [now left|].
      destruct (f ExecCreateTable); [now left|].
      destruct (Background.db w) as [t|] eqn:Hd.
      - left. destruct (f ExecCreateIndex); [|destruct (f ConfigNew)];
          cbn; now rewrite ?Hd.
      - right. split; [reflexivity|].
        destruct (f ExecCreateIndex); [|destruct (f ConfigNew)];
          cbn; now rewrite ?Hd. }
    destruct H as [-> | [Hn ->]].
    + split; [tauto|]. split; [apply kept_refl | discriminate].
    + rewrite Hn. split; [intros _; constructor|].
      split; [exact I | discriminate].
  - destruct (updateCmd_store f c j w) as [-> | (t & Hd & H)].
    + split; [tauto|]. split; [apply kept_refl|].
      intros f' c' j' t [= -> -> ->] Hd _. exists t. split; [exact Hd|].
      clear. induction t as [|r t IH]; constructor; [|exact IH].
      split; [apply grown_refl | reflexivity].
    + rewrite Hd.
      pose proof (sqlUpdateCount_updated j c t) as Hu.
      pose proof (sqlUpdateCount_cmds j c t) as Hc.
      destruct H as [-> | (Hk & r & -> & Hr)].
      * split; [cbn [unique]; now rewrite Hc|].
        split.
        -- eexists _, []. rewrite app_nil_r. split; [reflexivity|].
           now apply Forall2_updated_grown with c.
        -- intros f' c' j' t0 [= -> -> ->] [= <-] _. eauto.
      * split.
        -- cbn [unique]. rewrite map_app, Hc. cbn [map]. rewrite Hr.
           intros Hn. apply NoDup_app; [exact Hn | repeat constructor; cbn; tauto|].
           intros x Hx [E|[]]. subst x. now apply (known_cmds c t Hk).
        -- split.
           ++ eexists _, [r]. split; [reflexivity|].
              now apply Forall2_updated_grown with c.
           ++ intros f' c' j' t0 [= -> -> ->] [= <-] Hk'. congruence.
  - assert (H : Background.db (fst (Background.initTrustedCmd f sf w))
                = Background.db w).
    { unfold Background.initTrustedCmd.
      destruct (f Open); [reflexivity|].
      destruct (Background.db w) as [t|] eqn:Hd; [|cbn; now rewrite ?Hd].
      destruct (f PrepareQuery); [cbn; now rewrite ?Hd|].
      destruct (f Query); [cbn; now rewrite ?Hd|].
      rewrite <- Hd. generalize (Background.sqlQueryStatusAllow t) 0%nat. clear.
      intros rows. revert w.
      induction rows as [|c rows IH]; intros w n; cbn [Background.replay].
      - now destruct (f (Next n)).
      - destruct (f (Next n)); [reflexivity|].
        destruct (f (ScanRow n)); [reflexivity|].
        now rewrite IH. }
    rewrite H. split; [tauto|]. split; [apply kept_refl | discriminate].
Qed.

End Store.

Lemma C9_store_invariants_witness :
  let r := {| Background.id := 1; Background.cmd := Scenario.ls;
              Background.workdir := "/home"; Background.binary := "/bin/ls";
              Background.argv := "-la"; Background.count := 2;
              Background.judge := 0; Background.status := 0 |} in
  let w := {| Background.running := true; Background.db := Some [r];
              Background.trace := [] |} in
  exists t',
    Background.db
      (perform Telegram.ParseHackernelCmd (Update healthy Scenario.ls 1) w)
    = Some t'
    /\ Forall2 (updated Scenario.ls) [r] t'.
Proof.
  intros r w.
  apply (proj2 (proj2 (C9_store_invariants Telegram.ParseHackernelCmd
                         (Update healthy Scenario.ls 1) w))
           healthy Scenario.ls 1 [r]); reflexivity.
Defined.

(** ** Counting the reports: the richer worker *)

Lemma unmarshal_report (r : string * Z) :
  Json.in_int (snd r) = true ->
  Background.unmarshal (Scenario.report r)
  = Some {| Background.Type' := "audit::proc::report";
            Background.Cmd := fst r; Background.Judge := snd r |}.
Proof.
  destruct r as [c j]. cbn [fst snd]. intros Hj.
  unfold Background.unmarshal, Scenario.report.
  cbn [fold_left fst snd]. unfold Background.assign.
  change (Json.names "type" "type") with true.
  change (Json.names "cmd" "type") with false.
  change (Json.names "cmd" "cmd") with true.
  change (Json.names "judge" "type") with false.
  change (Json.names "judge" "cmd") with false.
  change (Json.names "judge" "judge") with true.
  cbn iota. now rewrite Hj.
Qed.

Lemma sqlUpdateCount_unknown (j : Z) (c : string) (t : Background.table) :
  known c t = false -> fst (Background.sqlUpdateCount j c t) = t.
Proof.
  cbn [Background.sqlUpdateCount fst]. unfold known.
  induction t as [|r t IH]; [reflexivity|]. cbn [existsb map].
  intros H. apply orb_false_iff in H as [Hr Ht]. now rewrite Hr, IH.
Qed.

Lemma records_known (c : string) (t : Background.table) :
  known c t = false <-> records c t = [].
Proof.
  unfold known, records. induction t as [|r t IH]; cbn [existsb filter].
  - tauto.
  - destruct (String.eqb (Background.cmd r) c); cbn [orb]; [|exact IH].
    split; discriminate.
Qed.

Lemma records_update_other (c c' : string) (j : Z) (t : Background.table) :
  c' <> c ->
  records c (fst (Background.sqlUpdateCount j c' t)) = records c t.
Proof.
  intros Hne. cbn [Background.sqlUpdateCount fst]. unfold records.
  induction t as [|r t IH]; [reflexivity|]. cbn [map filter]. rewrite IH.
  destruct (String.eqb (Background.cmd r) c') eqn:E; [|reflexivity].
  cbn [Background.cmd]. apply String.eqb_eq in E.
  assert (Hc : String.eqb (Background.cmd r) c = false)
    by (apply String.eqb_neq; congruence).
  now rewrite Hc.
Qed.

Lemma records_update_same (c : string) (j : Z) (t : Background.table) :
  records c (fst (Background.sqlUpdateCount j c t))
  = map (fun r => {| Background.id := Background.id r;
                     Background.cmd := Background.cmd r;
                     Background.workdir := Background.workdir r;
                     Background.binary := Background.binary r;
                     Background.argv := Background.argv r;
                     Background.count := Background.count r + 1;
                     Background.judge := j;
                     Background.status := Background.status r |})
        (records c t).
Proof.
  cbn [Background.sqlUpdateCount fst]. unfold records.
  induction t as [|r t IH]; [reflexivity|]. cbn [map filter]. rewrite IH.
  destruct (String.eqb (Background.cmd r) c) eqn:E.
  - cbn [Background.cmd]. now rewrite E.
  - now rewrite E.
Qed.

Lemma records_app (c : string) (t t' : Background.table) :
  records c (t ++ t') = records c t ++ records c t'.
Proof. apply filter_app. Qed.

Section Counting.

Variable SplitCmd : string -> option (string * string * string).

Lemma body_report (r : string * Z) (w : Background.ProcessWorker)
    (t : Background.table) :
  Background.running w = true -> Background.db w = Some t ->
  sound SplitCmd r ->
  Background.body SplitCmd (Scenario.heard (Scenario.report r)) w
  = (Background.store (Some (recorded SplitCmd t r)) w, Continue).
Proof.
  intros Hw Hd [Hs Hj]. unfold Background.body, Scenario.heard.
  cbn [Background.stop_in_recv Background.recv Background.store_fault
       Background.clear].
  rewrite Hw. cbn [negb]. rewrite (unmarshal_report r Hj).
  cbn [Background.Type' Background.Cmd Background.Judge].
  change (String.eqb "audit::proc::report" "audit::proc::report") with true.
  cbn iota. unfold Background.updateCmd, healthy. rewrite Hd.
  unfold recorded.
  pose proof (sqlUpdateCount_affected (snd r) (fst r) t) as Ha.
  pose proof (known_sqlUpdateCount (fst r) (fst r) (snd r) t) as Hk.
  destruct (Background.sqlUpdateCount (snd r) (fst r) t) as [t1 affected].
  cbn [fst snd] in Ha, Hk |- *. rewrite Ha, negb_involutive.
  destruct (known (fst r) t) eqn:Hc; [reflexivity|].
  destruct (SplitCmd (fst r)) as [[[wd bin] av]|]; [|contradiction].
  unfold Background.sqlInsert. fold (known (fst r) t1). rewrite Hk.
  reflexivity.
Qed.

Lemma loop_reports (rs : list (string * Z)) (w : Background.ProcessWorker)
    (t : Background.table) :
  Background.running w = true -> Background.db w = Some t ->
  Forall (sound SplitCmd) rs ->
  Background.loop SplitCmd (hearing rs) w
  = (Background.store (Some (fold_left (recorded SplitCmd) rs t)) w, Receiving).
Proof.
  revert w t. induction rs as [|r rs IH]; intros w t Hw Hd Hs.
  - cbn. rewrite Hw, <- Hd. now destruct w.
  - inversion Hs as [|? ? Hr Hrs]; subst.
    cbn [hearing map Background.loop].
    change (Background.stop_at_head (Scenario.heard (Scenario.report r)))
      with false.
    cbn [Background.clear]. rewrite Hw. cbn [negb].
    rewrite (body_report r w t Hw Hd Hr).
    fold (hearing rs). rewrite (IH _ (recorded SplitCmd t r)); auto.
Qed.

(** A command with one record: its reports add to the count of the record
    and leave the judgment of the last one. *)
Lemma recorded_known (c : string) (rs : list (string * Z))
    (t : Background.table) (r0 : Background.Row) :
  records c t = [r0] ->
  exists r1,
    records c (fold_left (recorded SplitCmd) rs t) = [r1]
    /\ grown r0 r1
    /\ Background.count r1
       = Background.count r0 + Z.of_nat (Scenario.reports_of c rs)
    /\ Background.judge r1
       = match Scenario.last_judgment c rs with
         | Some j => j
         | None => Background.judge r0
         end.
Proof.
  revert t r0. induction rs as [|[c' j'] rs IH]; intros t r0 Ht.
  - exists r0. cbn. repeat split; try apply grown_refl; try exact Ht; lia.
  - cbn [fold_left].
    assert (Hk : known c t = true).
    { destruct (known c t) eqn:E; [reflexivity|].
      apply records_known in E. congruence. }
    destruct (String.eqb c' c) eqn:E.
    + apply String.eqb_eq in E. subst c'.
      unfold recorded at 2. cbn [fst snd]. rewrite Hk.
      destruct (IH (fst (Background.sqlUpdateCount j' c t))
                  {| Background.id := Background.id r0;
                     Background.cmd := Background.cmd r0;
                     Background.workdir := Background.workdir r0;
                     Background.binary := Background.binary r0;
                     Background.argv := Background.argv r0;
                     Background.count := Background.count r0 + 1;
                     Background.judge := j';
                     Background.status := Background.status r0 |})
        as (r1 & H1 & Hg & Hc & Hj).
      { now rewrite records_update_same, Ht. }
      exists r1. split; [exact H1|]. split.
      { unfold grown in *. cbn in Hg. intuition lia. }
      unfold Scenario.reports_of, Scenario.last_judgment in *.
      cbn [filter fst]. rewrite String.eqb_refl. cbn [List.length rev].
      split; [rewrite Hc; cbn; lia|]. rewrite Hj. cbn [Background.judge].
      destruct (rev (filter (fun r => String.eqb (fst r) c) rs)) as [|x l];
        reflexivity.
    + assert (Hne : c' <> c) by now apply String.eqb_neq.
      assert (Ht' : records c (recorded SplitCmd t (c', j')) = [r0]).
      { unfold recorded. cbn [fst snd].
        destruct (known c' t); [now rewrite records_update_other|].
        destruct (SplitCmd c') as [[[wd bin] av]|];
          [|now rewrite records_update_other].
        rewrite records_app, records_update_other by exact Hne.
        unfold records at 2. cbn [filter Background.cmd].
        now rewrite E, app_nil_r. }
      destruct (IH _ r0 Ht') as (r1 & H1 & Hg & Hc & Hj).
      exists r1. unfold Scenario.reports_of, Scenario.last_judgment in *.
      cbn [filter fst]. rewrite E. auto.
Qed.

(** A command with no record: its first report adds the record, with count
    1 and status 0, and the later ones count on it. *)
Lemma recorded_unknown (c : string) (j : Z) (rs : list (string * Z))
    (t : Background.table) :
  records c t = [] -> Forall (sound SplitCmd) rs ->
  Scenario.last_judgment c rs = Some j ->
  exists r1,
    records c (fold_left (recorded SplitCmd) rs t) = [r1]
    /\ Background.cmd r1 = c
    /\ Background.count r1 = Z.of_nat (Scenario.reports_of c rs)
    /\ Background.judge r1 = j
    /\ Background.status r1 = 0
    /\ SplitCmd c
       = Some (Background.workdir r1, Background.binary r1, Background.argv r1).
Proof.
  revert t. induction rs as [|[c' j'] rs IH]; intros t Ht Hs Hj.
  - discriminate.
  - inversion Hs as [|? ? [Hsplit _] Hrs]; subst. cbn [fst] in Hsplit.
    cbn [fold_left].
    assert (Hk : known c t = false) by now apply records_known.
    destruct (String.eqb c' c) eqn:E.
    + apply String.eqb_eq in E. subst c'.
      unfold recorded at 2. cbn [fst snd]. rewrite Hk.
      destruct (SplitCmd c) as [[[wd bin] av]|] eqn:Hc; [|contradiction].
      set (r0 := {| Background.id :=
                      Background.next_id
                        (fst (Background.sqlUpdateCount j' c t));
                    Background.cmd := c; Background.workdir := wd;
                    Background.binary := bin; Background.argv := av;
                    Background.count := 1; Background.judge := j';
                    Background.status := 0 |}).
      destruct (recorded_known c rs
                  (fst (Background.sqlUpdateCount j' c t) ++ [r0]) r0)
        as (r1 & H1 & Hg & Hn & Hl).
      { rewrite records_app, records_update_same, Ht.
        unfold records. cbn [map app filter Background.cmd r0].
        rewrite String.eqb_refl. reflexivity. }
      exists r1. split; [exact H1|].
      destruct Hg as (_ & Hg2 & Hg3 & Hg4 & Hg5 & Hg6 & _).
      unfold Scenario.reports_of, Scenario.last_judgment in *.
      cbn [filter fst] in Hj |- *. rewrite String.eqb_refl in Hj |- *.
      cbn [List.length rev] in Hj |- *.
      repeat split.
      * exact Hg2.
      * rewrite Hn. cbn [Background.count r0]. lia.
      * rewrite Hl. cbn [Background.judge r0].
        destruct (rev (filter (fun r => String.eqb (fst r) c) rs)) as [|x l];
          cbn in Hj |- *; congruence.
      * exact Hg6.
      * now rewrite Hg3, Hg4, Hg5.
    + assert (Hne : c' <> c) by now apply String.eqb_neq.
      unfold Scenario.reports_of, Scenario.last_judgment in *.
      cbn [filter fst] in Hj |- *. rewrite E in Hj |- *.
      apply IH; [|exact Hrs|exact Hj].
      unfold recorded. cbn [fst snd].
      destruct (known c' t); [now rewrite records_update_other|].
      destruct (SplitCmd c') as [[[wd bin] av]|];
        [|now rewrite records_update_other].
      rewrite records_app, records_update_other by exact Hne.
      unfold records at 2. cbn [filter Background.cmd].
      now rewrite E, Ht.
Qed.

(** The richer worker: the record of a command that had none, after a
    sequence of reports. *)
Lemma Background_occurrence_count (c : string) (j : Z) (rs : list (string * Z))
    (w : Background.ProcessWorker) (t : Background.table) :
  Background.running w = true -> Background.db w = Some t ->
  known c t = false -> Forall (sound SplitCmd) rs ->
  Scenario.last_judgment c rs = Some j ->
  exists w' t' r,
    Background.run SplitCmd (hearing rs) w = (w', Receiving)
    /\ Background.db w' = Some t'
    /\ records c t' = [r]
    /\ Background.count r = Z.of_nat (Scenario.reports_of c rs)
    /\ Background.judge r = j
    /\ Background.status r = 0.
Proof.
  intros Hw Hd Hk Hs Hj. unfold Background.run.
  rewrite (loop_reports rs _ t); [|exact Hw|exact Hd|exact Hs].
  destruct (recorded_unknown c j rs t) as (r & Hr & _ & Hn & Hl & Hst & _);
    [now apply records_known|exact Hs|exact Hj|].
  eexists _, _, r. split; [reflexivity|]. cbn [Background.db Background.store].
  auto.
Qed.

End Counting.

(** ** Counting the reports: the simpler worker *)

Lemma find_map_same (p : Judge.Row -> bool) (f : Judge.Row -> Judge.Row)
    (t : Judge.table) :
  (forall r, p (f r) = p r) ->
  find p (map f t) = option_map f (find p t).
Proof.
  intros Hp. induction t as [|r t IH]; [reflexivity|].
  cbn [map find]. rewrite Hp. now destruct (p r).
Qed.

Lemma find_snoc (p : Judge.Row -> bool) (t : Judge.table) (r : Judge.Row) :
  find p (t ++ [r])
  = match find p t with
    | Some r' => Some r'
    | None => if p r then Some r else None
    end.
Proof.
  induction t as [|r' t IH]; [reflexivity|].
  cbn [app find]. now destruct (p r').
Qed.

Lemma Judge_id_below_next (t : Judge.table) (r : Judge.Row) :
  In r t -> Judge.id r < Judge.next_id t.
Proof.
  unfold Judge.next_id. induction t as [|r' t IH]; cbn [In fold_right].
  - tauto.
  - intros [-> | H]; [lia|]. specialize (IH H). lia.
Qed.

Lemma Judge_id_keys (t : Judge.table) (r r' : Judge.Row) :
  NoDup (map Judge.id t) -> In r t -> In r' t ->
  Judge.id r = Judge.id r' -> r = r'.
Proof.
  induction t as [|r0 t IH]; cbn [map In]; [tauto|].
  intros Hn Hr Hr' E. inversion Hn as [|? ? Hnot Hn']; subst.
  destruct Hr as [-> | Hr], Hr' as [-> | Hr'].
  - reflexivity.
  - exfalso. apply Hnot. rewrite E. now apply in_map.
  - exfalso. apply Hnot. rewrite <- E. now apply in_map.
  - now apply IH.
Qed.

Lemma wrap_small (z : Z) :
  Json.int_min <= z <= Json.int_max -> Json.wrap z = z.
Proof.
  unfold Json.wrap, Json.int_min, Json.int_max. intros H.
  rewrite Z.mod_small; lia.
Qed.

(** One report on a table with distinct ids: the ids stay distinct, the
    count of the command is the one returned, the wrapped successor of the
    count before, and the counts of the other commands stay. *)
Lemma counted_spec (t : Judge.table) (c' : string) :
  NoDup (map Judge.id t) ->
  NoDup (map Judge.id (fst (counted t c')))
  /\ times_of c' (fst (counted t c')) = snd (counted t c')
  /\ snd (counted t c') = Json.wrap (times_of c' t + 1)
  /\ forall c, c <> c' -> times_of c (fst (counted t c')) = times_of c t.
Proof.
  intros Hn. unfold counted, Judge.sqlQueryTimesByCmd, times_of.
  destruct (find (fun r => String.eqb (Judge.cmd r) c') t) as [r|] eqn:Hf;
    cbn [fst snd].
  - pose proof (find_some _ _ Hf) as [Hin Hc]. apply String.eqb_eq in Hc.
    set (n := Json.wrap (Judge.times r + 1)).
    set (f := fun r0 => if Judge.id r0 =? Judge.id r
                        then {| Judge.id := Judge.id r0;
                                Judge.cmd := Judge.cmd r0;
                                Judge.times := n |}
                        else r0).
    assert (Hcmd : forall r0, Judge.cmd (f r0) = Judge.cmd r0)
      by (intros r0; unfold f; now destruct (Judge.id r0 =? Judge.id r)).
    assert (Hid : forall r0, Judge.id (f r0) = Judge.id r0)
      by (intros r0; unfold f; now destruct (Judge.id r0 =? Judge.id r)).
    unfold Judge.sqlUpdateCmdTimes. fold f.
    split; [|split; [|split]].
    + rewrite map_map. now rewrite (map_ext _ Judge.id Hid).
    + rewrite find_map_same by (intros r0; now rewrite Hcmd).
      rewrite Hf. cbn [option_map]. unfold f. now rewrite Z.eqb_refl.
    + reflexivity.
    + intros c Hne.
      rewrite find_map_same by (intros r0; now rewrite Hcmd).
      destruct (find (fun r0 => String.eqb (Judge.cmd r0) c) t) as [r2|] eqn:E;
        [|reflexivity].
      apply find_some in E as [Hin2 Hc2]. apply String.eqb_eq in Hc2.
      cbn [option_map]. unfold f.
      destruct (Judge.id r2 =? Judge.id r) eqn:Ei; [|reflexivity].
      apply Z.eqb_eq in Ei.
      pose proof (Judge_id_keys t r2 r Hn Hin2 Hin Ei). congruence.
  - unfold Judge.sqlInsertCmd. split; [|split; [|split]].
    + rewrite map_app. cbn [map Judge.id].
      apply NoDup_app; [exact Hn | repeat constructor; cbn; tauto|].
      intros i Hi [<-|[]]. apply in_map_iff in Hi as (r & Hr & Hin).
      apply Judge_id_below_next in Hin. lia.
    + rewrite find_snoc, Hf. cbn [Judge.cmd]. now rewrite String.eqb_refl.
    + reflexivity.
    + intros c Hne. rewrite find_snoc. cbn [Judge.cmd].
      assert (E : String.eqb c' c = false) by (apply String.eqb_neq; congruence).
      rewrite E.
      now destruct (find (fun r => String.eqb (Judge.cmd r) c) t).
Qed.

Lemma report_type (c : string) (j : Z) :
  Json.get "type" [("type", Json.Str "audit::proc::report");
                   ("cmd", Json.Str c); ("judge", Json.Int j)]
  = Some (Json.Str "audit::proc::report").
Proof. reflexivity. Qed.

Lemma report_cmd (c : string) (j : Z) :
  Json.get "cmd" [("type", Json.Str "audit::proc::report");
                  ("cmd", Json.Str c); ("judge", Json.Int j)]
  = Some (Json.Str c).
Proof. reflexivity. Qed.

(** The simpler worker decodes a report when its judgment is within the
    range of a [float64], and refuses it otherwise. *)
Lemma Judge_unmarshal_report (r : string * Z) :
  Judge.unmarshal (Scenario.report r)
  = if Json.in_float64 (snd r)
    then Some [("type", Json.Str "audit::proc::report");
               ("cmd", Json.Str (fst r)); ("judge", Json.Int (snd r))]
    else None.
Proof.
  unfold Judge.unmarshal, Scenario.report.
  cbn [Json.fits forallb snd andb]. now rewrite andb_true_r.
Qed.

Lemma Judge_body_report (r : string * Z) (w : Judge.ProcessWorker)
    (t : Judge.table) :
  Judge.db w = Some t -> Json.in_float64 (snd r) = true ->
  Judge.body (Scenario.judged (Scenario.report r)) w
  = (let w1 := Judge.store (Some (fst (counted t (fst r)))) w in
     if snd (counted t (fst r)) <? 3 then w1
     else Judge.emit (Send (trusted (fst r))) w1,
     Continue).
Proof.
  intros Hd Hj. unfold Judge.body.
  change (Judge.recv (Scenario.judged (Scenario.report r)))
    with (Received (Scenario.report r)).
  cbn iota. rewrite Judge_unmarshal_report, Hj.
  destruct r as [c j]. cbn [fst snd].
  unfold Scenario.judged.
  cbn [Judge.stop_in_recv Judge.recv Judge.store_fault Judge.send_fails
       Judge.clear].
  rewrite report_type, report_cmd. rewrite String.eqb_refl.
  cbn [negb]. unfold Judge.updateCmdTimes, healthy, counted. rewrite Hd.
  cbn [fst snd].
  destruct (Judge.sqlQueryTimesByCmd c t) as [[i n]|]; cbn [fst snd].
  - destruct (Json.wrap (n + 1) <? 3); reflexivity.
  - reflexivity.
Qed.

(** The count of a command over a sequence of reports, and the trust
    insertions sent for it: one for each report that brings the count to 3
    or more. *)
Lemma Judge_loop_reports (c : string) (rs : list (string * Z)) :
  Forall (fun r => Json.in_float64 (snd r) = true) rs ->
  forall (w : Judge.ProcessWorker) (t : Judge.table) (k : nat),
    Judge.running w = true -> Judge.db w = Some t ->
    NoDup (map Judge.id t) -> times_of c t = Z.of_nat k ->
    Z.of_nat (k + Scenario.reports_of c rs) <= Json.int_max ->
    exists w' t',
      Judge.loop (judging rs) w = (w', Receiving)
      /\ Judge.db w' = Some t'
      /\ t' = counted_all t rs
      /\ times_of c t' = Z.of_nat (k + Scenario.reports_of c rs)
      /\ announced c (Judge.trace w')
         = (announced c (Judge.trace w)
            + ((k + Scenario.reports_of c rs - 2) - (k - 2)))%nat.
Proof.
  induction rs as [|[c' j'] rs IH]; intros Hfit w t k Hw Hd Hn Hk Hb.
  - exists w, t. cbn [judging map Judge.loop]. rewrite Hw.
    unfold Scenario.reports_of. cbn [filter List.length].
    rewrite Nat.add_0_r. repeat split; auto. lia.
  - apply Forall_cons_iff in Hfit as [Hj Hfit]. specialize (IH Hfit).
    cbn [judging map Judge.loop].
    change (Judge.stop_at_head (Scenario.judged (Scenario.report (c', j'))))
      with false.
    cbn [Judge.clear]. rewrite Hw. cbn [negb].
    rewrite (Judge_body_report (c', j') w t Hd Hj). cbn [fst snd].
    destruct (counted_spec t c' Hn) as (Hn1 & Ht1 & Hs1 & Ho1).
    fold (judging rs).
    unfold Scenario.reports_of in *. cbn [filter fst] in Hb |- *.
    destruct (String.eqb c' c) eqn:E.
    + apply String.eqb_eq in E. subst c'. cbn [List.length] in Hb |- *.
      rewrite Hk in Hs1.
      rewrite wrap_small in Hs1
        by (unfold Json.int_min, Json.int_max in *; lia).
      rewrite Hs1 in *.
      destruct (Z.of_nat k + 1 <? 3) eqn:E3.
      * apply Z.ltb_lt in E3.
        destruct (IH (Judge.store (Some (fst (counted t c))) w)
                    (fst (counted t c)) (S k))
          as (w' & t' & Hl & Hd' & Hf' & Ht' & Ha'); auto; try lia.
        exists w', t'. split; [exact Hl|]. split; [exact Hd'|].
        split; [exact Hf'|].
        split; [rewrite Ht'; f_equal; lia|].
        rewrite Ha'. cbn [Judge.trace Judge.store]. lia.
      * apply Z.ltb_ge in E3.
        destruct (IH (Judge.emit (Send (trusted c))
                        (Judge.store (Some (fst (counted t c))) w))
                    (fst (counted t c)) (S k))
          as (w' & t' & Hl & Hd' & Hf' & Ht' & Ha'); auto; try lia.
        exists w', t'. split; [exact Hl|]. split; [exact Hd'|].
        split; [exact Hf'|].
        split; [rewrite Ht'; f_equal; lia|].
        rewrite Ha'. cbn [Judge.trace Judge.store Judge.emit].
        rewrite announced_app. unfold announced at 2.
        cbn [filter]. rewrite is_trusted_trusted, String.eqb_refl.
        cbn [List.length]. lia.
    + assert (Hne : c <> c') by (apply String.eqb_neq in E; congruence).
      specialize (Ho1 c Hne).
      destruct (snd (counted t c') <? 3).
      * destruct (IH (Judge.store (Some (fst (counted t c'))) w)
                    (fst (counted t c')) k)
          as (w' & t' & Hl & Hd' & Hf' & Ht' & Ha'); auto; try congruence.
        exists w', t'. auto 6.
      * destruct (IH (Judge.emit (Send (trusted c'))
                        (Judge.store (Some (fst (counted t c'))) w))
                    (fst (counted t c')) k)
          as (w' & t' & Hl & Hd' & Hf' & Ht' & Ha'); auto; try congruence.
        exists w', t'. split; [exact Hl|]. split; [exact Hd'|].
        split; [exact Hf'|].
        split; [exact Ht'|].
        rewrite Ha'. cbn [Judge.trace Judge.store Judge.emit].
        rewrite announced_app. unfold announced at 2.
        cbn [filter]. rewrite is_trusted_trusted, E.
        cbn [List.length]. lia.
Qed.

Lemma find_first (p : Judge.Row -> bool) (t : Judge.table) :
  find p t = hd_error (filter p t).
Proof.
  induction t as [|r t IH]; [reflexivity|].
  cbn [find filter]. now destruct (p r).
Qed.

Lemma rows_counted (c c' : string) (t : Judge.table) :
  List.length (rows c (fst (counted t c')))
  = if String.eqb c' c && match rows c t with [] => true | _ => false end
    then 1%nat else List.length (rows c t).
Proof.
  unfold counted, Judge.sqlQueryTimesByCmd. rewrite find_first.
  fold (rows c' t).
  destruct (rows c' t) as [|r l] eqn:Hr; cbn [hd_error fst].
  - unfold Judge.sqlInsertCmd, rows at 1. rewrite filter_app.
    cbn [filter Judge.cmd]. fold (rows c t). rewrite length_app.
    destruct (String.eqb c' c) eqn:E; cbn [andb List.length].
    + apply String.eqb_eq in E. subst c'. rewrite Hr. reflexivity.
    + now rewrite Nat.add_0_r.
  - assert (Hlen : List.length
                     (rows c (Judge.sqlUpdateCmdTimes
                                (Json.wrap (Judge.times r + 1)) (Judge.id r) t))
                   = List.length (rows c t)).
    { unfold rows, Judge.sqlUpdateCmdTimes. clear.
      induction t as [|r0 t IH]; [reflexivity|]. cbn [map filter].
      assert (E : Judge.cmd (if Judge.id r0 =? Judge.id r
                             then {| Judge.id := Judge.id r0;
                                     Judge.cmd := Judge.cmd r0;
                                     Judge.times :=
                                       Json.wrap (Judge.times r + 1) |}
                             else r0) = Judge.cmd r0)
        by now destruct (Judge.id r0 =? Judge.id r).
      rewrite E.
      destruct (String.eqb (Judge.cmd r0) c); cbn [List.length];
        now rewrite IH. }
    rewrite Hlen.
    destruct (String.eqb c' c) eqn:E; cbn [andb]; [|reflexivity].
    apply String.eqb_eq in E. subst c'. now rewrite Hr.
Qed.

Lemma rows_counted_all (c : string) (rs : list (string * Z))
    (t : Judge.table) :
  (List.length (rows c t) <= 1)%nat ->
  List.length (rows c (counted_all t rs))
  = if (Scenario.reports_of c rs =? 0)%nat
    then List.length (rows c t) else 1%nat.
Proof.
  revert t. induction rs as [|[c' j'] rs IH]; intros t Ht.
  - reflexivity.
  - unfold counted_all in *. cbn [fold_left fst].
    pose proof (rows_counted c c' t) as H1.
    unfold Scenario.reports_of in *. cbn [filter fst].
    destruct (String.eqb c' c) eqn:E; cbn [andb List.length] in H1 |- *.
    + assert (H2 : List.length (rows c (fst (counted t c'))) = 1%nat).
      { rewrite H1. destruct (rows c t) as [|r [|r' l]];
          cbn [List.length] in Ht |- *; [reflexivity | reflexivity | lia]. }
      rewrite IH by lia. rewrite H2. cbn.
      now destruct (List.length
                      (filter (fun r => String.eqb (fst r) c) rs) =? 0)%nat.
    + rewrite IH by lia. now rewrite H1.
Qed.

(** C4, as the specification states it, fails on the simpler worker: its
    table keeps neither a judgment nor a status, so the first report of a
    command leaves the same row, with the count 1 and nothing else, whether
    the judgment reported is 1 or 0. *)
Lemma C4_occurrence_counterexample :
  Judge.db (fst (Judge.run (judging [(Scenario.ls, 1)]) Scenario.judge0))
  = Some [{| Judge.id := 1; Judge.cmd := Scenario.ls; Judge.times := 1 |}]
  /\ Judge.db (fst (Judge.run (judging [(Scenario.ls, 0)]) Scenario.judge0))
     = Some [{| Judge.id := 1; Judge.cmd := Scenario.ls; Judge.times := 1 |}].
Proof. split; reflexivity. Qed.

(** C4 (amended): take a command with no record in the store and any
    sequence of reports, for this and for other commands, that the running
    agent takes in.  If the command is reported at all, the store of the
    richer worker then holds exactly one record for it, with status 0
    (unclassified), a count equal to the number of its reports and the
    judgment of its last report; so after its first report the count is 1
    and the judgment the one reported.  The simpler worker keeps neither
    judgment nor status: when the judgments of the reports are within the
    range of a [float64], it then holds exactly one row for the command,
    with the number of its reports for count. *)
Theorem C4_occurrence_count :
  (forall split c j rs w t,
      Background.running w = true -> Background.db w = Some t ->
      known c t = false -> Forall (sound split) rs ->
      Scenario.last_judgment c rs = Some j ->
      exists w' t' r,
        Background.run split (hearing rs) w = (w', Receiving)
        /\ Background.db w' = Some t'
        /\ records c t' = [r]
        /\ Background.count r = Z.of_nat (Scenario.reports_of c rs)
        /\ Background.judge r = j
        /\ Background.status r = 0)
  /\ (forall c rs w t,
      Judge.running w = true -> Judge.db w = Some t ->
      NoDup (map Judge.id t) -> unseen c t ->
      Forall (fun r => Json.in_float64 (snd r) = true) rs ->
      (1 <= Scenario.reports_of c rs)%nat ->
      Z.of_nat (Scenario.reports_of c rs) <= Json.int_max ->
      exists w' t' r,
        Judge.run (judging rs) w = (w', Receiving)
        /\ Judge.db w' = Some t'
        /\ rows c t' = [r]
        /\ Judge.times r = Z.of_nat (Scenario.reports_of c rs)).
Proof.
  split.
  - intros split c j rs w t. apply Background_occurrence_count.
  - intros c rs w t Hw Hd Hn Hu Hfit H1 Hb.
    destruct (Judge_loop_reports c rs Hfit w t 0 Hw Hd Hn)
      as (w' & t' & Hl & Hd' & Hf & Ht & _).
    + unfold times_of. now rewrite Hu.
    + exact Hb.
    + assert (Hr : rows c t = []).
      { unfold unseen in Hu. rewrite find_first in Hu. fold (rows c t) in Hu.
        now destruct (rows c t). }
      pose proof (rows_counted_all c rs t) as Hlen.
      rewrite Hr in Hlen. specialize (Hlen (Nat.le_0_l 1)).
      rewrite <- Hf in Hlen.
      destruct (Scenario.reports_of c rs =? 0)%nat eqn:E;
        [apply Nat.eqb_eq in E; lia|].
      unfold times_of in Ht. rewrite find_first in Ht. fold (rows c t') in Ht.
      destruct (rows c t') as [|r [|r' l]] eqn:Hrows;
        cbn [List.length] in Hlen; try discriminate.
      exists w', t', r. unfold Judge.run. rewrite Hl.
      cbn [hd_error] in Ht. auto.
Qed.

Lemma C4_occurrence_count_witness :
  (exists w' t' r,
      Background.run Telegram.ParseHackernelCmd
        (hearing [(Scenario.ls, 1); (Scenario.sh, 0); (Scenario.ls, 0);
                  (Scenario.ls, 1)]) Scenario.background0
      = (w', Receiving)
      /\ Background.db w' = Some t'
      /\ records Scenario.ls t' = [r]
      /\ Background.count r
         = Z.of_nat (Scenario.reports_of Scenario.ls
                       [(Scenario.ls, 1); (Scenario.sh, 0);
                        (Scenario.ls, 0); (Scenario.ls, 1)])
      /\ Background.judge r = 1
      /\ Background.status r = 0)
  /\ (exists w' t' r,
      Judge.run (judging [(Scenario.ls, 1); (Scenario.sh, 0);
                          (Scenario.ls, 0); (Scenario.ls, 1)])
        Scenario.judge0
      = (w', Receiving)
      /\ Judge.db w' = Some t'
      /\ rows Scenario.ls t' = [r]
      /\ Judge.times r
         = Z.of_nat (Scenario.reports_of Scenario.ls
                       [(Scenario.ls, 1); (Scenario.sh, 0);
                        (Scenario.ls, 0); (Scenario.ls, 1)])).
Proof.
  split.
  - apply (proj1 C4_occurrence_count Telegram.ParseHackernelCmd Scenario.ls 1
             [(Scenario.ls, 1); (Scenario.sh, 0); (Scenario.ls, 0);
              (Scenario.ls, 1)] Scenario.background0 []);
      try reflexivity.
    repeat (apply Forall_cons; [split; [discriminate | reflexivity]|]).
    apply Forall_nil.
  - apply (proj2 C4_occurrence_count Scenario.ls
             [(Scenario.ls, 1); (Scenario.sh, 0); (Scenario.ls, 0);
              (Scenario.ls, 1)] Scenario.judge0 []);
      try reflexivity.
    + constructor.
    + repeat (apply Forall_cons; [reflexivity|]). apply Forall_nil.
    + apply Nat.leb_le. reflexivity.
    + discriminate.
Defined.

(** ** Trust insertions during a run *)

Section Silent.

Variable SplitCmd : string -> option (string * string * string).

(** The receive loop of the richer worker sends nothing. *)
Lemma Background_body_sends (x : Background.turn)
    (w : Background.ProcessWorker) :
  sent (Background.trace (fst (Background.body SplitCmd x w)))
  = sent (Background.trace w).
Proof.
  unfold Background.body, sent.
  set (w1 := Background.clear (Background.stop_in_recv x) w).
  assert (H1 : Background.trace w1 = Background.trace w)
    by apply Background_clear_trace.
  destruct (negb (Background.running w1)); [cbn; now rewrite H1|].
  destruct (Background.recv x) as [|t].
  - cbn. rewrite !filter_emit, H1. cbn. now rewrite !app_nil_r.
  - destruct (Background.unmarshal t) as [ev|];
      [|cbn; rewrite !filter_emit, H1; cbn; now rewrite !app_nil_r].
    destruct (String.eqb (Background.Type' ev) "audit::proc::report").
    + pose proof (Background_updateCmd_frame SplitCmd
                    (Background.store_fault x) (Background.Cmd ev)
                    (Background.Judge ev) w1) as [Ht _].
      destruct (Background.updateCmd SplitCmd (Background.store_fault x)
                  (Background.Cmd ev) (Background.Judge ev) w1)
        as [w2 [[e|]|]]; cbn [fst] in Ht |- *;
        cbn [Background.emit Background.trace];
        rewrite ?filter_emit, Ht, H1; cbn; now rewrite ?app_nil_r.
    + destruct (String.eqb (Background.Type' ev) "osinfo::report");
        cbn; rewrite ?filter_emit, H1; cbn; now rewrite ?app_nil_r.
Qed.

Lemma Background_loop_sends (xs : list Background.turn)
    (w : Background.ProcessWorker) :
  sent (Background.trace (fst (Background.loop SplitCmd xs w)))
  = sent (Background.trace w).
Proof.
  revert w. induction xs as [|x xs IH]; intros w; cbn [Background.loop].
  - reflexivity.
  - destruct (negb (Background.running
                      (Background.clear (Background.stop_at_head x) w))).
    + cbn. now rewrite Background_clear_trace.
    + pose proof (Background_body_sends x
                    (Background.clear (Background.stop_at_head x) w)) as Hb.
      destruct (Background.body SplitCmd x
                  (Background.clear (Background.stop_at_head x) w))
        as [w' [| |]]; cbn [fst] in Hb |- *;
        rewrite ?IH, Hb; now rewrite Background_clear_trace.
Qed.

Lemma Background_run_sends (xs : list Background.turn)
    (w : Background.ProcessWorker) :
  sent (Background.trace (fst (Background.run SplitCmd xs w)))
  = sent (Background.trace w).
Proof.
  unfold Background.run.
  pose proof (Background_loop_sends xs
                (Background.emit (DogNew (10 * Second) Background.callback) w)) as H.
  assert (H0 : sent (Background.trace
                       (Background.emit
                          (DogNew (10 * Second) Background.callback) w))
               = sent (Background.trace w)).
  { unfold sent. cbn. rewrite filter_emit. cbn. now rewrite app_nil_r. }
  rewrite H0 in H.
  destruct (Background.loop SplitCmd xs
              (Background.emit (DogNew (10 * Second) Background.callback) w)) as [w' [| |]];
    cbn [fst] in H |- *; try exact H;
    unfold sent in *; cbn; rewrite filter_emit, H; cbn; now rewrite app_nil_r.
Qed.

End Silent.

(** C1, as the specification states it, fails on the code: after four
    reports of one command the simpler worker has sent two trust
    insertions for it, not one; and the richer worker, whose count for the
    command has reached 3 after three reports, has sent none. *)
Lemma C1_promotion_counterexample :
  let w := fst (Judge.run (judging [(Scenario.ls, 1); (Scenario.ls, 1);
                                    (Scenario.ls, 1); (Scenario.ls, 1)])
                  Scenario.judge0) in
  let w' := fst (Background.run Telegram.ParseHackernelCmd
                   (hearing [(Scenario.ls, 1); (Scenario.ls, 1);
                             (Scenario.ls, 1)]) Scenario.background0) in
  announced Scenario.ls (Judge.trace w) = 2%nat
  /\ option_map (map Background.count) (Background.db w') = Some [3]
  /\ announced Scenario.ls (Background.trace w') = 0%nat.
Proof. repeat split; reflexivity. Qed.

(** C1 (amended): in the simpler worker every report of a command that
    brings its count to 3 or more sends one trust insertion for it, and a
    report that leaves the count below 3 sends none.  So over a run, for a
    command whose count was [k], [n] reports send one insertion each but for
    the first [2 - k] of them: for a command not seen before the third
    report sends the first insertion and each later report one more.  The
    reports are those the worker decodes, their judgment within the range of
    a [float64].  The receive loop of the richer worker sends no message at
    all. *)
Theorem C1_trust_insertions :
  (forall r w t,
      Judge.db w = Some t -> NoDup (map Judge.id t) ->
      Json.in_float64 (snd r) = true ->
      let n := Json.wrap (times_of (fst r) t + 1) in
      exists w' t',
        Judge.body (Scenario.judged (Scenario.report r)) w = (w', Continue)
        /\ Judge.db w' = Some t'
        /\ times_of (fst r) t' = n
        /\ Judge.trace w'
           = Judge.trace w
             ++ (if n <? 3 then [] else [Send (trusted (fst r))]))
  /\ (forall c rs w t k,
      Judge.running w = true -> Judge.db w = Some t ->
      NoDup (map Judge.id t) -> times_of c t = Z.of_nat k ->
      Forall (fun r => Json.in_float64 (snd r) = true) rs ->
      Z.of_nat (k + Scenario.reports_of c rs) <= Json.int_max ->
      exists w',
        Judge.run (judging rs) w = (w', Receiving)
        /\ announced c (Judge.trace w')
           = (announced c (Judge.trace w)
              + (Scenario.reports_of c rs - (2 - k)))%nat)
  /\ (forall split xs w,
        sent (Background.trace (fst (Background.run split xs w)))
        = sent (Background.trace w)).
Proof.
  split; [|split].
  - intros r w t Hd Hn Hj n.
    rewrite (Judge_body_report r w t Hd Hj).
    destruct (counted_spec t (fst r) Hn) as (_ & Ht1 & Hs1 & _).
    fold n in Hs1. rewrite Hs1 in *. cbn zeta.
    destruct (n <? 3); eexists _, _;
      (split; [reflexivity|]); cbn [Judge.db Judge.store Judge.emit Judge.trace];
      (split; [reflexivity|]); (split; [exact Ht1|]);
      [now rewrite app_nil_r | reflexivity].
  - intros c rs w t k Hw Hd Hn Hk Hfit Hb.
    destruct (Judge_loop_reports c rs Hfit w t k Hw Hd Hn Hk Hb)
      as (w' & t' & Hl & _ & _ & _ & Ha).
    exists w'. unfold Judge.run. rewrite Hl. split; [reflexivity|].
    rewrite Ha. lia.
  - intros split xs w. apply Background_run_sends.
Qed.

Lemma C1_trust_insertions_witness :
  (exists w' t',
      Judge.body (Scenario.judged (Scenario.report (Scenario.ls, 1)))
        {| Judge.running := true;
           Judge.db := Some [{| Judge.id := 1; Judge.cmd := Scenario.ls;
                                Judge.times := 2 |}];
           Judge.trace := [] |}
      = (w', Continue)
      /\ Judge.db w' = Some t'
      /\ times_of Scenario.ls t' = 3
      /\ Judge.trace w' = [Send (trusted Scenario.ls)])
  /\ (exists w',
      Judge.run (judging [(Scenario.ls, 1); (Scenario.sh, 1); (Scenario.ls, 0);
                          (Scenario.ls, 1); (Scenario.ls, 1); (Scenario.ls, 1)])
        Scenario.judge0 = (w', Receiving)
      /\ announced Scenario.ls (Judge.trace w') = (0 + (5 - (2 - 0)))%nat).
Proof.
  split.
  - apply (proj1 C1_trust_insertions (Scenario.ls, 1)
             {| Judge.running := true;
                Judge.db := Some [{| Judge.id := 1; Judge.cmd := Scenario.ls;
                                     Judge.times := 2 |}];
                Judge.trace := [] |}
             [{| Judge.id := 1; Judge.cmd := Scenario.ls; Judge.times := 2 |}]);
      try reflexivity.
    repeat constructor. cbn. tauto.
  - apply (proj1 (proj2 C1_trust_insertions) Scenario.ls
             [(Scenario.ls, 1); (Scenario.sh, 1); (Scenario.ls, 0);
              (Scenario.ls, 1); (Scenario.ls, 1); (Scenario.ls, 1)]
             Scenario.judge0 [] 0%nat); try reflexivity.
    + constructor.
    + repeat (apply Forall_cons; [reflexivity|]). apply Forall_nil.
    + discriminate.
Defined.

(** ** The watchdog *)

Section Extending.

Variable SplitCmd : string -> option (string * string * string).

Lemma Background_body_extends (x : Background.turn)
    (w : Background.ProcessWorker) :
  exists more,
    Background.trace (fst (Background.body SplitCmd x w))
    = Background.trace w ++ more.
Proof.
  unfold Background.body.
  set (w1 := Background.clear (Background.stop_in_recv x) w).
  assert (H1 : Background.trace w1 = Background.trace w)
    by apply Background_clear_trace.
  destruct (negb (Background.running w1));
    [exists []; cbn; now rewrite H1, app_nil_r|].
  destruct (Background.recv x) as [|t];
    [eexists; cbn; rewrite H1, <- app_assoc; reflexivity|].
  destruct (Background.unmarshal t) as [ev|];
    [|eexists; cbn; rewrite H1, <- app_assoc; reflexivity].
  destruct (String.eqb (Background.Type' ev) "audit::proc::report").
  - pose proof (Background_updateCmd_frame SplitCmd
                  (Background.store_fault x) (Background.Cmd ev)
                  (Background.Judge ev) w1) as [Ht _].
    destruct (Background.updateCmd SplitCmd (Background.store_fault x)
                (Background.Cmd ev) (Background.Judge ev) w1)
      as [w2 [[e|]|]]; cbn [fst] in Ht |- *.
    + eexists; cbn; rewrite Ht, H1, <- app_assoc; reflexivity.
    + exists []; now rewrite Ht, H1, app_nil_r.
    + exists []; now rewrite Ht, H1, app_nil_r.
  - destruct (String.eqb (Background.Type' ev) "osinfo::report").
    + eexists; cbn; rewrite H1; reflexivity.
    + exists []; cbn; now rewrite H1, app_nil_r.
Qed.

Lemma Background_loop_extends (xs : list Background.turn)
    (w : Background.ProcessWorker) :
  exists more,
    Background.trace (fst (Background.loop SplitCmd xs w))
    = Background.trace w ++ more.
Proof.
  revert w. induction xs as [|x xs IH]; intros w; cbn [Background.loop].
  - exists []. cbn. now rewrite app_nil_r.
  - set (w0 := Background.clear (Background.stop_at_head x) w).
    assert (H0 : Background.trace w0 = Background.trace w)
      by apply Background_clear_trace.
    destruct (negb (Background.running w0));
      [exists []; cbn; now rewrite H0, app_nil_r|].
    destruct (Background_body_extends x w0) as [m1 H1].
    destruct (Background.body SplitCmd x w0) as [w' [| |]]; cbn [fst] in H1 |- *.
    + destruct (IH w') as [m2 H2]. exists (m1 ++ m2).
      now rewrite H2, H1, H0, app_assoc.
    + exists m1. now rewrite H1, H0.
    + exists m1. now rewrite H1, H0.
Qed.

End Extending.

Section Watching.

Variable SplitCmd : string -> option (string * string * string).

(** What a turn of the richer worker does with the watchdog: it arms none,
    and a turn that goes on to the next has kicked it exactly when it has
    received a heartbeat. *)
Lemma Background_body_watch (x : Background.turn)
    (w : Background.ProcessWorker) :
  exists more,
    Background.trace (fst (Background.body SplitCmd x w))
    = Background.trace w ++ more
    /\ filter is_arming more = []
    /\ (snd (Background.body SplitCmd x w) = Continue ->
        filter is_kick more = if is_beat x then [Kick] else []).
Proof.
  unfold Background.body, is_beat.
  set (w1 := Background.clear (Background.stop_in_recv x) w).
  assert (H1 : Background.trace w1 = Background.trace w)
    by apply Background_clear_trace.
  destruct (negb (Background.running w1)).
  { exists []. cbn [fst snd]. rewrite H1, app_nil_r.
    split; [reflexivity|]. split; [reflexivity | discriminate]. }
  destruct (Background.recv x) as [|t].
  { exists [LogError ErrRecv; Kill]. cbn [fst snd].
    cbn [Background.emit Background.trace]. rewrite H1, <- app_assoc.
    split; [reflexivity|]. split; reflexivity. }
  destruct (Background.unmarshal t) as [ev|].
  2:{ exists [LogError ErrJson; Kill]. cbn [fst snd].
      cbn [Background.emit Background.trace]. rewrite H1, <- app_assoc.
      split; [reflexivity|]. split; reflexivity. }
  destruct (String.eqb (Background.Type' ev) "audit::proc::report") eqn:Ea.
  - apply String.eqb_eq in Ea. rewrite Ea.
    change (String.eqb "audit::proc::report" "osinfo::report") with false.
    pose proof (Background_updateCmd_frame SplitCmd
                  (Background.store_fault x) (Background.Cmd ev)
                  (Background.Judge ev) w1) as [Ht _].
    destruct (Background.updateCmd SplitCmd (Background.store_fault x)
                (Background.Cmd ev) (Background.Judge ev) w1)
      as [w2 [[e|]|]]; cbn [fst snd] in Ht |- *.
    + exists [LogError e; Kill]. cbn [Background.emit Background.trace].
      rewrite Ht, H1, <- app_assoc.
      split; [reflexivity|]. split; reflexivity.
    + exists []. rewrite Ht, H1, app_nil_r.
      split; [reflexivity|]. split; reflexivity.
    + exists []. rewrite Ht, H1, app_nil_r.
      split; [reflexivity|]. split; [reflexivity | discriminate].
  - destruct (String.eqb (Background.Type' ev) "osinfo::report").
    + exists [Kick]. cbn [fst snd Background.emit Background.trace].
      rewrite H1. split; [reflexivity|]. split; reflexivity.
    + exists []. cbn [fst snd]. rewrite H1, app_nil_r.
      split; [reflexivity|]. split; reflexivity.
Qed.

Lemma Background_loop_watch (xs : list Background.turn)
    (w : Background.ProcessWorker) :
  exists more,
    Background.trace (fst (Background.loop SplitCmd xs w))
    = Background.trace w ++ more
    /\ filter is_arming more = []
    /\ (snd (Background.loop SplitCmd xs w) = Receiving ->
        List.length (filter is_kick more) = List.length (filter is_beat xs)).
Proof.
  revert w. induction xs as [|x xs IH]; intros w; cbn [Background.loop].
  - exists []. cbn [fst]. rewrite app_nil_r.
    split; [reflexivity|]. split; reflexivity.
  - set (w0 := Background.clear (Background.stop_at_head x) w).
    assert (H0 : Background.trace w0 = Background.trace w)
      by apply Background_clear_trace.
    destruct (negb (Background.running w0)).
    { exists []. cbn [fst snd]. rewrite H0, app_nil_r.
      split; [reflexivity|]. split; [reflexivity | discriminate]. }
    destruct (Background_body_watch x w0) as (m1 & H1 & A1 & K1).
    destruct (Background.body SplitCmd x w0) as [w' [| |]];
      cbn [fst snd] in H1, K1 |- *.
    + destruct (IH w') as (m2 & H2 & A2 & K2). exists (m1 ++ m2).
      rewrite H2, H1, H0, app_assoc, !filter_app, A1, A2.
      split; [reflexivity|]. split; [reflexivity|].
      intros Hr. rewrite length_app, (K2 Hr), (K1 eq_refl).
      cbn [filter]. now destruct (is_beat x).
    + exists m1. rewrite H1, H0.
      split; [reflexivity|]. split; [exact A1 | discriminate].
    + exists m1. rewrite H1, H0.
      split; [reflexivity|]. split; [exact A1 | discriminate].
Qed.

(** A heartbeat received while the agent runs kicks the watchdog. *)
Lemma Background_body_beat (w : Background.ProcessWorker) :
  Background.running w = true ->
  Background.body SplitCmd (Scenario.heard Scenario.heartbeat) w
  = (Background.emit Kick w, Continue).
Proof.
  intros Hw. unfold Background.body, Scenario.heard.
  cbn [Background.stop_in_recv Background.recv Background.store_fault
       Background.clear].
  rewrite Hw. reflexivity.
Qed.

(** The loop over messages it takes in: one kick for each heartbeat and
    nothing else, and it goes on receiving. *)
Lemma Background_loop_messages (ms : list (Z * inbound)) :
  forall (w : Background.ProcessWorker) (t : Background.table),
    Background.running w = true -> Background.db w = Some t ->
    Forall (taken_in SplitCmd) ms ->
    exists w',
      Background.loop SplitCmd (map snd (arriving ms)) w = (w', Receiving)
      /\ Background.trace w'
         = Background.trace w ++ repeat Kick (List.length (beats ms)).
Proof.
  induction ms as [|[now [|r]] ms IH]; intros w t Hw Hd Hs.
  - exists w. cbn. rewrite Hw, app_nil_r. now split.
  - apply Forall_cons_iff in Hs as [_ Hs].
    cbn [arriving map snd fst document Background.loop].
    change (Background.stop_at_head (Scenario.heard Scenario.heartbeat))
      with false.
    cbn [Background.clear]. rewrite Hw. cbn [negb].
    rewrite (Background_body_beat w Hw).
    destruct (IH (Background.emit Kick w) t Hw Hd Hs) as (w' & Hl & Ht).
    exists w'. split; [exact Hl|]. rewrite Ht.
    cbn [Background.emit Background.trace beats List.length repeat].
    now rewrite <- app_assoc.
  - apply Forall_cons_iff in Hs as [Hr Hs]. cbn [taken_in snd] in Hr.
    cbn [arriving map snd fst document Background.loop].
    change (Background.stop_at_head (Scenario.heard (Scenario.report r)))
      with false.
    cbn [Background.clear]. rewrite Hw. cbn [negb].
    rewrite (body_report SplitCmd r w t Hw Hd Hr).
    destruct (IH (Background.store (Some (recorded SplitCmd t r)) w)
                (recorded SplitCmd t r) Hw eq_refl Hs) as (w' & Hl & Ht).
    exists w'. split; [exact Hl|]. exact Ht.
Qed.

Lemma so_far_messages (ms : list (Z * inbound))
    (w : Background.ProcessWorker) (t : Background.table) :
  Background.running w = true -> Background.db w = Some t ->
  Forall (taken_in SplitCmd) ms ->
  Liveness.so_far SplitCmd (map snd (arriving ms)) w
  = Background.trace w
    ++ DogNew (10 * Second) Background.callback
       :: repeat Kick (List.length (beats ms)).
Proof.
  intros Hw Hd Hs. unfold Liveness.so_far, Background.run.
  destruct (Background_loop_messages ms
              (Background.emit (DogNew (10 * Second) Background.callback) w)
              t Hw Hd Hs) as (w' & Hl & Ht).
  rewrite Hl. cbn [fst]. rewrite Ht.
  cbn [Background.emit Background.trace]. now rewrite <- app_assoc.
Qed.

End Watching.

Lemma skipn_length_app (A : Type) (l m : list A) :
  skipn (List.length l) (l ++ m) = m.
Proof. induction l as [|a l IH]; [reflexivity | exact IH]. Qed.

Lemma beats_app (ms ms' : list (Z * inbound)) :
  beats (ms ++ ms') = beats ms ++ beats ms'.
Proof.
  induction ms as [|[now [|r]] ms IH]; cbn [app beats];
    [reflexivity | now rewrite IH | exact IH].
Qed.

(** The steps of the timeline for messages the worker takes in: a kick at
    the time of each heartbeat. *)
Lemma stamps_messages (split : string -> option (string * string * string))
    (coming : list (Z * inbound)) :
  forall (taken : list (Z * inbound)) (w : Background.ProcessWorker)
         (t : Background.table),
    Background.running w = true -> Background.db w = Some t ->
    Forall (taken_in split) (taken ++ coming) ->
    Liveness.stamps split (map snd (arriving taken)) (arriving coming) w
    = map (fun now => (now, Kick)) (beats coming).
Proof.
  induction coming as [|[now m] coming IH]; intros taken w t Hw Hd Hs.
  - reflexivity.
  - cbn [arriving map fst snd Liveness.stamps].
    assert (Hs1 : Forall (taken_in split) (taken ++ [(now, m)])).
    { apply Forall_app in Hs as [H1 H2]. apply Forall_app. split; [exact H1|].
      apply Forall_cons_iff in H2 as [H2 _]. now constructor. }
    assert (Ht : Forall (taken_in split) taken)
      by (apply Forall_app in Hs1; tauto).
    assert (E : map snd (arriving taken) ++ [Scenario.heard (document m)]
                = map snd (arriving (taken ++ [(now, m)]))).
    { unfold arriving. now rewrite !map_app. }
    rewrite E.
    rewrite (so_far_messages split taken w t Hw Hd Ht).
    rewrite (so_far_messages split _ w t Hw Hd Hs1).
    rewrite beats_app, (length_app (beats taken)), repeat_app.
    change (DogNew (10 * Second) Background.callback
            :: repeat Kick (List.length (beats taken))
               ++ repeat Kick (List.length (beats [(now, m)])))
      with ((DogNew (10 * Second) Background.callback
             :: repeat Kick (List.length (beats taken)))
            ++ repeat Kick (List.length (beats [(now, m)]))).
    rewrite app_assoc, skipn_length_app.
    fold (arriving coming).
    rewrite (IH (taken ++ [(now, m)]) w t Hw Hd)
      by now rewrite <- app_assoc.
    destruct m as [|r]; reflexivity.
Qed.

(** Over kicks alone the watchdog fires once for each silence. *)
Lemma supervise_kicks (cb : list effect) (ns until : Z) (kicks : list Z) :
  forall last,
    Watchdog.supervise
      (Some ({| Watchdog.interval := ns;
                Watchdog.deadline := Some (last + ns) |}, cb))
      (map (fun now => (now, Kick)) kicks) until
    = List.concat (repeat cb (silences ns last kicks until)).
Proof.
  induction kicks as [|t kicks IH]; intros last.
  - cbn [map Watchdog.supervise silences]. unfold Watchdog.expire.
    cbn [Watchdog.deadline].
    destruct (last + ns <=? until); cbn; now rewrite ?app_nil_r.
  - cbn [map Watchdog.supervise silences]. unfold Watchdog.expire.
    cbn [Watchdog.deadline fst snd].
    destruct (last + ns <=? t); unfold Watchdog.Kick;
      cbn [fst snd Watchdog.interval]; rewrite IH; reflexivity.
Qed.

Lemma last_kick (kicks : list Z) (t last last' : Z) :
  List.last (t :: kicks) last = List.last (t :: kicks) last'.
Proof.
  revert t. induction kicks as [|t' kicks IH]; intros t; [reflexivity|].
  exact (IH t').
Qed.

Lemma silences_punctual (ns until : Z) (kicks : list Z) :
  forall last,
    punctual ns last kicks ->
    silences ns last kicks until
    = if List.last kicks last + ns <=? until then 1%nat else 0%nat.
Proof.
  induction kicks as [|t kicks IH]; intros last Hp.
  - reflexivity.
  - destruct Hp as [Ht Hp]. cbn [silences]. rewrite (IH t Hp).
    assert (E : (last + ns <=? t) = false) by (apply Z.leb_gt; lia).
    rewrite E. cbn [Nat.add].
    destruct kicks as [|t' kicks]; [reflexivity|].
    change (List.last (t :: t' :: kicks) last)
      with (List.last (t' :: kicks) last).
    now rewrite (last_kick kicks t' last t).
Qed.

(** C7: the receive loop arms one watchdog, at its start, with an interval
    of ten seconds and a callback that logs the timeout and asks once for
    the termination of the process, and arms no other.  A run that still
    receives has kicked the watchdog once for each turn in which a message
    of type [osinfo::report] was decoded.  With the watchdog as the
    specification describes it, and messages the worker takes in arriving
    at given times: by any time the callback has run once for each wait of
    ten seconds without a heartbeat, after the start or after a heartbeat;
    so with no heartbeat at all it has run once when ten seconds have passed
    since the start and not before, and with heartbeats that each come
    before the deadline it has run once when ten seconds have passed since
    the last of them and not before. *)
Theorem C7_watchdog_liveness :
  (forall split xs w,
      exists more,
        Background.trace (fst (Background.run split xs w))
        = Background.trace w
          ++ DogNew (10 * Second) [LogText "osinfo::report timeout"; Kill]
             :: more
        /\ filter is_arming more = [])
  /\ 10 * Second = 10000000000
  /\ Watchdog.kills [LogText "osinfo::report timeout"; Kill] = 1%nat
  /\ (forall split xs w w',
        Background.run split xs w = (w', Receiving) ->
        exists more,
          Background.trace w' = Background.trace w ++ more
          /\ List.length (filter is_kick more)
             = List.length (filter is_beat xs))
  /\ (forall split start until ms w t,
        Background.running w = true -> Background.db w = Some t ->
        Forall (taken_in split) ms ->
        Liveness.alarms split start until (arriving ms) w
        = List.concat
            (repeat [LogText "osinfo::report timeout"; Kill]
               (silences (10 * Second) start (beats ms) until)))
  /\ (forall split start until ms w t,
        Background.running w = true -> Background.db w = Some t ->
        Forall (taken_in split) ms -> beats ms = [] ->
        Liveness.alarms split start until (arriving ms) w
        = if start + 10 * Second <=? until
          then [LogText "osinfo::report timeout"; Kill] else [])
  /\ (forall split start until ms w t,
        Background.running w = true -> Background.db w = Some t ->
        Forall (taken_in split) ms ->
        punctual (10 * Second) start (beats ms) ->
        Liveness.alarms split start until (arriving ms) w
        = if List.last (beats ms) start + 10 * Second <=? until
          then [LogText "osinfo::report timeout"; Kill] else []).
Proof.
  assert (General : forall split start until ms w t,
        Background.running w = true -> Background.db w = Some t ->
        Forall (taken_in split) ms ->
        Liveness.alarms split start until (arriving ms) w
        = List.concat
            (repeat [LogText "osinfo::report timeout"; Kill]
               (silences (10 * Second) start (beats ms) until))).
  { intros split start until ms w t Hw Hd Hs.
    unfold Liveness.alarms, Liveness.timeline.
    pose proof (so_far_messages split [] w t Hw Hd (Forall_nil _)) as H0.
    pose proof (stamps_messages split ms [] w t Hw Hd Hs) as H1.
    cbn [arriving map beats List.length repeat] in H0, H1.
    rewrite H0, H1, skipn_length_app.
    cbn [map app Watchdog.supervise].
    unfold Watchdog.New. apply supervise_kicks. }
  repeat apply conj; try reflexivity.
  - intros split xs w. unfold Background.run.
    destruct (Background_loop_watch split xs
                (Background.emit (DogNew (10 * Second) Background.callback) w))
      as (m & Hm & Ha & _).
    destruct (Background.loop split xs
                (Background.emit (DogNew (10 * Second) Background.callback) w))
      as [w' [| |]];
      cbn [fst] in Hm |- *; cbn [Background.emit Background.trace] in Hm |- *;
      rewrite Hm, <- ?app_assoc; cbn [app].
    + exists m. now split.
    + exists (m ++ [Done]). split; [reflexivity|].
      rewrite filter_app, Ha. reflexivity.
    + exists (m ++ [Done]). split; [reflexivity|].
      rewrite filter_app, Ha. reflexivity.
  - intros split xs w w' Hr. unfold Background.run in Hr.
    destruct (Background_loop_watch split xs
                (Background.emit (DogNew (10 * Second) Background.callback) w))
      as (m & Hm & _ & Hk).
    destruct (Background.loop split xs
                (Background.emit (DogNew (10 * Second) Background.callback) w))
      as [w1 [| |]]; try discriminate.
    injection Hr as <-. cbn [fst snd] in Hm, Hk.
    exists (DogNew (10 * Second) Background.callback :: m).
    rewrite Hm. cbn [Background.emit Background.trace].
    rewrite <- app_assoc. split; [reflexivity|].
    cbn [filter is_kick]. exact (Hk eq_refl).
  - exact General.
  - intros split start until ms w t Hw Hd Hs Hb.
    rewrite (General split start until ms w t Hw Hd Hs), Hb.
    cbn [silences]. now destruct (start + 10 * Second <=? until).
  - intros split start until ms w t Hw Hd Hs Hp.
    rewrite (General split start until ms w t Hw Hd Hs).
    rewrite (silences_punctual _ _ _ _ Hp).
    now destruct (List.last (beats ms) start + 10 * Second <=? until).
Qed.

Lemma C7_watchdog_liveness_witness :
  let ms := [(2 * Second, Report (Scenario.ls, 1)); (4 * Second, Beat);
             (9 * Second, Report (Scenario.sh, 0)); (13 * Second, Beat);
             (30 * Second, Report (Scenario.ls, 1))] in
  (exists more,
      Background.trace
        (fst (Background.run Telegram.ParseHackernelCmd
                (map snd (arriving ms)) Scenario.background0))
      = [] ++ more
      /\ List.length (filter is_kick more)
         = List.length (filter is_beat (map snd (arriving ms))))
  /\ Liveness.alarms Telegram.ParseHackernelCmd 0 (40 * Second)
       (arriving ms) Scenario.background0
     = List.concat
         (repeat [LogText "osinfo::report timeout"; Kill]
            (silences (10 * Second) 0 (beats ms) (40 * Second)))
  /\ Liveness.alarms Telegram.ParseHackernelCmd 0 (10 * Second)
       (arriving [(2 * Second, Report (Scenario.ls, 1))])
       Scenario.background0
     = (if 0 + 10 * Second <=? 10 * Second
        then [LogText "osinfo::report timeout"; Kill] else [])
  /\ Liveness.alarms Telegram.ParseHackernelCmd 0 (40 * Second)
       (arriving ms) Scenario.background0
     = (if List.last (beats ms) 0 + 10 * Second <=? 40 * Second
        then [LogText "osinfo::report timeout"; Kill] else []).
Proof.
  intros ms.
  assert (Hs : Forall (taken_in Telegram.ParseHackernelCmd) ms).
  { repeat (apply Forall_cons;
            [first [exact I | split; [discriminate | reflexivity]]|]).
    apply Forall_nil. }
  destruct C7_watchdog_liveness as (_ & _ & _ & Kicks & General & Silent & Steady).
  repeat apply conj.
  - apply (Kicks Telegram.ParseHackernelCmd (map snd (arriving ms))
             Scenario.background0
             (fst (Background.run Telegram.ParseHackernelCmd
                     (map snd (arriving ms)) Scenario.background0))).
    reflexivity.
  - apply (General Telegram.ParseHackernelCmd 0 (40 * Second) ms
             Scenario.background0 []); [reflexivity | reflexivity | exact Hs].
  - apply (Silent Telegram.ParseHackernelCmd 0 (10 * Second)
             [(2 * Second, Report (Scenario.ls, 1))]
             Scenario.background0 []); try reflexivity.
    apply Forall_cons; [split; [discriminate | reflexivity] | apply Forall_nil].
  - apply (Steady Telegram.ParseHackernelCmd 0 (40 * Second) ms
             Scenario.background0 []); try reflexivity; [exact Hs|].
    cbn. unfold Second. lia.
Defined.

(* ================================================================= *)
(** * Part III: further properties of the code *)
(* ================================================================= *)

Import More.

(** ** Starting *)

Lemma Background_initDB_healthy (f : fault) (w : Background.ProcessWorker) :
  (forall s, f s = false) ->
  Background.initDB f w
  = (Background.store (Some (created (Background.db w))) w, None).
Proof.
  intros Hf. unfold Background.initDB, Background.sqlCreateIndex.
  rewrite !Hf. cbn [Background.store Background.db Background.running
                    Background.trace].
  now destruct (Background.db w).
Qed.

Lemma Judge_initDB_healthy (f : fault) (w : Judge.ProcessWorker) :
  (forall s, f s = false) ->
  Judge.initDB f w
  = (Judge.store (Some (match Judge.db w with Some t => t | None => [] end)) w,
     None).
Proof.
  intros Hf. unfold Judge.initDB. rewrite !Hf.
  now destruct (Judge.db w).
Qed.

(** X1: when no call fails, the start of the richer worker sets the flag,
    creates the table if there is none and keeps it otherwise, sends the
    enable message exactly when the configuration reads as enabled, then
    the two subscriptions, then one trust insertion for each record with
    status 2, and reaches the spawning of the loop. *)
Theorem Start_sends_in_order (on : Z) (env : BackgroundStart.starting)
    (w : Background.ProcessWorker) :
  smooth env ->
  exists w',
    BackgroundStart.Start on env w = (w', None, true)
    /\ Background.running w' = true
    /\ Background.db w' = Some (created (Background.db w))
    /\ Background.trace w'
       = Background.trace w
         ++ (if BackgroundStart.enabled on (BackgroundStart.core_status env)
             then [Send [("type", "user::proc::enable")]] else [])
         ++ [Send [("type", "user::msg::sub");
                   ("section", "audit::proc::report")];
             Send [("type", "user::msg::sub"); ("section", "osinfo::report")]]
         ++ insertions (replayed (Some (created (Background.db w)))).
Proof.
  intros (Hc & Hi & He & Ha & Ho & Hr). unfold BackgroundStart.Start.
  rewrite Hc, (Background_initDB_healthy _ _ Hi), He, Ha, Ho.
  unfold Background.initTrustedCmd. rewrite !Hr.
  destruct (BackgroundStart.enabled on (BackgroundStart.core_status env));
    cbn [Background.db Background.emit Background.store Background.flag];
    rewrite Background_replay_healthy by exact Hr;
    eexists; (split; [reflexivity|]);
    cbn [Background.running Background.db Background.trace replayed
         Background.emit Background.store Background.flag];
    repeat split; rewrite <- ?app_assoc; reflexivity.
Qed.

Lemma Start_sends_in_order_witness :
  let row i c s :=
    {| Background.id := i; Background.cmd := c;
       Background.workdir := "/home"; Background.binary := "/bin/ls";
       Background.argv := c; Background.count := 4; Background.judge := 1;
       Background.status := s |} in
  let env := {| BackgroundStart.connect := None;
                BackgroundStart.init_fault := healthy;
                BackgroundStart.core_status := (1, None);
                BackgroundStart.enable := None;
                BackgroundStart.sub_audit := None;
                BackgroundStart.sub_osinfo := None;
                BackgroundStart.replay_fault := healthy;
                BackgroundStart.replay_sends := fun _ => true |} in
  let w := BackgroundStart.NewProcessWorker (Some [row 1 "a" 0; row 2 "b" 2]) in
  exists w',
    BackgroundStart.Start 1 env w = (w', None, true)
    /\ Background.running w' = true
    /\ Background.db w' = Some [row 1 "a" 0; row 2 "b" 2]
    /\ Background.trace w'
       = [] ++ [Send [("type", "user::proc::enable")]]
         ++ [Send [("type", "user::msg::sub");
                   ("section", "audit::proc::report")];
             Send [("type", "user::msg::sub"); ("section", "osinfo::report")]]
         ++ [Send (trusted "b")].
Proof.
  intros row env w.
  apply (Start_sends_in_order 1 env w).
  unfold smooth. cbn. repeat split; reflexivity.
Defined.

Lemma Background_initDB_frame (f : fault) (w : Background.ProcessWorker) :
  Background.running (fst (Background.initDB f w)) = Background.running w
  /\ Background.trace (fst (Background.initDB f w)) = Background.trace w
  /\ (Background.db (fst (Background.initDB f w)) = Background.db w
      \/ (Background.db w = None
          /\ Background.db (fst (Background.initDB f w)) = Some [])).
Proof.
  unfold Background.initDB, Background.sqlCreateIndex.
  destruct (f Open); [cbn; auto|].
  destruct (f ExecCreateTable); [cbn; auto|].
  destruct (f ExecCreateIndex); [|destruct (f ConfigNew)];
    cbn; (split; [reflexivity|]); (split; [reflexivity|]);
    destruct (Background.db w); cbn; auto.
Qed.

Lemma Background_replay_frame (f : fault) (sf : nat -> bool)
    (rows : list string) (n : nat) (w : Background.ProcessWorker) :
  Background.running (fst (Background.replay f sf n rows w))
  = Background.running w
  /\ Background.db (fst (Background.replay f sf n rows w)) = Background.db w.
Proof.
  revert n w. induction rows as [|c rows IH]; intros n w;
    cbn [Background.replay].
  - destruct (f (Next n)); cbn; auto.
  - destruct (f (Next n)); [cbn; auto|].
    destruct (f (ScanRow n)); [cbn; auto|].
    destruct (IH (S n) (fst (Background.setTrustedCmd (sf n) c w))) as [H1 H2].
    rewrite H1, H2. cbn. auto.
Qed.

Lemma Background_initTrustedCmd_frame (f : fault) (sf : nat -> bool)
    (w : Background.ProcessWorker) :
  Background.running (fst (Background.initTrustedCmd f sf w))
  = Background.running w
  /\ Background.db (fst (Background.initTrustedCmd f sf w)) = Background.db w.
Proof.
  unfold Background.initTrustedCmd.
  destruct (f Open); [cbn; auto|].
  destruct (Background.db w) as [t|] eqn:Hd; [|cbn; auto].
  destruct (f PrepareQuery); [cbn; auto|].
  destruct (f Query); [cbn; auto|].
  rewrite <- Hd. apply Background_replay_frame.
Qed.

Lemma Judge_initDB_frame (f : fault) (w : Judge.ProcessWorker) :
  Judge.running (fst (Judge.initDB f w)) = Judge.running w
  /\ Judge.trace (fst (Judge.initDB f w)) = Judge.trace w
  /\ (Judge.db (fst (Judge.initDB f w)) = Judge.db w
      \/ (Judge.db w = None /\ Judge.db (fst (Judge.initDB f w)) = Some [])).
Proof.
  unfold Judge.initDB.
  destruct (f Open); [cbn; auto|].
  destruct (f ExecCreateTable); [cbn; auto|].
  cbn. (split; [reflexivity|]); (split; [reflexivity|]).
  destruct (Judge.db w); cbn; auto.
Qed.

Lemma Judge_replay_frame (f : fault) (sf : nat -> bool)
    (rows : list string) (n : nat) (w : Judge.ProcessWorker) :
  Judge.running (fst (Judge.replay f sf n rows w)) = Judge.running w
  /\ Judge.db (fst (Judge.replay f sf n rows w)) = Judge.db w.
Proof.
  revert n w. induction rows as [|c rows IH]; intros n w;
    cbn [Judge.replay].
  - destruct (f (Next n)); cbn; auto.
  - destruct (f (Next n)); [cbn; auto|].
    destruct (f (ScanRow n)); [cbn; auto|].
    destruct (IH (S n) (fst (Judge.setTrustedCmd (sf n) c w))) as [H1 H2].
    rewrite H1, H2. cbn. auto.
Qed.

Lemma Judge_initTrustedCmd_frame (f : fault) (sf : nat -> bool)
    (w : Judge.ProcessWorker) :
  Judge.running (fst (Judge.initTrustedCmd f sf w)) = Judge.running w
  /\ Judge.db (fst (Judge.initTrustedCmd f sf w)) = Judge.db w.
Proof.
  unfold Judge.initTrustedCmd.
  destruct (f Open); [cbn; auto|].
  destruct (Judge.db w) as [t|] eqn:Hd; [|cbn; auto].
  destruct (f PrepareQuery); [cbn; auto|].
  destruct (f Query); [cbn; auto|].
  rewrite <- Hd. apply Judge_replay_frame.
Qed.

(** X2: a start that returns an error, in either worker, has not reached
    the spawning of the receive loop, has nevertheless left the running
    flag set, and has left the store as it was or with its table created
    empty. *)
Theorem Start_failure_leaves_flag_set :
  (forall on env w w' e s,
      BackgroundStart.Start on env w = (w', Some e, s) ->
      s = false /\ Background.running w' = true
      /\ (Background.db w' = Background.db w
          \/ (Background.db w = None /\ Background.db w' = Some [])))
  /\ (forall env w w' e s,
      JudgeStart.Start env w = (w', Some e, s) ->
      s = false /\ Judge.running w' = true
      /\ (Judge.db w' = Judge.db w
          \/ (Judge.db w = None /\ Judge.db w' = Some []))).
Proof.
  split.
  - intros on env w w' e s. unfold BackgroundStart.Start.
    destruct (BackgroundStart.connect env);
      [intros [= <- _ <-]; cbn; auto|].
    pose proof (Background_initDB_frame (BackgroundStart.init_fault env)
                  (Background.flag true w)) as (Hr & _ & Hd).
    destruct (Background.initDB (BackgroundStart.init_fault env)
                (Background.flag true w)) as [w2 [e2|]];
      cbn [fst Background.flag Background.running Background.db] in Hr, Hd;
      [intros [= <- _ <-]; auto|].
    set (on' := BackgroundStart.enabled on (BackgroundStart.core_status env)).
    set (w3 := if on' then _ else w2).
    assert (H3 : Background.running w3 = true /\ Background.db w3 = Background.db w2)
      by (unfold w3; destruct on'; cbn; auto).
    destruct H3 as [Hr3 Hd3].
    destruct (if on' then BackgroundStart.enable env else None);
      [intros [= <- _ <-]; rewrite Hd3; auto|].
    destruct (BackgroundStart.sub_audit env);
      [intros [= <- _ <-]; cbn; rewrite Hd3; auto|].
    destruct (BackgroundStart.sub_osinfo env);
      [intros [= <- _ <-]; cbn; rewrite Hd3; auto|].
    match goal with
    | |- context [Background.initTrustedCmd ?f ?sf ?w5] =>
        pose proof (Background_initTrustedCmd_frame f sf w5) as [Hr6 Hd6];
        destruct (Background.initTrustedCmd f sf w5) as [w6 [e6|]]
    end; [|discriminate].
    cbn [fst Background.emit Background.running Background.db] in Hr6, Hd6.
    intros [= <- _ <-]. rewrite Hr6, Hd6, Hd3. auto.
  - intros env w w' e s. unfold JudgeStart.Start.
    destruct (JudgeStart.connect env);
      [intros [= <- _ <-]; cbn; auto|].
    pose proof (Judge_initDB_frame (JudgeStart.init_fault env)
                  (Judge.flag true w)) as (Hr & _ & Hd).
    destruct (Judge.initDB (JudgeStart.init_fault env) (Judge.flag true w))
      as [w2 [e2|]];
      cbn [fst Judge.flag Judge.running Judge.db] in Hr, Hd;
      [intros [= <- _ <-]; auto|].
    destruct (JudgeStart.enable env);
      [intros [= <- _ <-]; cbn; auto|].
    destruct (JudgeStart.sub env);
      [intros [= <- _ <-]; cbn; auto|].
    match goal with
    | |- context [Judge.initTrustedCmd ?f ?sf ?w5] =>
        pose proof (Judge_initTrustedCmd_frame f sf w5) as [Hr6 Hd6];
        destruct (Judge.initTrustedCmd f sf w5) as [w6 [e6|]]
    end; [|discriminate].
    cbn [fst Judge.emit Judge.running Judge.db] in Hr6, Hd6.
    intros [= <- _ <-]. rewrite Hr6, Hd6. auto.
Qed.

Lemma Start_failure_leaves_flag_set_witness :
  let env := {| JudgeStart.connect := None; JudgeStart.init_fault := healthy;
                JudgeStart.enable := None; JudgeStart.sub := Some ErrSend;
                JudgeStart.replay_fault := healthy;
                JudgeStart.replay_sends := fun _ => false |} in
  let w := JudgeStart.NewProcessWorker None in
  let w' := fst (fst (JudgeStart.Start env w)) in
  false = false /\ Judge.running w' = true
  /\ (Judge.db w' = Judge.db w
      \/ (Judge.db w = None /\ Judge.db w' = Some [])).
Proof.
  intros env w w'.
  apply (proj2 Start_failure_leaves_flag_set env w w' ErrSend false).
  reflexivity.
Defined.

(** ** The store *)

(** X3: the initialisation of the schema is idempotent in both workers: when
    no call fails it creates the table if there is none and keeps every row
    otherwise, and a second initialisation returns no error and changes
    nothing. *)
Theorem initDB_idempotent :
  (forall f f' w,
      (forall s, f s = false) -> (forall s, f' s = false) ->
      exists w1,
        Background.initDB f w = (w1, None)
        /\ Background.db w1 = Some (created (Background.db w))
        /\ Background.initDB f' w1 = (w1, None))
  /\ (forall f f' w,
      (forall s, f s = false) -> (forall s, f' s = false) ->
      exists w1,
        Judge.initDB f w = (w1, None)
        /\ Judge.db w1 = Some (match Judge.db w with
                               | Some t => t
                               | None => []
                               end)
        /\ Judge.initDB f' w1 = (w1, None)).
Proof.
  split; intros f f' w Hf Hf'.
  - rewrite (Background_initDB_healthy f w Hf). eexists.
    split; [reflexivity|]. split; [reflexivity|].
    now rewrite (Background_initDB_healthy f' _ Hf').
  - rewrite (Judge_initDB_healthy f w Hf). eexists.
    split; [reflexivity|]. split; [reflexivity|].
    now rewrite (Judge_initDB_healthy f' _ Hf').
Qed.

Lemma initDB_idempotent_witness :
  exists w1,
    Background.initDB healthy (BackgroundStart.NewProcessWorker None)
    = (w1, None)
    /\ Background.db w1 = Some []
    /\ Background.initDB healthy w1 = (w1, None).
Proof.
  apply (proj1 initDB_idempotent healthy healthy
           (BackgroundStart.NewProcessWorker None)); reflexivity.
Defined.

(** X4: the update for a report never fails on the unique constraint of
    column [cmd]: the insertion is tried only when the update statement
    found no record of the command. *)
Theorem updateCmd_never_violates_unique
    (split : string -> option (string * string * string)) (f : fault)
    (c : string) (j : Z) (w : Background.ProcessWorker) :
  snd (Background.updateCmd split f c j w) <> Returns (Some ErrConstraint).
Proof.
  unfold Background.updateCmd.
  destruct (f Open); [discriminate|].
  destruct (Background.db w) as [t|]; [|discriminate].
  destruct (f PrepareUpdate); [discriminate|].
  destruct (f ExecUpdate); [discriminate|].
  pose proof (sqlUpdateCount_affected j c t) as Ha.
  pose proof (known_sqlUpdateCount c c j t) as Hk.
  destruct (Background.sqlUpdateCount j c t) as [t1 affected].
  cbn [fst snd] in Ha, Hk.
  destruct (f RowsAffected); [discriminate|].
  rewrite Ha, negb_involutive.
  destruct (known c t) eqn:Hc; [discriminate|].
  destruct (f PrepareInsert); [discriminate|].
  destruct (split c) as [[[wd bin] av]|]; [|discriminate].
  destruct (f ExecInsert); [discriminate|].
  unfold Background.sqlInsert. fold (known c t1). rewrite Hk. discriminate.
Qed.

(** What one turn of the richer worker adds to the trace holds as many
    termination requests as logged errors. *)
Lemma Background_body_escalates
    (split : string -> option (string * string * string))
    (x : Background.turn) (w : Background.ProcessWorker) :
  exists more,
    Background.trace (fst (Background.body split x w))
    = Background.trace w ++ more
    /\ List.length (filter is_kill more)
       = List.length (filter is_log_error more).
Proof.
  unfold Background.body.
  set (w1 := Background.clear (Background.stop_in_recv x) w).
  assert (H1 : Background.trace w1 = Background.trace w)
    by apply Background_clear_trace.
  destruct (negb (Background.running w1));
    [exists []; cbn; now rewrite H1, app_nil_r|].
  destruct (Background.recv x) as [|t];
    [eexists; cbn; rewrite H1, <- app_assoc; split; reflexivity|].
  destruct (Background.unmarshal t) as [ev|];
    [|eexists; cbn; rewrite H1, <- app_assoc; split; reflexivity].
  destruct (String.eqb (Background.Type' ev) "audit::proc::report").
  - pose proof (Background_updateCmd_frame split
                  (Background.store_fault x) (Background.Cmd ev)
                  (Background.Judge ev) w1) as [Ht _].
    destruct (Background.updateCmd split (Background.store_fault x)
                (Background.Cmd ev) (Background.Judge ev) w1)
      as [w2 [[e|]|]]; cbn [fst] in Ht |- *.
    + eexists; cbn; rewrite Ht, H1, <- app_assoc; split; reflexivity.
    + exists []; now rewrite Ht, H1, app_nil_r.
    + exists []; now rewrite Ht, H1, app_nil_r.
  - destruct (String.eqb (Background.Type' ev) "osinfo::report").
    + eexists; cbn; rewrite H1; split; reflexivity.
    + exists []; cbn; now rewrite H1, app_nil_r.
Qed.

Lemma Background_loop_escalates
    (split : string -> option (string * string * string))
    (xs : list Background.turn) (w : Background.ProcessWorker) :
  exists more,
    Background.trace (fst (Background.loop split xs w))
    = Background.trace w ++ more
    /\ List.length (filter is_kill more)
       = List.length (filter is_log_error more).
Proof.
  revert w. induction xs as [|x xs IH]; intros w; cbn [Background.loop].
  - exists []. cbn. now rewrite app_nil_r.
  - set (w0 := Background.clear (Background.stop_at_head x) w).
    assert (H0 : Background.trace w0 = Background.trace w)
      by apply Background_clear_trace.
    destruct (negb (Background.running w0));
      [exists []; cbn; now rewrite H0, app_nil_r|].
    destruct (Background_body_escalates split x w0) as (m1 & H1 & E1).
    destruct (Background.body split x w0) as [w' [| |]]; cbn [fst] in H1 |- *.
    + destruct (IH w') as (m2 & H2 & E2). exists (m1 ++ m2).
      rewrite H2, H1, H0, app_assoc. split; [reflexivity|].
      rewrite !filter_app, !length_app. lia.
    + exists m1. now rewrite H1, H0.
    + exists m1. now rewrite H1, H0.
Qed.

(** X5: in the richer worker the receive loop asks for the termination of
    the process as often as it logs an error: over any run, whatever
    arrives and whichever calls fail, the effects added hold as many
    termination requests as logged errors. *)
Theorem run_escalates_every_error
    (split : string -> option (string * string * string))
    (xs : list Background.turn) (w : Background.ProcessWorker) :
  exists more,
    Background.trace (fst (Background.run split xs w))
    = Background.trace w ++ more
    /\ List.length (filter is_kill more)
       = List.length (filter is_log_error more).
Proof.
  unfold Background.run.
  destruct (Background_loop_escalates split xs
              (Background.emit (DogNew (10 * Second) Background.callback) w)) as (m & Hm & E).
  cbn [Background.emit Background.trace] in Hm.
  destruct (Background.loop split xs
              (Background.emit (DogNew (10 * Second) Background.callback) w)) as [w' [| |]];
    cbn [fst] in Hm |- *.
  - exists (DogNew (10 * Second) Background.callback :: m). rewrite Hm, <- app_assoc.
    split; [reflexivity | exact E].
  - exists (DogNew (10 * Second) Background.callback :: m ++ [Done]).
    cbn [Background.emit Background.trace]. rewrite Hm, <- !app_assoc.
    split; [reflexivity|]. cbn [filter is_kill is_log_error].
    rewrite !filter_app, !length_app. cbn. lia.
  - exists (DogNew (10 * Second) Background.callback :: m ++ [Done]).
    cbn [Background.emit Background.trace]. rewrite Hm, <- !app_assoc.
    split; [reflexivity|]. cbn [filter is_kill is_log_error].
    rewrite !filter_app, !length_app. cbn. lia.
Qed.

(** ** What a restart replays *)

Lemma sqlUpdateCount_allow (j : Z) (c : string) (t : Background.table) :
  Background.sqlQueryStatusAllow (fst (Background.sqlUpdateCount j c t))
  = Background.sqlQueryStatusAllow t.
Proof.
  cbn [Background.sqlUpdateCount fst]. unfold Background.sqlQueryStatusAllow.
  induction t as [|r t IH]; [reflexivity|]. cbn [map filter].
  destruct (String.eqb (Background.cmd r) c); cbn [Background.status];
    destruct (Background.status r =? 2); cbn [map Background.cmd];
    now rewrite IH.
Qed.

Lemma updateCmd_replayed
    (split : string -> option (string * string * string)) (f : fault)
    (c : string) (j : Z) (w : Background.ProcessWorker) :
  replayed (Background.db (fst (Background.updateCmd split f c j w)))
  = replayed (Background.db w).
Proof.
  unfold Background.updateCmd.
  destruct (f Open); [reflexivity|].
  destruct (Background.db w) as [t|] eqn:Hd; [|cbn; now rewrite Hd].
  destruct (f PrepareUpdate); [cbn; now rewrite Hd|].
  destruct (f ExecUpdate); [cbn; now rewrite Hd|].
  pose proof (sqlUpdateCount_allow j c t) as Hs.
  destruct (Background.sqlUpdateCount j c t) as [t1 affected].
  cbn [fst] in Hs.
  destruct (f RowsAffected); [exact Hs|].
  destruct (negb (affected =? 0)); [exact Hs|].
  destruct (f PrepareInsert); [exact Hs|].
  destruct (split c) as [[[wd bin] av]|]; [|exact Hs].
  destruct (f ExecInsert); [exact Hs|].
  unfold Background.sqlInsert.
  destruct (existsb (fun r => String.eqb (Background.cmd r) c) t1);
    [exact Hs|].
  cbn [fst Background.store Background.db replayed].
  unfold Background.sqlQueryStatusAllow in *. rewrite filter_app, map_app.
  cbn [filter Background.status]. cbn. now rewrite app_nil_r.
Qed.

Lemma Background_body_replayed
    (split : string -> option (string * string * string))
    (x : Background.turn) (w : Background.ProcessWorker) :
  replayed (Background.db (fst (Background.body split x w)))
  = replayed (Background.db w).
Proof.
  unfold Background.body.
  set (w1 := Background.clear (Background.stop_in_recv x) w).
  assert (H1 : Background.db w1 = Background.db w)
    by apply Background_clear_db.
  destruct (negb (Background.running w1)); [cbn; now rewrite H1|].
  destruct (Background.recv x) as [|t]; [cbn; now rewrite H1|].
  destruct (Background.unmarshal t) as [ev|]; [|cbn; now rewrite H1].
  destruct (String.eqb (Background.Type' ev) "audit::proc::report").
  - pose proof (updateCmd_replayed split (Background.store_fault x)
                  (Background.Cmd ev) (Background.Judge ev) w1) as Hu.
    destruct (Background.updateCmd split (Background.store_fault x)
                (Background.Cmd ev) (Background.Judge ev) w1)
      as [w2 [[e|]|]]; cbn [fst] in Hu |- *;
      cbn [Background.emit Background.db]; now rewrite Hu, H1.
  - destruct (String.eqb (Background.Type' ev) "osinfo::report");
      cbn; now rewrite H1.
Qed.

Lemma Background_loop_replayed
    (split : string -> option (string * string * string))
    (xs : list Background.turn) (w : Background.ProcessWorker) :
  replayed (Background.db (fst (Background.loop split xs w)))
  = replayed (Background.db w).
Proof.
  revert w. induction xs as [|x xs IH]; intros w; cbn [Background.loop].
  - reflexivity.
  - set (w0 := Background.clear (Background.stop_at_head x) w).
    assert (H0 : Background.db w0 = Background.db w)
      by apply Background_clear_db.
    destruct (negb (Background.running w0)); [cbn; now rewrite H0|].
    pose proof (Background_body_replayed split x w0) as Hb.
    destruct (Background.body split x w0) as [w' [| |]];
      cbn [fst] in Hb |- *; rewrite ?IH, Hb; now rewrite H0.
Qed.

(** X6: the receive loop of the richer worker never promotes a command:
    over any run, whatever arrives and whichever calls fail, the commands
    with status 2 are the same after as before; so a restart on the store
    the run leaves sends the trust insertions the store called for before
    the run, and no other. *)
Theorem run_never_promotes
    (split : string -> option (string * string * string))
    (xs : list Background.turn) (w : Background.ProcessWorker) :
  let w' := fst (Background.run split xs w) in
  replayed (Background.db w') = replayed (Background.db w)
  /\ forall f sf,
      (forall s, f s = false) ->
      Background.trace
        (fst (Background.initTrustedCmd f sf
                (BackgroundStart.NewProcessWorker (Background.db w'))))
      = insertions (replayed (Background.db w)).
Proof.
  cbn zeta.
  assert (H : replayed (Background.db (fst (Background.run split xs w)))
              = replayed (Background.db w)).
  { unfold Background.run.
    pose proof (Background_loop_replayed split xs
                  (Background.emit (DogNew (10 * Second) Background.callback) w)) as Hl.
    destruct (Background.loop split xs
                (Background.emit (DogNew (10 * Second) Background.callback) w)) as [w' [| |]];
      cbn [fst Background.emit Background.db] in Hl |- *; exact Hl. }
  split; [exact H|].
  intros f sf Hf. rewrite <- H.
  unfold Background.initTrustedCmd, BackgroundStart.NewProcessWorker.
  rewrite !Hf. cbn [Background.db].
  destruct (Background.db (fst (Background.run split xs w))) as [t'|];
    [|reflexivity].
  now rewrite Background_replay_healthy.
Qed.

Lemma run_never_promotes_witness :
  let w' := fst (Background.run Telegram.ParseHackernelCmd
                   (hearing [(Scenario.ls, 1); (Scenario.ls, 1);
                             (Scenario.ls, 1); (Scenario.ls, 1)])
                   Scenario.background0) in
  Background.trace
    (fst (Background.initTrustedCmd healthy (fun _ => false)
            (BackgroundStart.NewProcessWorker (Background.db w'))))
  = insertions (replayed (Background.db Scenario.background0)).
Proof.
  intros w'.
  apply (proj2 (run_never_promotes Telegram.ParseHackernelCmd
                  (hearing [(Scenario.ls, 1); (Scenario.ls, 1);
                            (Scenario.ls, 1); (Scenario.ls, 1)])
                  Scenario.background0) healthy (fun _ => false));
    reflexivity.
Defined.

Lemma replayed_rows (p : Judge.Row -> bool) (c : string) (t : Judge.table) :
  List.length (filter (fun c' => String.eqb c' c) (map Judge.cmd (filter p t)))
  = List.length (filter p (rows c t)).
Proof.
  unfold rows. induction t as [|r t IH]; [reflexivity|]. cbn [filter].
  destruct (p r) eqn:Hp, (String.eqb (Judge.cmd r) c) eqn:Hc;
    cbn [map filter]; rewrite ?Hp, ?Hc; cbn [List.length]; now rewrite IH.
Qed.

(** X7: the simpler worker keeps its promotions across a restart by the
    count alone: after a run in which a command not seen before was
    reported [n] times, in reports whose judgment is a number that fits a
    [float64], the replay of the next start sends one trust insertion for
    the command when [n] is 3 or more and none otherwise. *)
Theorem restart_replays_by_count (c : string) (rs : list (string * Z))
    (w : Judge.ProcessWorker) (t : Judge.table) (f : fault)
    (sf : nat -> bool) :
  Judge.running w = true -> Judge.db w = Some t ->
  NoDup (map Judge.id t) -> unseen c t ->
  Z.of_nat (Scenario.reports_of c rs) <= Json.int_max ->
  Forall (fun r => Render.fits_float (snd r) = true) rs ->
  (forall s, f s = false) ->
  announced c
    (Judge.trace
       (fst (Judge.initTrustedCmd f sf
               (JudgeStart.NewProcessWorker
                  (Judge.db (fst (Judge.run (judging rs) w)))))))
  = if (3 <=? Scenario.reports_of c rs)%nat then 1%nat else 0%nat.
Proof.
  intros Hw Hd Hn Hu Hb Hfit Hf.
  destruct (Judge_loop_reports c rs Hfit w t 0 Hw Hd Hn)
    as (w' & t' & Hl & Hd' & Ht' & Htimes & _).
  { unfold times_of. now rewrite Hu. }
  { exact Hb. }
  unfold Judge.run. rewrite Hl. cbn [fst]. rewrite Hd'.
  rewrite (Judge_initTrustedCmd_replays f sf
             (JudgeStart.NewProcessWorker (Some t')) t' eq_refl Hf).
  cbn [fst Judge.trace JudgeStart.NewProcessWorker app].
  rewrite announced_insertions, replayed_rows.
  assert (Hr : rows c t = []).
  { unfold unseen in Hu. rewrite find_first in Hu. fold (rows c t) in Hu.
    now destruct (rows c t). }
  pose proof (rows_counted_all c rs t) as Hlen.
  rewrite Hr in Hlen. specialize (Hlen (Nat.le_0_l 1)). rewrite <- Ht' in Hlen.
  unfold times_of in Htimes. rewrite find_first in Htimes.
  fold (rows c t') in Htimes. cbn [Nat.add] in Htimes.
  destruct (Scenario.reports_of c rs) as [|n] eqn:En.
  - cbn in Hlen. destruct (rows c t'); [reflexivity | discriminate].
  - cbn [Nat.eqb] in Hlen.
    destruct (rows c t') as [|r [|r' l]]; cbn [List.length] in Hlen;
      try discriminate.
    cbn [hd_error] in Htimes. cbn [filter]. rewrite Htimes.
    destruct (3 <=? S n)%nat eqn:E3.
    + apply Nat.leb_le in E3.
      assert (E : (3 <=? Z.of_nat (S n)) = true) by (apply Z.leb_le; lia).
      now rewrite E.
    + apply Nat.leb_gt in E3.
      assert (E : (3 <=? Z.of_nat (S n)) = false) by (apply Z.leb_gt; lia).
      now rewrite E.
Qed.

Lemma restart_replays_by_count_witness :
  announced Scenario.ls
    (Judge.trace
       (fst (Judge.initTrustedCmd healthy (fun _ => false)
               (JudgeStart.NewProcessWorker
                  (Judge.db
                     (fst (Judge.run
                             (judging [(Scenario.ls, 1); (Scenario.sh, 1);
                                       (Scenario.ls, 1); (Scenario.ls, 0)])
                             Scenario.judge0)))))))
  = 1%nat.
Proof.
  apply (restart_replays_by_count Scenario.ls
           [(Scenario.ls, 1); (Scenario.sh, 1); (Scenario.ls, 1);
            (Scenario.ls, 0)] Scenario.judge0 [] healthy (fun _ => false));
    try reflexivity.
  - constructor.
  - discriminate.
  - repeat (apply Forall_cons; [reflexivity|]). apply Forall_nil.
Defined.

(** ** The store of the simpler worker *)

Lemma steady_refl (w w' : Judge.ProcessWorker) :
  Judge.db w' = Judge.db w -> Judge.trace w' = Judge.trace w -> steady w w'.
Proof.
  intros Hd Ht. unfold steady. rewrite Hd, Ht.
  split; [exists []; now rewrite app_nil_r|]. split; [auto|]. split; [auto|].
  exists []. rewrite app_nil_r. split; [reflexivity | intros m []].
Qed.

Lemma steady_log (w w' : Judge.ProcessWorker) (e : effect) :
  is_send e = false -> steady w w' -> steady w (Judge.emit e w').
Proof.
  intros He ((a & Ha) & Hc & Hk & (m & Hm & Hs)). unfold steady.
  cbn [Judge.emit Judge.db Judge.trace].
  split; [now exists a|]. split; [exact Hc|]. split; [exact Hk|].
  exists (m ++ [e]). rewrite Hm, app_assoc. split; [reflexivity|].
  intros m' Hin. apply in_app_or in Hin as [Hin | [E | []]].
  - now apply Hs.
  - rewrite E in He. discriminate.
Qed.

Lemma steady_trans (w1 w2 w3 : Judge.ProcessWorker) :
  steady w1 w2 -> steady w2 w3 -> steady w1 w3.
Proof.
  intros ((a & Ha) & Hc & Hk & (m & Hm & Hs))
         ((a' & Ha') & Hc' & Hk' & (m' & Hm' & Hs')).
  unfold steady.
  split; [exists (a ++ a'); now rewrite Ha', Ha, app_assoc|].
  split; [auto|]. split; [auto|].
  exists (m ++ m'). rewrite Hm', Hm, app_assoc. split; [reflexivity|].
  intros x Hin. apply in_app_or in Hin as [Hin | Hin].
  - destruct (Hs x Hin) as (c & -> & Hin'). exists c. split; [reflexivity|].
    rewrite Ha'. apply in_or_app. now left.
  - now apply Hs'.
Qed.

Lemma find_cmd_none (c : string) (t : Judge.table) :
  find (fun r => String.eqb (Judge.cmd r) c) t = None ->
  ~ In c (map Judge.cmd t).
Proof.
  intros Hf Hin. apply in_map_iff in Hin as (r & Hr & Hin).
  apply (find_none _ _ Hf) in Hin. rewrite Hr, String.eqb_refl in Hin.
  discriminate.
Qed.

Lemma sqlUpdateCmdTimes_columns (n i : Z) (t : Judge.table) :
  map Judge.cmd (Judge.sqlUpdateCmdTimes n i t) = map Judge.cmd t
  /\ map Judge.id (Judge.sqlUpdateCmdTimes n i t) = map Judge.id t.
Proof.
  unfold Judge.sqlUpdateCmdTimes. rewrite !map_map.
  split; apply map_ext; intros r; now destruct (Judge.id r =? i).
Qed.

(** The update of the count, whichever call fails. *)
Lemma Judge_updateCmdTimes_steady (f : fault) (c : string)
    (w : Judge.ProcessWorker) :
  steady w (fst (Judge.updateCmdTimes f c w))
  /\ (snd (snd (Judge.updateCmdTimes f c w)) = None ->
      In c (commands (Judge.db (fst (Judge.updateCmdTimes f c w))))).
Proof.
  unfold Judge.updateCmdTimes.
  destruct (f Open); [split; [now apply steady_refl | discriminate]|].
  destruct (Judge.db w) as [t|] eqn:Hd;
    [|split; [now apply steady_refl | discriminate]].
  destruct (f PrepareQuery); [split; [now apply steady_refl | discriminate]|].
  destruct (f (ScanRow 0)); [split; [now apply steady_refl | discriminate]|].
  unfold Judge.sqlQueryTimesByCmd.
  destruct (find (fun r => String.eqb (Judge.cmd r) c) t) as [r|] eqn:Hf.
  - destruct (f PrepareUpdate);
      [split; [now apply steady_refl | discriminate]|].
    destruct (f ExecUpdate); [split; [now apply steady_refl | discriminate]|].
    destruct (sqlUpdateCmdTimes_columns (Json.wrap (Judge.times r + 1))
                (Judge.id r) t) as [Hc Hi].
    cbn [fst snd Judge.store Judge.db Judge.trace]. unfold steady.
    cbn [Judge.store Judge.db Judge.trace commands keys].
    rewrite Hd. cbn [commands keys]. rewrite Hc, Hi.
    split.
    + split; [exists []; now rewrite app_nil_r|]. split; [auto|].
      split; [auto|]. exists []. rewrite app_nil_r.
      split; [reflexivity | intros m []].
    + intros _. apply find_some in Hf as [Hin Hr].
      apply String.eqb_eq in Hr. subst c. now apply in_map.
  - destruct (f PrepareInsert);
      [split; [now apply steady_refl | discriminate]|].
    destruct (f ExecInsert); [split; [now apply steady_refl | discriminate]|].
    cbn [fst snd Judge.store Judge.db Judge.trace]. unfold steady.
    cbn [Judge.store Judge.db Judge.trace commands keys].
    rewrite Hd. cbn [commands keys]. unfold Judge.sqlInsertCmd.
    rewrite !map_app. cbn [map Judge.cmd Judge.id].
    split.
    + split; [now exists [c]|]. split; [|split].
      * intros Hn. apply NoDup_app; [exact Hn | repeat constructor; cbn; tauto|].
        intros x Hx [E|[]]. subst x. now apply (find_cmd_none c t Hf).
      * intros Hn. apply NoDup_app; [exact Hn | repeat constructor; cbn; tauto|].
        intros i Hi [E|[]]. subst i. apply in_map_iff in Hi as (r & Hr & Hin).
        apply Judge_id_below_next in Hin. lia.
      * exists []. rewrite app_nil_r. split; [reflexivity | intros m []].
    + intros _. apply in_or_app. right. now left.
Qed.

Lemma Judge_clear_steady (b : bool) (w : Judge.ProcessWorker) :
  steady w (Judge.clear b w).
Proof.
  apply steady_refl; [apply Judge_clear_db | apply Judge_clear_trace].
Qed.

Lemma Judge_body_steady (x : Judge.turn) (w : Judge.ProcessWorker) :
  steady w (fst (Judge.body x w)).
Proof.
  unfold Judge.body.
  set (w1 := Judge.clear (Judge.stop_in_recv x) w).
  assert (H1 : steady w w1) by apply Judge_clear_steady.
  destruct (Judge.recv x) as [|t].
  - destruct (Judge.running w1); cbn [fst]; [|exact H1].
    now apply steady_log.
  - destruct (Judge.unmarshal t) as [doc|]; [|now apply steady_log].
    destruct (Json.get "type" doc) as [[| | | | |ty| |]|]; try exact H1.
    destruct (negb (String.eqb ty "audit::proc::report")); [exact H1|].
    destruct (Json.get "cmd" doc) as [[| | | | |c| |]|]; try exact H1.
    destruct (Judge_updateCmdTimes_steady (Judge.store_fault x) c w1)
      as [Hs Hin].
    destruct (Judge.updateCmdTimes (Judge.store_fault x) c w1)
      as [w2 [n err]]. cbn [fst snd] in Hs, Hin.
    pose proof (steady_trans _ _ _ H1 Hs) as H2.
    destruct err as [e|]; [now apply steady_log|].
    destruct (n <? 3); [exact H2|].
    assert (H3 : steady w (Judge.emit (Send (trusted c)) w2)).
    { destruct H2 as ((a & Ha) & Hc & Hk & (m & Hm & Hsend)).
      unfold steady. cbn [Judge.emit Judge.db Judge.trace].
      split; [now exists a|]. split; [exact Hc|]. split; [exact Hk|].
      exists (m ++ [Send (trusted c)]). rewrite Hm, app_assoc.
      split; [reflexivity|].
      intros m' Hm'. apply in_app_or in Hm' as [Hm' | [[= <-] | []]].
      - now apply Hsend.
      - exists c. split; [reflexivity | now apply Hin]. }
    unfold Judge.setTrustedCmd.
    destruct (Judge.send_fails x); cbn [fst]; [now apply steady_log | exact H3].
Qed.

Lemma Judge_loop_steady (xs : list Judge.turn) (w : Judge.ProcessWorker) :
  steady w (fst (Judge.loop xs w)).
Proof.
  revert w. induction xs as [|x xs IH]; intros w; cbn [Judge.loop].
  - now apply steady_refl.
  - set (w0 := Judge.clear (Judge.stop_at_head x) w).
    assert (H0 : steady w w0) by apply Judge_clear_steady.
    destruct (negb (Judge.running w0)); [exact H0|].
    pose proof (Judge_body_steady x w0) as Hb.
    destruct (Judge.body x w0) as [w' [| |]]; cbn [fst] in Hb |- *.
    + exact (steady_trans _ _ _ H0 (steady_trans _ _ _ Hb (IH w'))).
    + exact (steady_trans _ _ _ H0 Hb).
    + exact (steady_trans _ _ _ H0 Hb).
Qed.

Lemma Judge_run_steady (xs : list Judge.turn) (w : Judge.ProcessWorker) :
  steady w (fst (Judge.run xs w)).
Proof.
  unfold Judge.run. pose proof (Judge_loop_steady xs w) as H.
  destruct (Judge.loop xs w) as [w' [| |]]; cbn [fst] in H |- *;
    try exact H.
  now apply steady_log.
Qed.

(** X8: the simpler worker keeps its table in order although its schema
    asks for nothing: over any run, whatever arrives and whichever calls
    fail, no row is removed and no command of a row changes (the commands
    after the run are those before, then the new ones), commands that were
    distinct stay distinct, and ids that were distinct stay distinct. *)
Theorem judge_run_keeps_table (xs : list Judge.turn)
    (w : Judge.ProcessWorker) :
  let w' := fst (Judge.run xs w) in
  (exists added, commands (Judge.db w') = commands (Judge.db w) ++ added)
  /\ (NoDup (commands (Judge.db w)) -> NoDup (commands (Judge.db w')))
  /\ (NoDup (keys (Judge.db w)) -> NoDup (keys (Judge.db w'))).
Proof.
  cbn zeta. destruct (Judge_run_steady xs w) as (Ha & Hc & Hk & _). auto.
Qed.

Lemma judge_run_keeps_table_witness :
  NoDup (commands
           (Judge.db (fst (Judge.run
                             (judging [(Scenario.ls, 1); (Scenario.sh, 1);
                                       (Scenario.ls, 1)])
                             Scenario.judge0)))).
Proof.
  apply (proj1 (proj2 (judge_run_keeps_table
                         (judging [(Scenario.ls, 1); (Scenario.sh, 1);
                                   (Scenario.ls, 1)]) Scenario.judge0))).
  constructor.
Defined.

(** X9: the receive loop of the simpler worker sends nothing but trust
    insertions, and only for commands it has recorded: over any run, every
    message sent is the trust insertion of a command that has a row in the
    table the run leaves. *)
Theorem judge_run_trusts_only_recorded (xs : list Judge.turn)
    (w : Judge.ProcessWorker) :
  exists more,
    Judge.trace (fst (Judge.run xs w)) = Judge.trace w ++ more
    /\ forall m, In (Send m) more ->
                 exists c, m = trusted c
                           /\ In c (commands
                                      (Judge.db (fst (Judge.run xs w)))).
Proof.
  destruct (Judge_run_steady xs w) as (_ & _ & _ & H). exact H.
Qed.

(** ** The raw command, parsed *)

Lemma Split_length (s : string) :
  List.length (Strings.Split Telegram.US s) = S (separators s).
Proof.
  induction s as [|c s IH]; [reflexivity|]. cbn [Strings.Split separators].
  destruct (Ascii.eqb c Telegram.US); cbn [List.length Nat.add].
  - now rewrite IH.
  - destruct (Strings.Split Telegram.US s) as [|p ps]; [discriminate|].
    exact IH.
Qed.

Lemma Split_pieces_clean (s : string) :
  Forall clean (Strings.Split Telegram.US s).
Proof.
  unfold clean. induction s as [|c s IH]; cbn [Strings.Split].
  - now repeat constructor.
  - destruct (Ascii.eqb c Telegram.US) eqn:E.
    + constructor; [reflexivity | exact IH].
    + pose proof (Split_nonempty Telegram.US s) as Hne.
      destruct (Strings.Split Telegram.US s) as [|p ps]; [contradiction|].
      inversion IH as [|? ? Hp Hps]; subst.
      constructor; [cbn [Strings.occurs]; now rewrite E, Hp | exact Hps].
Qed.

Lemma Join_Split (s : string) :
  Strings.Join (Strings.Split Telegram.US s) Telegram.US = s.
Proof.
  unfold Strings.Join. induction s as [|c s IH]; [reflexivity|].
  cbn [Strings.Split].
  pose proof (Split_nonempty Telegram.US s) as Hne.
  destruct (Ascii.eqb c Telegram.US) eqn:E.
  - apply Ascii.eqb_eq in E. subst c.
    destruct (Strings.Split Telegram.US s) as [|p ps]; [contradiction|].
    cbn [String.concat]. cbn [String.append]. now rewrite <- IH.
  - destruct (Strings.Split Telegram.US s) as [|p ps]; [contradiction|].
    rewrite <- IH. destruct ps; reflexivity.
Qed.

(** X10: [ParseHackernelCmd] panics exactly on the commands with fewer
    than two separator bytes, and returns on every other command. *)
Theorem parse_panics_below_two_separators (cmd : string) :
  Telegram.ParseHackernelCmd cmd = None <-> (separators cmd < 2)%nat.
Proof.
  unfold Telegram.ParseHackernelCmd.
  pose proof (Split_length cmd) as Hl.
  destruct (Strings.Split Telegram.US cmd) as [|a [|b [|c l]]];
    cbn [List.length nth_error] in Hl |- *.
  - discriminate.
  - split; [lia | reflexivity].
  - split; [lia | reflexivity].
  - split; [discriminate | lia].
Qed.

(** X11: whatever [ParseHackernelCmd] returns is a decoding: the command is
    the working directory, the binary and at least one argument token
    joined by the separator, none of them holding the separator, and the
    third result is the argument tokens joined by single spaces. *)
Theorem parse_is_a_decoding (cmd workdir exec argv : string) :
  Telegram.ParseHackernelCmd cmd = Some (workdir, exec, argv) ->
  exists arg args,
    cmd = Telegram.encode workdir exec (arg :: args)
    /\ argv = Telegram.spaced (arg :: args)
    /\ Forall clean (workdir :: exec :: arg :: args).
Proof.
  unfold Telegram.ParseHackernelCmd, Telegram.encode.
  pose proof (Join_Split cmd) as Hj.
  pose proof (Split_pieces_clean cmd) as Hc.
  destruct (Strings.Split Telegram.US cmd) as [|a [|b [|c l]]];
    cbn [nth_error skipn]; try discriminate.
  intros [= <- <- <-]. exists c, l.
  split; [now rewrite Hj|]. split; [apply spaced_fold | exact Hc].
Qed.

Lemma parse_is_a_decoding_witness :
  exists arg args,
    Scenario.ls = Telegram.encode "/home" "/bin/ls" (arg :: args)
    /\ "-la" = Telegram.spaced (arg :: args)
    /\ Forall clean ("/home" :: "/bin/ls" :: arg :: args).
Proof.
  apply (parse_is_a_decoding Scenario.ls "/home" "/bin/ls" "-la").
  reflexivity.
Defined.

(** ** The renderers *)

Lemma parse_encode (workdir binary arg : string) (args : list string) :
  Forall clean (workdir :: binary :: arg :: args) ->
  Telegram.ParseHackernelCmd (Telegram.encode workdir binary (arg :: args))
  = Some (workdir, binary, Telegram.spaced (arg :: args)).
Proof.
  intros H. unfold Telegram.ParseHackernelCmd, Telegram.encode.
  rewrite Split_Join by exact H.
  cbn [nth_error skipn]. now rewrite spaced_fold.
Qed.

Lemma report_judge (c : string) (j : Z) :
  Json.get "judge" [("type", Json.Str "audit::proc::report");
                    ("cmd", Json.Str c); ("judge", Json.Int j)]
  = Some (Json.Int j).
Proof. reflexivity. Qed.

Section Rendering.

Variable frac_equals : Z -> option bool.

(** X12: the renderer of process audits, given the report of the kernel
    for a command made of a working directory, a binary and one or more
    argument tokens that hold no separator, writes the title, the three
    parts of the command, each underlined, and the state, which is the
    success text exactly when the judgment is 1. *)
Theorem render_report_shows_command (workdir binary arg : string)
    (args : list string) (j : Z) :
  Forall clean (workdir :: binary :: arg :: args) ->
  Render.fits_float j = true ->
  Render.RenderAuditProcReport frac_equals
    (Scenario.report (Telegram.encode workdir binary (arg :: args), j))
  = Some ("<b>进程审计</b>" ++ Render.nl ++ Render.nl
          ++ "工作目录: " ++ Render.underlined workdir
          ++ "可执行程序: " ++ Render.underlined binary
          ++ "参数列表: " ++ Render.underlined (Telegram.spaced (arg :: args))
          ++ Render.state (Z.eqb j 1))%string.
Proof.
  intros Hc Hj.
  unfold Render.RenderAuditProcReport, Scenario.report, Render.document,
    Render.text_of, Render.number_equals.
  cbn [fst snd]. rewrite report_type, report_cmd, report_judge, Hj.
  rewrite String.eqb_refl. cbn [negb].
  now rewrite (parse_encode workdir binary arg args Hc).
Qed.

Lemma typed_elsewhere (kind ty : string) :
  String.eqb ty kind = false -> negb (String.eqb ty kind) = true.
Proof. now intros ->. Qed.

(** X13: the renderers dispatch on the member [type] and on nothing else: a
    text that is not an object with a string for [type] makes each of the
    five panic, none returns an error; and for a text with such a member at
    most one of the five writes anything, the others return the empty
    text. *)
Theorem renderers_dispatch_on_type (text : Json.text) :
  (Render.text_of (Render.document text) "type" = None ->
   Forall (fun r => r text = None) (Render.renderers frac_equals))
  /\ (forall ty,
        Render.text_of (Render.document text) "type" = Some ty ->
        (List.length
           (filter (fun r => wrote (r text)) (Render.renderers frac_equals))
         <= 1)%nat).
Proof.
  unfold Render.renderers, Render.RenderAuditProcReport,
    Render.RenderUserMsgSub, Render.RenderUserMsgUnsub,
    Render.RenderKernelProcEnable, Render.RenderKernelProcDisable,
    Render.subscription, Render.protection.
  split.
  - intros H. repeat constructor; cbv zeta; now rewrite H.
  - intros ty H. cbn [filter]. cbv zeta. rewrite H.
    destruct (String.eqb ty "audit::proc::report") eqn:E1;
      [apply String.eqb_eq in E1; subst ty; cbn [String.eqb Ascii.eqb Bool.eqb negb wrote List.length];
       match goal with |- context [wrote ?x] => destruct (wrote x) end;
       cbn; lia|].
    destruct (String.eqb ty "user::msg::sub") eqn:E2;
      [apply String.eqb_eq in E2; subst ty; cbn [String.eqb Ascii.eqb Bool.eqb negb wrote List.length];
       match goal with |- context [wrote ?x] => destruct (wrote x) end;
       cbn; lia|].
    destruct (String.eqb ty "user::msg::unsub") eqn:E3;
      [apply String.eqb_eq in E3; subst ty; cbn [String.eqb Ascii.eqb Bool.eqb negb wrote List.length];
       match goal with |- context [wrote ?x] => destruct (wrote x) end;
       cbn; lia|].
    destruct (String.eqb ty "kernel::proc::enable") eqn:E4;
      [apply String.eqb_eq in E4; subst ty; cbn [String.eqb Ascii.eqb Bool.eqb negb wrote List.length];
       match goal with |- context [wrote ?x] => destruct (wrote x) end;
       cbn; lia|].
    destruct (String.eqb ty "kernel::proc::disable") eqn:E5;
      [apply String.eqb_eq in E5; subst ty; cbn [String.eqb Ascii.eqb Bool.eqb negb wrote List.length];
       match goal with |- context [wrote ?x] => destruct (wrote x) end;
       cbn; lia|].
    cbn. lia.
Qed.

End Rendering.

Lemma render_report_shows_command_witness :
  Render.RenderAuditProcReport (fun _ => None)
    (Scenario.report (Telegram.encode "/home" "/bin/ls" ["ls"; "-la"], 1))
  = Some ("<b>进程审计</b>" ++ Render.nl ++ Render.nl
          ++ "工作目录: " ++ Render.underlined "/home"
          ++ "可执行程序: " ++ Render.underlined "/bin/ls"
          ++ "参数列表: " ++ Render.underlined "ls -la"
          ++ Render.state true)%string.
Proof.
  apply (render_report_shows_command (fun _ => None) "/home" "/bin/ls" "ls"
           ["-la"] 1); [|reflexivity].
  repeat (apply Forall_cons; [reflexivity|]). apply Forall_nil.
Defined.

Lemma renderers_dispatch_on_type_witness :
  (List.length
     (filter (fun r => wrote (r (Scenario.report (Scenario.ls, 1%Z))))
        (Render.renderers (fun _ => None))) <= 1)%nat.
Proof.
  apply (proj2 (renderers_dispatch_on_type (fun _ => None)
                  (Scenario.report (Scenario.ls, 1)))
           "audit::proc::report").
  reflexivity.
Defined.

(** ** Sessions *)

Section Sessions.

Variable Compile : string -> option (string -> bool).

Lemma permitted_matches (perms : list string) (path : string) :
  snd (User.permitted Compile perms path)
  = if existsb (matches Compile path) perms
    then User.Next else User.Abort User.StatusForbidden.
Proof.
  induction perms as [|p perms IH]; [reflexivity|].
  cbn [User.permitted existsb]. unfold matches at 1.
  destruct (Compile p) as [g|].
  - destruct (g path); [reflexivity|].
    destruct (User.permitted Compile perms path). exact IH.
  - destruct (User.permitted Compile perms path). exact IH.
Qed.

(** X14: for a request that is neither a GET nor for the login path the
    middleware answers 401 when the request has no session cookie or the
    session is not in the cache, and otherwise lets the request pass
    exactly when one of the permissions of the user compiles to a pattern
    that matches the path, and answers 403 when none does; a permission
    that does not compile is passed over. *)
Theorem middleware_decides (r : User.Request) (c : User.Cache) :
  checked r ->
  snd (User.Middleware Compile r c)
  = match User.Cookie "session" r with
    | None => User.Abort User.StatusUnauthorized
    | Some session =>
        match logged session c with
        | None => User.Abort User.StatusUnauthorized
        | Some user =>
            if existsb (matches Compile (User.Path r)) (User.Permissions user)
            then User.Next else User.Abort User.StatusForbidden
        end
    end.
Proof.
  intros [Hm Hp]. unfold User.Middleware, logged.
  apply String.eqb_neq in Hm, Hp. rewrite Hm, Hp.
  destruct (User.Cookie "session" r) as [session|]; [|reflexivity].
  destruct (User.Get session c) as [c' [user|]]; [|reflexivity].
  cbn [snd]. rewrite <- permitted_matches.
  now destruct (User.permitted Compile (User.Permissions user) (User.Path r)).
Qed.

End Sessions.

Lemma middleware_decides_witness :
  snd (User.Middleware (fun _ => None)
         {| User.Method := "POST"; User.Path := "/user/info";
            User.Cookies := [("session", "s1")] |}
         [("s1", Session.root)])
  = User.Abort User.StatusForbidden.
Proof.
  apply (middleware_decides (fun _ => None)
           {| User.Method := "POST"; User.Path := "/user/info";
              User.Cookies := [("session", "s1")] |}
           [("s1", Session.root)]).
  split; discriminate.
Defined.

Lemma filter_keys_out (key : string) (c : User.Cache) :
  ~ In key (map fst (filter (fun e => negb (String.eqb (fst e) key)) c)).
Proof.
  intros Hin. apply in_map_iff in Hin as (e & He & Hin).
  apply filter_In in Hin as [_ Hk]. rewrite He, String.eqb_refl in Hk.
  discriminate.
Qed.

Lemma filter_keys_NoDup (p : string * User.User -> bool) (c : User.Cache) :
  NoDup (map fst c) -> NoDup (map fst (filter p c)).
Proof.
  induction c as [|e c IH]; cbn [map filter]; intros Hn; [constructor|].
  inversion Hn as [|? ? Hnot Hn']; subst.
  destruct (p e); [|now apply IH].
  cbn [map]. constructor; [|now apply IH].
  intros Hin. apply Hnot. apply in_map_iff in Hin as (e' & He' & Hin).
  apply filter_In in Hin as [Hin _]. apply in_map_iff. now exists e'.
Qed.

Lemma filter_shorter (p : string * User.User -> bool) (c : User.Cache) :
  (List.length (filter p c) <= List.length c)%nat.
Proof.
  induction c as [|e c IH]; cbn [filter List.length]; [lia|].
  destruct (p e); cbn [List.length]; lia.
Qed.

Lemma filter_drops (p : string * User.User -> bool) (c : User.Cache)
    (e : string * User.User) :
  In e c -> p e = false ->
  (S (List.length (filter p c)) <= List.length c)%nat.
Proof.
  induction c as [|e' c IH]; cbn [In filter List.length]; [tauto|].
  intros [-> | Hin] He.
  - rewrite He. pose proof (filter_shorter p c). lia.
  - specialize (IH Hin He). destruct (p e'); cbn [List.length]; lia.
Qed.

Lemma moved_to_front_tidy (key : string) (u : User.User) (c : User.Cache)
    (e : string * User.User) :
  tidy c -> In e c -> fst e = key ->
  tidy ((key, u) :: filter (fun e' => negb (String.eqb (fst e') key)) c).
Proof.
  intros [Hl Hn] Hin He. split.
  - cbn [List.length].
    assert (Hp : negb (String.eqb (fst e) key) = false)
      by (rewrite He, String.eqb_refl; reflexivity).
    pose proof (filter_drops (fun e' => negb (String.eqb (fst e') key)) c e
                  Hin Hp) as H. lia.
  - cbn [map fst]. constructor; [apply filter_keys_out|].
    now apply filter_keys_NoDup.
Qed.

Lemma Get_tidy (key : string) (c : User.Cache) :
  tidy c -> tidy (fst (User.Get key c)).
Proof.
  intros Ht. unfold User.Get.
  destruct (find (fun e => String.eqb (fst e) key) c) as [e|] eqn:Hf;
    [|exact Ht].
  apply find_some in Hf as [Hin Hk]. apply String.eqb_eq in Hk.
  cbn [fst]. destruct e as [k u]. cbn [fst] in Hk. subst k.
  now apply (moved_to_front_tidy key u c (key, u)).
Qed.

Lemma removelast_keys (c : User.Cache) :
  c <> [] -> exists e, c = removelast c ++ [e].
Proof.
  intros Hne. exists (last c (EmptyString, Session.root)).
  now apply app_removelast_last.
Qed.

Lemma Add_tidy (key : string) (u : User.User) (c : User.Cache) :
  tidy c -> tidy (Session.Add key u c).
Proof.
  intros Ht. unfold Session.Add.
  destruct (existsb (fun e => String.eqb (fst e) key) c) eqn:Hex.
  - apply existsb_exists in Hex as (e & Hin & Hk).
    apply String.eqb_eq in Hk. now apply (moved_to_front_tidy key u c e).
  - destruct Ht as [Hl Hn].
    assert (Hnew : NoDup (map fst ((key, u) :: c))).
    { cbn [map fst]. constructor; [|exact Hn].
      intros Hin. apply in_map_iff in Hin as (e & He & Hin).
      assert (Hc : existsb (fun e => String.eqb (fst e) key) c = true)
        by (apply existsb_exists; exists e; split;
            [exact Hin | now apply String.eqb_eq]).
      congruence. }
    cbv zeta.
    destruct (Session.size <? List.length ((key, u) :: c))%nat eqn:E.
    + destruct (removelast_keys ((key, u) :: c)) as [e He]; [discriminate|].
      split.
      * assert (Hlen : List.length ((key, u) :: c)
                       = S (List.length (removelast ((key, u) :: c))))
          by (rewrite He at 1; rewrite length_app; cbn; lia).
        cbn [List.length] in Hlen. lia.
      * rewrite He, map_app in Hnew. now apply NoDup_app_remove_r in Hnew.
    + apply Nat.ltb_ge in E. now split.
Qed.

Lemma Remove_tidy (key : string) (c : User.Cache) :
  tidy c -> tidy (Session.Remove key c).
Proof.
  intros [Hl Hn]. unfold Session.Remove. split.
  - pose proof (filter_shorter (fun e => negb (String.eqb (fst e) key)) c). lia.
  - now apply filter_keys_NoDup.
Qed.

(** X15: the cache of sessions stays within its size of ten entries and
    keeps one entry for a session at most, whatever the handlers and the
    middleware do with it. *)
Theorem handlers_keep_cache_tidy (c : User.Cache) :
  tidy c ->
  (forall bind session, tidy (fst (Session.userLogin bind session c)))
  /\ (forall r, tidy (fst (Session.userInfo r c)))
  /\ (forall r, tidy (fst (Session.userLogout r c)))
  /\ (forall Compile r, tidy (fst (fst (User.Middleware Compile r c)))).
Proof.
  intros Ht. repeat apply conj.
  - intros [b|] session; cbn [Session.userLogin fst];
      [now apply Add_tidy | exact Ht].
  - intros r. unfold Session.userInfo.
    destruct (User.Cookie "session" r) as [s|]; [|exact Ht].
    pose proof (Get_tidy s c Ht) as Hg.
    now destruct (User.Get s c) as [c' [u|]].
  - intros r. cbn [Session.userLogout fst]. now apply Remove_tidy.
  - intros Compile r. unfold User.Middleware.
    destruct (String.eqb (User.Method r) User.MethodGet); [exact Ht|].
    destruct (String.eqb (User.Path r) "/user/login"); [exact Ht|].
    destruct (User.Cookie "session" r) as [s|]; [|exact Ht].
    pose proof (Get_tidy s c Ht) as Hg.
    destruct (User.Get s c) as [c' [u|]]; [|exact Hg].
    now destruct (User.permitted Compile (User.Permissions u) (User.Path r)).
Qed.

Lemma handlers_keep_cache_tidy_witness :
  tidy (fst (Session.userLogin (Some ("root", "secret")) "s1" Session.Init)).
Proof.
  apply (proj1 (handlers_keep_cache_tidy Session.Init
                  (conj (Nat.le_0_l Session.size) (NoDup_nil string)))).
Defined.

Lemma Add_head (key : string) (u : User.User) (c : User.Cache) :
  exists rest, Session.Add key u c = (key, u) :: rest.
Proof.
  unfold Session.Add.
  destruct (existsb (fun e => String.eqb (fst e) key) c); [now eexists|].
  cbv zeta.
  destruct (Session.size <? List.length ((key, u) :: c))%nat eqn:E;
    [|now eexists].
  destruct c as [|e c]; [discriminate|].
  exists (removelast (e :: c)). reflexivity.
Qed.

Lemma logged_head (key : string) (u : User.User) (rest : User.Cache) :
  logged key ((key, u) :: rest) = Some u.
Proof.
  unfold logged, User.Get. cbn [find fst]. now rewrite String.eqb_refl.
Qed.

Lemma logged_absent (key : string) (c : User.Cache) :
  ~ In key (map fst c) -> logged key c = None.
Proof.
  intros Hn. unfold logged, User.Get.
  destruct (find (fun e => String.eqb (fst e) key) c) as [e|] eqn:Hf;
    [|reflexivity].
  apply find_some in Hf as [Hin Hk]. apply String.eqb_eq in Hk.
  exfalso. apply Hn. apply in_map_iff. now exists e.
Qed.

Section Lifecycle.

Variable Compile : string -> option (string -> bool).

(** X16: a session opens with a login and closes with a logout.  After a
    login, with whatever name and password the request binds, a request
    that carries the session cookie passes the middleware, provided the
    pattern of the permission of the root user matches its path; after a
    logout with the cookie of a session, a request with that cookie that
    the middleware checks is answered 401. *)
Theorem session_opens_and_closes :
  (forall g credentials session c r,
      Compile "*" = Some g -> g (User.Path r) = true ->
      User.Cookie "session" r = Some session ->
      snd (User.Middleware Compile r
             (fst (Session.userLogin (Some credentials) session c)))
      = User.Next)
  /\ (forall session r r' c,
      User.Cookie "session" r = Some session ->
      User.Cookie "session" r' = Some session -> checked r' ->
      snd (User.Middleware Compile r' (fst (Session.userLogout r c)))
      = User.Abort User.StatusUnauthorized).
Proof.
  split.
  - intros g credentials session c r Hg Hp Hc.
    cbn [Session.userLogin fst]. unfold User.Middleware.
    destruct (String.eqb (User.Method r) User.MethodGet); [reflexivity|].
    destruct (String.eqb (User.Path r) "/user/login"); [reflexivity|].
    rewrite Hc.
    destruct (Add_head session Session.root c) as [rest Hr].
    pose proof (logged_head session Session.root rest) as Hl.
    rewrite <- Hr in Hl. unfold logged in Hl.
    destruct (User.Get session (Session.Add session Session.root c))
      as [c' [u|]]; cbn [snd] in Hl; [|discriminate].
    injection Hl as ->.
    pose proof (permitted_matches Compile (User.Permissions Session.root)
                  (User.Path r)) as Hm.
    cbn [Session.root User.Permissions existsb] in Hm. unfold matches in Hm.
    rewrite Hg, Hp in Hm. cbn [orb] in Hm.
    change (User.Permissions Session.root) with ["*"%string].
    destruct (User.permitted Compile ["*"%string] (User.Path r)) as [log v].
    exact Hm.
  - intros session r r' c Hc Hc' Hchk.
    rewrite (middleware_decides Compile r' _ Hchk), Hc'.
    cbn [Session.userLogout fst]. rewrite Hc.
    rewrite logged_absent; [reflexivity|]. apply filter_keys_out.
Qed.

End Lifecycle.

Lemma session_opens_and_closes_witness :
  snd (User.Middleware (fun _ => Some (fun _ => true))
         {| User.Method := "POST"; User.Path := "/user/alive";
            User.Cookies := [("session", "s1")] |}
         (fst (Session.userLogin (Some ("anyone", "anything")) "s1"
                 Session.Init)))
  = User.Next.
Proof.
  apply (proj1 (session_opens_and_closes (fun _ => Some (fun _ => true)))
           (fun _ => true) ("anyone", "anything") "s1" Session.Init
           {| User.Method := "POST"; User.Path := "/user/alive";
              User.Cookies := [("session", "s1")] |}); reflexivity.
Defined.

Lemma removelast_In (c : User.Cache) (e : string * User.User) :
  In e (removelast c) -> In e c.
Proof.
  destruct c as [|e0 c]; [intros []|].
  destruct (removelast_keys (e0 :: c)) as [x Hx]; [discriminate|].
  intros Hin. rewrite Hx. apply in_or_app. now left.
Qed.

Lemma Add_keys (key k : string) (u : User.User) (c : User.Cache) :
  In k (map fst (Session.Add key u c)) -> k = key \/ In k (map fst c).
Proof.
  unfold Session.Add.
  destruct (existsb (fun e => String.eqb (fst e) key) c).
  - cbn [map fst]. intros [<- | Hin]; [now left|]. right.
    apply in_map_iff in Hin as (e & He & Hin).
    apply filter_In in Hin as [Hin _]. apply in_map_iff. now exists e.
  - cbv zeta.
    destruct (Session.size <? List.length ((key, u) :: c))%nat.
    + intros Hin. apply in_map_iff in Hin as (e & He & Hin).
      apply removelast_In in Hin. destruct Hin as [<- | Hin].
      * now left.
      * right. apply in_map_iff. now exists e.
    + cbn [map fst]. intros [<- | Hin]; auto.
Qed.

Lemma logins_absent (s0 : string) (others : list string) (c : User.Cache) :
  ~ In s0 others -> ~ In s0 (map fst c) ->
  ~ In s0 (map fst (logins others c)).
Proof.
  revert c. induction others as [|l others IH]; intros c Ho Hc; [exact Hc|].
  unfold logins in *. cbn [fold_left Session.userLogin fst].
  apply IH; [intros H; apply Ho; now right|].
  intros Hin. apply Add_keys in Hin as [-> | Hin]; [|contradiction].
  apply Ho. now left.
Qed.

Lemma filter_kept (key : string) (c : User.Cache) :
  ~ In key (map fst c) ->
  filter (fun e => negb (String.eqb (fst e) key)) c = c.
Proof.
  induction c as [|e c IH]; cbn [map filter]; intros Hn; [reflexivity|].
  assert (E : String.eqb (fst e) key = false).
  { apply String.eqb_neq. intros H. apply Hn. now left. }
  rewrite E. cbn [negb]. f_equal. apply IH. intros H. apply Hn. now right.
Qed.

Lemma logins_evict (s0 : string) (others : list string) :
  forall pre post,
    tidy (pre ++ (s0, Session.root) :: post) ->
    NoDup others -> ~ In s0 others ->
    (forall l, In l others -> ~ In l (map fst pre)) ->
    (Session.size <= List.length pre + List.length others)%nat ->
    ~ In s0 (map fst (logins others (pre ++ (s0, Session.root) :: post))).
Proof.
  induction others as [|l others IH]; intros pre post Ht Hn Hs Hpre Hlen.
  - destruct Ht as [Hl _]. rewrite length_app in Hl.
    cbn [List.length] in Hl, Hlen. lia.
  - inversion Hn as [|? ? Hl1 Hn1]; subst.
    assert (Hls : l <> s0) by (intros ->; apply Hs; now left).
    assert (Hs1 : ~ In s0 others) by (intros H; apply Hs; now right).
    assert (Hlp : ~ In l (map fst pre)) by (apply Hpre; now left).
    assert (Hpre1 : forall l', In l' others ->
                               ~ In l' (map fst ((l, Session.root) :: pre))).
    { intros l' Hin [E | Hin']; cbn [fst] in *.
      - subst l'. contradiction.
      - apply (Hpre l'); [now right | exact Hin']. }
    assert (Hlen1 : (Session.size
                     <= List.length ((l, Session.root) :: pre)
                        + List.length others)%nat)
      by (cbn [List.length] in *; lia).
    pose proof (Add_tidy l Session.root _ Ht) as Ht1.
    unfold logins. cbn [fold_left Session.userLogin fst].
    fold (logins others
            (Session.Add l Session.root (pre ++ (s0, Session.root) :: post))).
    unfold Session.Add in *.
    destruct (existsb (fun e => String.eqb (fst e) l)
                (pre ++ (s0, Session.root) :: post)).
    + rewrite filter_app in *. cbn [filter fst] in *.
      assert (E : String.eqb s0 l = false)
        by (apply String.eqb_neq; congruence).
      rewrite E in *. cbn [negb] in *.
      rewrite (filter_kept l pre Hlp) in *.
      exact (IH ((l, Session.root) :: pre) _ Ht1 Hn1 Hs1 Hpre1 Hlen1).
    + cbv zeta in *.
      destruct (Session.size
                <? List.length ((l, Session.root)
                                  :: pre ++ (s0, Session.root) :: post))%nat.
      * destruct post as [|p post].
        -- change ((l, Session.root) :: pre ++ [(s0, Session.root)])
             with (((l, Session.root) :: pre) ++ [(s0, Session.root)]) in *.
           rewrite removelast_last in *.
           apply logins_absent; [exact Hs1|].
           cbn [map fst]. intros [E | Hin]; [congruence|].
           destruct Ht as [_ Hnd]. rewrite map_app in Hnd.
           cbn [map fst] in Hnd. apply NoDup_remove_2 in Hnd.
           apply Hnd. apply in_or_app. now left.
        -- change ((l, Session.root) :: pre ++ (s0, Session.root) :: p :: post)
             with (((l, Session.root) :: pre)
                     ++ (s0, Session.root) :: p :: post) in *.
           rewrite removelast_app in * by discriminate.
           change (removelast ((s0, Session.root) :: p :: post))
             with ((s0, Session.root) :: removelast (p :: post)) in *.
           exact (IH ((l, Session.root) :: pre) _ Ht1 Hn1 Hs1 Hpre1 Hlen1).
      * exact (IH ((l, Session.root) :: pre) _ Ht1 Hn1 Hs1 Hpre1 Hlen1).
Qed.

(** X17: the cache holds ten sessions: once ten other sessions have logged
    in after a session, none of them twice, that session is gone from the
    cache, and a request with its cookie that the middleware checks is
    answered 401. *)
Theorem tenth_later_login_evicts (Compile : string -> option (string -> bool))
    (s0 : string) (others : list string) (c : User.Cache)
    (r : User.Request) :
  tidy c -> NoDup others -> ~ In s0 others ->
  (Session.size <= List.length others)%nat ->
  User.Cookie "session" r = Some s0 -> checked r ->
  logged s0 (logins others (logins [s0] c)) = None
  /\ snd (User.Middleware Compile r (logins others (logins [s0] c)))
     = User.Abort User.StatusUnauthorized.
Proof.
  intros Ht Hn Hs Hlen Hc Hchk.
  assert (H : logged s0 (logins others (logins [s0] c)) = None).
  { apply logged_absent. unfold logins at 2.
    cbn [fold_left Session.userLogin fst].
    destruct (Add_head s0 Session.root c) as [rest Hr].
    pose proof (Add_tidy s0 Session.root c Ht) as Ht1. rewrite Hr in *.
    apply (logins_evict s0 others [] rest); auto. }
  split; [exact H|].
  now rewrite (middleware_decides Compile r _ Hchk), Hc, H.
Qed.

Lemma tenth_later_login_evicts_witness :
  let r := {| User.Method := "POST"; User.Path := "/user/alive";
              User.Cookies := [("session", "s0")] |} in
  let others := ["a"; "b"; "c"; "d"; "e"; "f"; "g"; "h"; "i"; "j"] in
  logged "s0" (logins others (logins ["s0"] Session.Init)) = None
  /\ snd (User.Middleware (fun _ => None) r
            (logins others (logins ["s0"] Session.Init)))
     = User.Abort User.StatusUnauthorized.
Proof.
  intros r others.
  apply (tenth_later_login_evicts (fun _ => None) "s0" others Session.Init r).
  - split; [apply Nat.le_0_l | constructor].
  - repeat (constructor; [cbn; intuition discriminate|]). constructor.
  - cbn; intuition discriminate.
  - apply Nat.leb_le. reflexivity.
  - reflexivity.
  - split; discriminate.
Defined.

(** ** The table of users *)

Lemma find_app_none {A : Type} (p : A -> bool) (l l' : list A) :
  find p l = None -> find p (l ++ l') = find p l'.
Proof.
  induction l as [|x l IH]; [reflexivity|]. cbn [find app].
  destruct (p x); [discriminate | exact IH].
Qed.

Lemma existsb_names (u : string) (t : Accounts.table) :
  existsb (fun r => String.eqb (Accounts.username r) u) t = true
  <-> In u (map Accounts.username t).
Proof.
  rewrite existsb_exists, in_map_iff. split.
  - intros (r & Hin & He). apply String.eqb_eq in He. now exists r.
  - intros (r & He & Hin). exists r. split; [exact Hin|].
    now apply String.eqb_eq.
Qed.

Lemma sqlDeleteUser_keeps_names_distinct (i : Z) (t : Accounts.table) :
  NoDup (map Accounts.username t) ->
  NoDup (map Accounts.username (fst (Accounts.sqlDeleteUser i t))).
Proof.
  cbn [Accounts.sqlDeleteUser fst].
  induction t as [|r t IH]; cbn [map filter]; intros Hn; [constructor|].
  apply NoDup_cons_iff in Hn as [Hnot Hn].
  destruct (negb (Accounts.id r =? i)); [|exact (IH Hn)].
  cbn [map]. apply NoDup_cons; [|exact (IH Hn)].
  intros Hin. apply Hnot. apply in_map_iff in Hin as (y & Hy & Hin).
  apply filter_In in Hin as [Hin _]. apply in_map_iff. now exists y.
Qed.

Section Users.

Variable Sum256 : string -> string.

(** X18: a user that was created can be checked: when no call fails and
    the name is not taken, [createUser] adds the user, and
    [checkUserPassword] for that name then answers without error, true for
    the password given at the creation, and for any password true exactly
    when its salted hash is the one stored. *)
Theorem created_user_checks (f f' : Accounts.fault)
    (s u p a perms p' : string) (t : Accounts.table) :
  (forall c, f c = false) -> (forall c, f' c = false) ->
  ~ In u (map Accounts.username t) ->
  exists t',
    Accounts.createUser Sum256 f s u p a perms (Some t) = (Some t', None)
    /\ Accounts.checkUserPassword Sum256 f' u p (Some t') = (true, None)
    /\ Accounts.checkUserPassword Sum256 f' u p' (Some t')
       = (String.eqb (Sum256 (s ++ p)) (Sum256 (s ++ p')), None).
Proof.
  intros Hf Hf' Hu. unfold Accounts.createUser, Accounts.sqlInsertUser.
  rewrite !Hf.
  assert (He : existsb (fun r => String.eqb (Accounts.username r) u) t = false).
  { destruct (existsb _ t) eqn:E; [|reflexivity].
    apply existsb_names in E. contradiction. }
  rewrite He. eexists. split; [reflexivity|].
  assert (Hfind : find (fun r => String.eqb (Accounts.username r) u) t = None).
  { destruct (find _ t) as [r|] eqn:E; [|reflexivity].
    apply find_some in E as [Hin Hr]. apply String.eqb_eq in Hr.
    exfalso. apply Hu. apply in_map_iff. now exists r. }
  unfold Accounts.checkUserPassword, Accounts.sqlQueryPasswordByUsername.
  rewrite !Hf', (find_app_none _ t _ Hfind).
  cbn [find Accounts.username Accounts.salt Accounts.password].
  rewrite !String.eqb_refl. split; reflexivity.
Qed.

Lemma updated_names (u s h a perms : string) (i : Z) (t : Accounts.table) :
  (forall r, In r t -> Accounts.id r <> i -> Accounts.username r <> u) ->
  (List.length (filter (fun r => Z.eqb (Accounts.id r) i) t) <= 1)%nat ->
  NoDup (map Accounts.username t) ->
  NoDup (map Accounts.username
           (map (fun r => if Accounts.id r =? i
                          then {| Accounts.id := Accounts.id r;
                                  Accounts.username := u;
                                  Accounts.salt := s;
                                  Accounts.password := h;
                                  Accounts.alias := a;
                                  Accounts.permissions := perms |}
                          else r) t)).
Proof.
  induction t as [|r t IH]; intros Ho Hl Hn; [constructor|].
  inversion Hn as [|? ? Hnot Hn']; subst. cbn [map filter] in Hl |- *.
  assert (Ho' : forall r', In r' t -> Accounts.id r' <> i ->
                           Accounts.username r' <> u)
    by (intros r' Hin; apply Ho; now right).
  destruct (Accounts.id r =? i) eqn:E.
  - cbn [List.length] in Hl.
    assert (Hnone : filter (fun r' => Accounts.id r' =? i) t = [])
      by (destruct (filter _ t); [reflexivity | cbn in Hl; lia]).
    assert (Hsame : map (fun r' => if Accounts.id r' =? i
                                   then {| Accounts.id := Accounts.id r';
                                           Accounts.username := u;
                                           Accounts.salt := s;
                                           Accounts.password := h;
                                           Accounts.alias := a;
                                           Accounts.permissions := perms |}
                                   else r') t = t).
    { clear -Hnone. induction t as [|r' t IH]; [reflexivity|].
      cbn [filter map] in *. destruct (Accounts.id r' =? i);
        [discriminate | now rewrite IH]. }
    rewrite Hsame. cbn [Accounts.username]. constructor; [|exact Hn'].
    intros Hin. apply in_map_iff in Hin as (r' & Hr' & Hin).
    apply (Ho' r' Hin); [|exact Hr'].
    intros Hid. apply Z.eqb_eq in Hid.
    assert (Hf : In r' (filter (fun r' => Accounts.id r' =? i) t))
      by (apply filter_In; auto).
    rewrite Hnone in Hf. destruct Hf.
  - constructor; [|now apply IH].
    intros Hin. rewrite map_map in Hin.
    apply in_map_iff in Hin as (r' & Hr' & Hin).
    destruct (Accounts.id r' =? i); cbn [Accounts.username] in Hr'.
    + apply (Ho r); [now left | now apply Z.eqb_neq | now symmetry].
    + apply Hnot. apply in_map_iff. now exists r'.
Qed.

(** X19: the user names of the table stay distinct under the three
    functions that write to it, whichever call fails; and [createUser] for
    a name that is taken returns the violation of the constraint and leaves
    the table as it was. *)
Theorem usernames_stay_distinct (d : Accounts.database) :
  NoDup (Accounts.names d) ->
  (forall f s u p a perms,
      NoDup (Accounts.names
               (fst (Accounts.createUser Sum256 f s u p a perms d))))
  /\ (forall f s i u p a perms,
      NoDup (Accounts.names
               (fst (Accounts.updateUserInfo Sum256 f s i u p a perms d))))
  /\ (forall f i, NoDup (Accounts.names (fst (Accounts.deleteUser f i d))))
  /\ (forall f s u p a perms,
      (forall c, f c = false) -> In u (Accounts.names d) ->
      Accounts.createUser Sum256 f s u p a perms d
      = (d, Some Accounts.Constraint)).
Proof.
  intros Hn. repeat apply conj.
  - intros f s u p a perms. unfold Accounts.createUser.
    destruct (f Accounts.Open); [exact Hn|].
    destruct d as [t|]; [|exact Hn].
    destruct (f Accounts.Prepare); [exact Hn|].
    destruct (f Accounts.Exec); [exact Hn|].
    unfold Accounts.sqlInsertUser.
    destruct (existsb (fun r => String.eqb (Accounts.username r) u) t) eqn:E;
      [exact Hn|].
    cbn [fst Accounts.names]. rewrite map_app. cbn [map Accounts.username].
    apply NoDup_app; [exact Hn | repeat constructor; cbn; tauto|].
    intros x Hx [Ex|[]]. subst x. apply existsb_names in Hx. congruence.
  - intros f s i u p a perms. unfold Accounts.updateUserInfo.
    destruct (f Accounts.Open); [exact Hn|].
    destruct d as [t|]; [|exact Hn].
    destruct (f Accounts.Prepare); [exact Hn|].
    destruct (f Accounts.Exec); [exact Hn|].
    unfold Accounts.sqlUpdateUser.
    destruct (filter (fun r => Accounts.id r =? i) t) as [|h hs] eqn:Hhit.
    + now destruct (f Accounts.RowsAffected).
    + destruct (existsb (fun r => negb (Accounts.id r =? i)
                                  && String.eqb (Accounts.username r) u) t)
        eqn:Eo; [exact Hn|].
      destruct (1 <? List.length (h :: hs))%nat eqn:El; [exact Hn|].
      cbn [orb].
      assert (Hupd : NoDup (map Accounts.username
                              (map (fun r => if Accounts.id r =? i
                                             then {| Accounts.id := Accounts.id r;
                                                     Accounts.username := u;
                                                     Accounts.salt := s;
                                                     Accounts.password :=
                                                       Sum256 (s ++ p);
                                                     Accounts.alias := a;
                                                     Accounts.permissions :=
                                                       perms |}
                                             else r) t))).
      { apply updated_names; [| |exact Hn].
        - intros r Hin Hid Hu.
          assert (Hc : existsb (fun r => negb (Accounts.id r =? i)
                                         && String.eqb (Accounts.username r) u)
                         t = true).
          { apply existsb_exists. exists r. split; [exact Hin|].
            apply Z.eqb_neq in Hid. rewrite Hid, Hu, String.eqb_refl.
            reflexivity. }
          congruence.
        - rewrite Hhit. apply Nat.ltb_ge in El. exact El. }
      now destruct (f Accounts.RowsAffected).
  - intros f i. unfold Accounts.deleteUser.
    destruct (f Accounts.Open); [exact Hn|].
    destruct d as [t|]; [|exact Hn].
    destruct (f Accounts.Prepare); [exact Hn|].
    destruct (f Accounts.Exec); [exact Hn|].
    cbn [Accounts.sqlDeleteUser].
    assert (Hd : NoDup (map Accounts.username
                          (filter (fun r => negb (Accounts.id r =? i)) t)))
      by exact (sqlDeleteUser_keeps_names_distinct i t Hn).
    now destruct (f Accounts.RowsAffected).
  - intros f s u p a perms Hf Hin. unfold Accounts.createUser.
    rewrite !Hf. destruct d as [t|]; [|destruct Hin].
    unfold Accounts.sqlInsertUser.
    apply existsb_names in Hin. now rewrite Hin.
Qed.

End Users.

Lemma created_user_checks_witness :
  exists t',
    Accounts.createUser (fun x => x) Accounts.healthy "salt" "ann" "pw" "Ann"
      "*" (Some []) = (Some t', None)
    /\ Accounts.checkUserPassword (fun x => x) Accounts.healthy "ann" "pw"
         (Some t') = (true, None)
    /\ Accounts.checkUserPassword (fun x => x) Accounts.healthy "ann" "no"
         (Some t')
       = (String.eqb ("salt" ++ "pw") ("salt" ++ "no"), None).
Proof.
  apply (created_user_checks (fun x => x) Accounts.healthy Accounts.healthy
           "salt" "ann" "pw" "Ann" "*" "no" []); try reflexivity.
  intros [].
Defined.

Lemma usernames_stay_distinct_witness :
  NoDup (Accounts.names
           (fst (Accounts.createUser (fun x => x) Accounts.healthy "salt"
                   "ann" "pw" "Ann" "*" (Some [])))).
Proof.
  apply (proj1 (usernames_stay_distinct (fun x => x) (Some [])
                  (NoDup_nil string))).
Defined.

Lemma filter_all {A : Type} (p : A -> bool) (l : list A) :
  (forall x, In x l -> p x = true) -> filter p l = l.
Proof.
  induction l as [|x l IH]; intros H; [reflexivity|]. cbn [filter].
  rewrite (H x (or_introl eq_refl)). f_equal. apply IH.
  intros y Hy. apply H. now right.
Qed.

Lemma hits_of_distinct (i : Z) (t : Accounts.table) :
  NoDup (map Accounts.id t) ->
  List.length (filter (fun r => Accounts.id r =? i) t)
  = if existsb (fun r => Accounts.id r =? i) t then 1%nat else 0%nat.
Proof.
  induction t as [|r t IH]; intros Hn; [reflexivity|].
  inversion Hn as [|? ? Hnot Hn']; subst. cbn [filter existsb].
  destruct (Accounts.id r =? i) eqn:E; cbn [orb List.length].
  - apply Z.eqb_eq in E. rewrite (IH Hn').
    destruct (existsb (fun r' => Accounts.id r' =? i) t) eqn:Ex;
      [|reflexivity].
    apply existsb_exists in Ex as (r' & Hin & Hr'). apply Z.eqb_eq in Hr'.
    exfalso. apply Hnot. rewrite E, <- Hr'. now apply in_map.
  - now apply IH.
Qed.

(** X20: with distinct ids and no failing call, [deleteUser] answers true
    exactly when a user has the id; the user is then gone and every other
    user is kept, in place; and for an id no user has it answers false and
    leaves the table as it was. *)
Theorem deleteUser_removes_that_user (f : Accounts.fault) (i : Z)
    (t : Accounts.table) :
  (forall c, f c = false) -> NoDup (map Accounts.id t) ->
  exists t',
    Accounts.deleteUser f i (Some t)
    = (Some t', existsb (fun r => Accounts.id r =? i) t)
    /\ ~ In i (map Accounts.id t')
    /\ (forall r, In r t' <-> In r t /\ Accounts.id r <> i)
    /\ (~ In i (map Accounts.id t) -> t' = t).
Proof.
  intros Hf Hn. unfold Accounts.deleteUser, Accounts.sqlDeleteUser.
  rewrite !Hf. rewrite (hits_of_distinct i t Hn).
  exists (filter (fun r => negb (Accounts.id r =? i)) t).
  split; [now destruct (existsb (fun r => Accounts.id r =? i) t)|].
  split; [|split].
  - intros Hin. apply in_map_iff in Hin as (r & Hr & Hin).
    apply filter_In in Hin as [_ Hne]. rewrite Hr, Z.eqb_refl in Hne.
    discriminate.
  - intros r. rewrite filter_In, negb_true_iff, Z.eqb_neq. tauto.
  - intros Hno. apply filter_all. intros r Hin.
    apply negb_true_iff, Z.eqb_neq. intros E. apply Hno. rewrite <- E.
    now apply in_map.
Qed.

Lemma deleteUser_removes_that_user_witness :
  let row i u :=
    {| Accounts.id := i; Accounts.username := u; Accounts.salt := "s";
       Accounts.password := "h"; Accounts.alias := u;
       Accounts.permissions := "*" |} in
  exists t',
    Accounts.deleteUser Accounts.healthy 2 (Some [row 1 "ann"; row 2 "bob"])
    = (Some t', true)
    /\ ~ In 2 (map Accounts.id t')
    /\ (forall r, In r t' <-> In r [row 1 "ann"; row 2 "bob"]
                              /\ Accounts.id r <> 2)
    /\ (~ In 2 (map Accounts.id [row 1 "ann"; row 2 "bob"]) ->
        t' = [row 1 "ann"; row 2 "bob"]).
Proof.
  intros row.
  apply (deleteUser_removes_that_user Accounts.healthy 2
           [row 1 "ann"; row 2 "bob"]); [reflexivity|].
  repeat (constructor; [cbn; intuition discriminate|]). constructor.
Defined.

Section Passwords.

Variable Sum256 : string -> string.

(** X21: an update that answers true has taken effect, whichever call
    failed: [checkUserPassword] for the new name and the new password then
    answers true when no call of it fails. *)
Theorem updated_user_checks (f f' : Accounts.fault) (s : string) (i : Z)
    (u p a perms : string) (d d' : Accounts.database) :
  Accounts.updateUserInfo Sum256 f s i u p a perms d = (d', true) ->
  (forall c, f' c = false) ->
  Accounts.checkUserPassword Sum256 f' u p d' = (true, None).
Proof.
  unfold Accounts.updateUserInfo.
  destruct (f Accounts.Open); [discriminate|].
  destruct d as [t|]; [|discriminate].
  destruct (f Accounts.Prepare); [discriminate|].
  destruct (f Accounts.Exec); [discriminate|].
  unfold Accounts.sqlUpdateUser.
  destruct (filter (fun r => Accounts.id r =? i) t) as [|h hs] eqn:Hhit.
  - destruct (f Accounts.RowsAffected); discriminate.
  - destruct (existsb (fun r => negb (Accounts.id r =? i)
                                && String.eqb (Accounts.username r) u) t)
      eqn:Eo; [discriminate|].
    destruct (1 <? List.length (h :: hs))%nat; [discriminate|]. cbn [orb].
    destruct (f Accounts.RowsAffected); [discriminate|].
    intros [= <-] Hf'.
    unfold Accounts.checkUserPassword, Accounts.sqlQueryPasswordByUsername.
    rewrite !Hf'.
    assert (Hh : In h (filter (fun r => Accounts.id r =? i) t))
      by (rewrite Hhit; now left).
    apply filter_In in Hh as [Hin Hid].
    assert (Hfind : exists r,
               find (fun r => String.eqb (Accounts.username r) u)
                 (map (fun r => if Accounts.id r =? i
                                then {| Accounts.id := Accounts.id r;
                                        Accounts.username := u;
                                        Accounts.salt := s;
                                        Accounts.password := Sum256 (s ++ p);
                                        Accounts.alias := a;
                                        Accounts.permissions := perms |}
                                else r) t) = Some r
               /\ Accounts.salt r = s
               /\ Accounts.password r = Sum256 (s ++ p)).
    { clear Hhit. induction t as [|r t IH]; [destruct Hin|].
      cbn [existsb] in Eo. apply orb_false_iff in Eo as [Er Et].
      cbn [map find].
      destruct (Accounts.id r =? i) eqn:E; cbn [Accounts.username].
      - rewrite String.eqb_refl. eexists. split; [reflexivity|].
        split; reflexivity.
      - cbn [negb andb] in Er. rewrite Er.
        destruct Hin as [-> | Hin]; [congruence|]. now apply IH. }
    destruct Hfind as (r & -> & -> & ->). now rewrite String.eqb_refl.
Qed.

(** X22: [noUser] answers true only for a table that exists and is empty,
    whichever call fails; so after a user was created it answers false. *)
Theorem noUser_only_when_empty :
  (forall f d, Accounts.noUser f d = true -> d = Some [])
  /\ (forall f f' s u p a perms d d',
        Accounts.createUser Sum256 f s u p a perms d = (d', None) ->
        Accounts.noUser f' d' = false).
Proof.
  split.
  - intros f d. unfold Accounts.noUser, Accounts.sqlQueryUserCount.
    destruct (f Accounts.Open); [discriminate|].
    destruct d as [[|r t]|]; [reflexivity| |discriminate].
    destruct (f Accounts.Prepare); [discriminate|].
    destruct (f Accounts.Scan); discriminate.
  - intros f f' s u p a perms d d'. unfold Accounts.createUser.
    destruct (f Accounts.Open); [discriminate|].
    destruct d as [t|]; [|discriminate].
    destruct (f Accounts.Prepare); [discriminate|].
    destruct (f Accounts.Exec); [discriminate|].
    unfold Accounts.sqlInsertUser.
    destruct (existsb (fun r => String.eqb (Accounts.username r) u) t);
      [discriminate|].
    intros [= <-]. unfold Accounts.noUser, Accounts.sqlQueryUserCount.
    destruct (f' Accounts.Open); [reflexivity|].
    destruct (f' Accounts.Prepare); [reflexivity|].
    destruct (f' Accounts.Scan); [reflexivity|].
    rewrite length_app. cbn [List.length]. apply Z.eqb_neq. lia.
Qed.

End Passwords.

Lemma updated_user_checks_witness :
  let row := {| Accounts.id := 1; Accounts.username := "ann";
                Accounts.salt := "s"; Accounts.password := "h";
                Accounts.alias := "Ann"; Accounts.permissions := "*" |} in
  Accounts.checkUserPassword (fun x => x) Accounts.healthy "anna" "pw"
    (fst (Accounts.updateUserInfo (fun x => x) Accounts.healthy "salt" 1
            "anna" "pw" "Anna" "*" (Some [row])))
  = (true, None).
Proof.
  intros row.
  apply (updated_user_checks (fun x => x) Accounts.healthy Accounts.healthy
           "salt" 1 "anna" "pw" "Anna" "*" (Some [row])); reflexivity.
Defined.

Lemma noUser_only_when_empty_witness :
  Accounts.noUser Accounts.healthy
    (fst (Accounts.createUser (fun x => x) Accounts.healthy "salt" "ann" "pw"
            "Ann" "*" (Some [])))
  = false.
Proof.
  apply (proj2 (noUser_only_when_empty (fun x => x)) Accounts.healthy
           Accounts.healthy "salt" "ann" "pw" "Ann" "*" (Some [])).
  reflexivity.
Defined.

(** ** The table of network policies *)

Section Paging.

Variable columns : Type.

Lemma gather_healthy (f : Policies.fault) (rows : Policies.table columns) :
  (forall c, f c = false) ->
  forall n acc, Policies.gather columns f n rows acc = (acc ++ rows, None, []).
Proof.
  intros Hf. induction rows as [|r rows IH]; intros n acc;
    cbn [Policies.gather]; rewrite ?Hf.
  - now rewrite app_nil_r.
  - now rewrite IH, <- app_assoc.
Qed.

Lemma firstn_plus {A : Type} (a b : nat) (l : list A) :
  firstn (a + b) l = firstn a l ++ firstn b (skipn a l).
Proof.
  revert l. induction a as [|a IH]; intros l; [reflexivity|].
  destruct l as [|x l]; cbn [Nat.add firstn skipn app].
  - now rewrite firstn_nil.
  - now rewrite IH.
Qed.

(** X23: reading the table page by page loses and repeats nothing: with a
    positive page size and no failing call, the pages at the offsets 0,
    [n], twice [n] and so on, put one after the other, are the first rows
    of the table, as many as the pages can hold, in the order of the
    table; so enough pages give the table. *)
Theorem pages_cover_table (f : Policies.fault) (n : Z) (m : nat)
    (t : Policies.table columns) :
  (forall c, f c = false) -> 0 < n ->
  List.concat (Policies.pages columns f n m t) = firstn (m * Z.to_nat n) t
  /\ ((List.length t <= m * Z.to_nat n)%nat ->
      List.concat (Policies.pages columns f n m t) = t).
Proof.
  intros Hf Hn.
  assert (H : List.concat (Policies.pages columns f n m t)
              = firstn (m * Z.to_nat n) t).
  { unfold Policies.pages. induction m as [|m IH]; [reflexivity|].
    rewrite seq_S, map_app, concat_app, IH. cbn [Nat.add map List.concat].
    rewrite app_nil_r.
    unfold Policies.queryNetPolicyLimitOffset, Policies.found.
    rewrite !Hf, gather_healthy by exact Hf. cbn [fst app].
    unfold Policies.page.
    assert (E : (n <? 0) = false) by (apply Z.ltb_ge; lia). rewrite E.
    rewrite Z2Nat.inj_mul, Nat2Z.id by lia.
    replace (S m * Z.to_nat n)%nat with (m * Z.to_nat n + Z.to_nat n)%nat
      by lia.
    now rewrite firstn_plus. }
  split; [exact H|]. intros Hl. rewrite H. now apply firstn_all2.
Qed.

Lemma filter_none {A : Type} (p : A -> bool) (l : list A) :
  (forall x, In x l -> p x = false) -> filter p l = [].
Proof.
  induction l as [|x l IH]; intros H; [reflexivity|]. cbn [filter].
  rewrite (H x (or_introl eq_refl)). apply IH.
  intros y Hy. apply H. now right.
Qed.

(** X24: a policy goes in, is found and goes out: when no call fails and
    the id SQLite gives is not in the table, [insertNetPolicy] returns that
    id, a query without limit then yields the rows of the table followed by
    the policy under that id, and [deleteNetPolicyById] with the id gives
    the table back; deleting an id that no policy has is no error and
    changes nothing. *)
Theorem policy_goes_in_and_out (f f' f'' : Policies.fault) (fresh : Z)
    (policy : Policies.Policy columns) (t : Policies.table columns) :
  (forall c, f c = false) -> (forall c, f' c = false) ->
  (forall c, f'' c = false) ->
  ~ In fresh (map (Policies.ID columns) t) ->
  let added := {| Policies.ID := fresh;
                  Policies.rest := Policies.rest columns policy |} in
  Policies.insertNetPolicy columns f fresh policy t
  = (t ++ [added], (fresh, None), [])
  /\ Policies.found columns
       (Policies.queryNetPolicyLimitOffset columns f' (-1) 0 (t ++ [added]))
     = t ++ [added]
  /\ Policies.deleteNetPolicyById columns f'' fresh (t ++ [added])
     = (t, None, [])
  /\ Policies.deleteNetPolicyById columns f'' fresh t = (t, None, []).
Proof.
  intros Hf Hf' Hf'' Hfresh added.
  assert (Hkeep : filter (fun r => negb (Policies.ID columns r =? fresh)) t = t).
  { apply filter_all. intros r Hin. apply negb_true_iff, Z.eqb_neq.
    intros E. apply Hfresh. rewrite <- E. now apply in_map. }
  repeat apply conj.
  - unfold Policies.insertNetPolicy. now rewrite !Hf.
  - unfold Policies.queryNetPolicyLimitOffset, Policies.found, Policies.page.
    rewrite !Hf', gather_healthy by exact Hf'. reflexivity.
  - unfold Policies.deleteNetPolicyById. rewrite !Hf'', filter_app, Hkeep.
    cbn [filter Policies.ID added]. rewrite Z.eqb_refl. cbn [negb].
    now rewrite app_nil_r.
  - unfold Policies.deleteNetPolicyById. now rewrite !Hf'', Hkeep.
Qed.

Lemma gather_logs (f : Policies.fault) (rows : Policies.table columns) :
  forall n acc,
    snd (Policies.gather columns f n rows acc)
    = match snd (fst (Policies.gather columns f n rows acc)) with
      | Some e => [e]
      | None => []
      end.
Proof.
  induction rows as [|r rows IH]; intros n acc; cbn [Policies.gather].
  - now destruct (f (Policies.Next n)).
  - destruct (f (Policies.Next n)); [reflexivity|].
    destruct (f (Policies.Scan n)); [reflexivity | apply IH].
Qed.

(** X25: the three functions on the table of policies hand each error
    they return to the log, once, and log nothing when they return no
    error, whichever call fails. *)
Theorem policy_errors_are_logged_once (f : Policies.fault)
    (t : Policies.table columns) :
  let once (e : option Policies.failure) :=
    match e with Some x => [x] | None => [] end in
  (forall fresh policy,
      snd (Policies.insertNetPolicy columns f fresh policy t)
      = once (snd (snd (fst (Policies.insertNetPolicy columns f fresh
                               policy t)))))
  /\ (forall id,
      snd (Policies.deleteNetPolicyById columns f id t)
      = once (snd (fst (Policies.deleteNetPolicyById columns f id t))))
  /\ (forall limit offset,
      snd (Policies.queryNetPolicyLimitOffset columns f limit offset t)
      = once (snd (fst (Policies.queryNetPolicyLimitOffset columns f limit
                          offset t)))).
Proof.
  cbv zeta. repeat apply conj.
  - intros fresh policy. unfold Policies.insertNetPolicy.
    destruct (f Policies.Prepare); [reflexivity|].
    destruct (f Policies.Exec); [reflexivity|].
    now destruct (f Policies.LastInsertId).
  - intros id. unfold Policies.deleteNetPolicyById.
    destruct (f Policies.Prepare); [reflexivity|].
    now destruct (f Policies.Exec).
  - intros limit offset. unfold Policies.queryNetPolicyLimitOffset.
    destruct (f Policies.Prepare); [reflexivity|].
    destruct (f Policies.Query); [reflexivity|].
    apply gather_logs.
Qed.

End Paging.

Lemma pages_cover_table_witness :
  let row i := {| Policies.ID := i; Policies.rest := tt |} in
  List.concat (Policies.pages unit Policies.healthy 2 3
            [row 1; row 2; row 3; row 4; row 5])
  = [row 1; row 2; row 3; row 4; row 5].
Proof.
  intros row.
  apply (proj2 (pages_cover_table unit Policies.healthy 2 3
                  [row 1; row 2; row 3; row 4; row 5]
                  (fun _ => eq_refl) eq_refl)).
  apply Nat.leb_le. reflexivity.
Defined.

Lemma policy_goes_in_and_out_witness :
  let row i := {| Policies.ID := i; Policies.rest := tt |} in
  Policies.insertNetPolicy unit Policies.healthy 3 (row 0) [row 1; row 2]
  = ([row 1; row 2] ++ [row 3], (3, None), [])
  /\ Policies.found unit
       (Policies.queryNetPolicyLimitOffset unit Policies.healthy (-1) 0
          ([row 1; row 2] ++ [row 3]))
     = [row 1; row 2] ++ [row 3]
  /\ Policies.deleteNetPolicyById unit Policies.healthy 3
       ([row 1; row 2] ++ [row 3])
     = ([row 1; row 2], None, [])
  /\ Policies.deleteNetPolicyById unit Policies.healthy 3 [row 1; row 2]
     = ([row 1; row 2], None, []).
Proof.
  intros row.
  apply (policy_goes_in_and_out unit Policies.healthy Policies.healthy
           Policies.healthy 3 (row 0) [row 1; row 2]); try reflexivity.
  cbn. intuition discriminate.
Defined.

(** ** Instances *)

Lemma updateCmd_never_violates_unique_witness :
  snd (Background.updateCmd Telegram.ParseHackernelCmd healthy Scenario.ls 1
         Scenario.background0)
  <> Returns (Some ErrConstraint).
Proof.
  apply (updateCmd_never_violates_unique Telegram.ParseHackernelCmd healthy
           Scenario.ls 1 Scenario.background0).
Defined.

Lemma judge_run_trusts_only_recorded_witness :
  exists more,
    Judge.trace
      (fst (Judge.run (judging [(Scenario.ls, 1); (Scenario.ls, 1);
                                (Scenario.ls, 1)]) Scenario.judge0))
    = [] ++ more
    /\ forall m,
        In (Send m) more ->
        exists c,
          m = trusted c
          /\ In c (commands
                     (Judge.db
                        (fst (Judge.run
                                (judging [(Scenario.ls, 1); (Scenario.ls, 1);
                                          (Scenario.ls, 1)])
                                Scenario.judge0)))).
Proof.
  apply (judge_run_trusts_only_recorded
           (judging [(Scenario.ls, 1); (Scenario.ls, 1); (Scenario.ls, 1)])
           Scenario.judge0).
Defined.

Lemma parse_panics_below_two_separators_witness :
  Telegram.ParseHackernelCmd (Telegram.encode "/home" "/bin/ls" []) = None.
Proof.
  apply (proj2 (parse_panics_below_two_separators
                  (Telegram.encode "/home" "/bin/ls" []))).
  apply Nat.ltb_lt. reflexivity.
Defined.
